(** * The app discovery and caching engine of the workshop app

    A shallow embedding of [packages/workshop-app/utils/apps.server.ts]:
    the staleness tracker, the directory classifier, the app-name
    resolver, the sibling search, the port assignment, the catalog
    comparator and assembler, and the pruning step of the playground sync.

    Conventions.  JavaScript strings are modelled as [string] (sequences
    of 8-bit characters); integral JavaScript numbers as [Z], which is
    exact below [2^53], and [Number] of a string of digits rounds as a
    double does; awaiting a call gives a [result]; [null] and
    [undefined] are [None].  The platform is POSIX: [path.sep] is ["/"].
    The collaborators (file system, MDX compiler, [package.json] reader,
    glob) are functions of a record [Apps.Env], one snapshot of the
    outside world. *)

From Stdlib Require Import ZArith List Bool Ascii String DecimalString DecimalN Lia Permutation Sorted.
From stdpp Require Import gmap strings.
Import ListNotations.

Local Open Scope Z_scope.

(** ** Outcomes of fallible code *)

(** What awaiting a call gives: a value, an exception, or nothing at all
    when the promise never settles. *)
Inductive result (A : Type) : Type :=
| Returned (a : A)
| Thrown (message : string)
| Pending.

Arguments Returned {A} a.
Arguments Thrown {A} message.
Arguments Pending {A}.

Definition bind {A B : Type} (r : result A) (k : A -> result B) : result B :=
  match r with
  | Returned a => k a
  | Thrown e => Thrown e
  | Pending => Pending
  end.

Notation "'let*' x ':=' r 'in' k" := (bind r (fun x => k))
  (at level 10, x pattern, r at level 100, k at level 200).

(** [promise.catch(error => { console.error(error); return null })] *)
Definition catchNull {A : Type} (r : result (option A)) : result (option A) :=
  match r with
  | Returned a => Returned a
  | Thrown _ => Returned None
  | Pending => Pending
  end.

(** [Promise.all([p, q])]: rejects as soon as one of the two rejects. *)
Definition promiseAll2 {A B : Type} (p : result A) (q : result B) : result (A * B) :=
  match p, q with
  | Thrown e, _ => Thrown e
  | _, Thrown e => Thrown e
  | Returned a, Returned b => Returned (a, b)
  | _, _ => Pending
  end.

(** ** String primitives of the JavaScript runtime *)

Module JS.

Definition chr (c : ascii) : string := String c EmptyString.

Fixpoint drop (n : nat) (s : string) : string :=
  match n, s with
  | O, _ => s
  | S n', String _ s' => drop n' s'
  | S _, EmptyString => EmptyString
  end.

Fixpoint rev (s : string) : string :=
  match s with
  | EmptyString => EmptyString
  | String c s' => rev s' +:+ chr c
  end.

(** [s.startsWith(p)] *)
Fixpoint startsWith (s p : string) {struct p} : bool :=
  match p, s with
  | EmptyString, _ => true
  | String _ _, EmptyString => false
  | String c p', String d s' => Ascii.eqb c d && startsWith s' p'
  end.

(** [s.endsWith(p)] *)
Definition endsWith (s p : string) : bool := startsWith (rev s) (rev p).

(** [s.includes(p)] *)
Fixpoint includes (s p : string) : bool :=
  startsWith s p ||
  match s with
  | EmptyString => false
  | String _ s' => includes s' p
  end.

(** [s.replace(pat, rep)] with a string pattern: only the first
    occurrence is replaced ([rep] holds no [$] pattern here). *)
Fixpoint replace (s pat rep : string) : string :=
  if startsWith s pat then rep +:+ drop (String.length pat) s
  else match s with
       | EmptyString => EmptyString
       | String c s' => String c (replace s' pat rep)
       end.

(** [s.replaceAll(pat, rep)] for a non-empty [pat]: occurrences are taken
    leftmost first and do not overlap.  [skip] counts the characters of the
    occurrence being consumed. *)
Fixpoint replaceAllFrom (skip : nat) (s pat rep : string) : string :=
  match s with
  | EmptyString => EmptyString
  | String c s' =>
      match skip with
      | S k => replaceAllFrom k s' pat rep
      | O =>
          if startsWith s pat
          then rep +:+ replaceAllFrom (String.length pat - 1) s' pat rep
          else String c (replaceAllFrom 0 s' pat rep)
      end
  end.

Definition replaceAll (s pat rep : string) : string := replaceAllFrom 0 s pat rep.

(** [s.split(sep)] for a one-character separator. *)
Fixpoint split (sep : ascii) (s : string) : list string :=
  match s with
  | EmptyString => [EmptyString]
  | String c s' =>
      if Ascii.eqb c sep then EmptyString :: split sep s'
      else match split sep s' with
           | seg :: rest => String c seg :: rest
           | [] => [chr c]
           end
  end.

(** [segments.join(sep)] *)
Definition join (sep : string) (segments : list string) : string :=
  String.concat sep segments.

(** [s.padStart(n, "0")] *)
Fixpoint zeros (n : nat) : string :=
  match n with
  | O => EmptyString
  | S n' => String "0" (zeros n')
  end.

Definition padStart0 (n : nat) (s : string) : string :=
  zeros (n - String.length s) +:+ s.

End JS.

(** ** [path] (POSIX flavour) *)

Module Path.

Definition sep : string := "/".
Definition sepChar : ascii := "/"%char.

(** [path.isAbsolute] *)
Definition isAbsolute (p : string) : bool :=
  match p with
  | String c _ => Ascii.eqb c sepChar
  | EmptyString => false
  end.

(** One step of [normalizeString], on whole segments; [stack] holds the
    kept segments, last one first. *)
Definition normalizeStep (allowAboveRoot : bool) (stack : list string) (seg : string)
  : list string :=
  if String.eqb seg "" || String.eqb seg "." then stack
  else if String.eqb seg ".." then
    match stack with
    | top :: rest =>
        if String.eqb top ".." then (if allowAboveRoot then seg :: stack else stack)
        else rest
    | [] => if allowAboveRoot then [seg] else []
    end
  else seg :: stack.

Definition normalizeString (p : string) (allowAboveRoot : bool) : string :=
  JS.join sep (List.rev (fold_left (normalizeStep allowAboveRoot) (JS.split sepChar p) [])).

(** [path.normalize] *)
Definition normalize (p : string) : string :=
  match p with
  | EmptyString => "."
  | String c _ =>
      let isAbs := Ascii.eqb c sepChar in
      let trailingSeparator := JS.startsWith (JS.rev p) sep in
      let res := normalizeString p (negb isAbs) in
      match res with
      | EmptyString => if isAbs then "/" else if trailingSeparator then "./" else "."
      | _ =>
          let res' := if trailingSeparator then res +:+ "/" else res in
          if isAbs then "/" +:+ res' else res'
      end
  end.

(** [path.join(a, b)] *)
Definition join (a b : string) : string :=
  match a, b with
  | EmptyString, EmptyString => "."
  | EmptyString, _ => normalize b
  | _, EmptyString => normalize a
  | _, _ => normalize (a +:+ "/" +:+ b)
  end.

Fixpoint dropWhile (f : ascii -> bool) (s : string) : string :=
  match s with
  | EmptyString => EmptyString
  | String c s' => if f c then dropWhile f s' else s
  end.

Fixpoint takeWhile (f : ascii -> bool) (s : string) : string :=
  match s with
  | EmptyString => EmptyString
  | String c s' => if f c then String c (takeWhile f s') else EmptyString
  end.

Definition isSep (c : ascii) : bool := Ascii.eqb c sepChar.

(** [path.basename(p)]: the last segment, trailing separators ignored. *)
Definition basename (p : string) : string :=
  JS.rev (takeWhile (fun c => negb (isSep c)) (dropWhile isSep (JS.rev p))).

(** [path.dirname(p)]: the loop of the runtime walks from the last
    character down to index 1 and stops at the separator in front of the
    last segment. *)
Definition dirname (p : string) : string :=
  match p with
  | EmptyString => "."
  | String c rest =>
      let hasRoot := isSep c in
      match dropWhile (fun c => negb (isSep c)) (dropWhile isSep (JS.rev rest)) with
      | EmptyString => if hasRoot then "/" else "."
      | String _ before =>
          match before with
          | EmptyString => if hasRoot then "//" else JS.chr c
          | _ => String c (JS.rev before)
          end
      end
  end.

End Path.

(** ** Staleness tracker *)

Module Staleness.

Record CacheMetadata : Type := {
  createdTime : Z;
  ttl : Z;
  swr : Z
}.

Record CacheEntry (V : Type) : Type := {
  value : V;
  metadata : CacheMetadata
}.

Arguments value {V} _.
Arguments metadata {V} _.

(** [modifiedTimes.set(dir, Date.now())]; the clock reading is passed in. *)
Definition setModifiedTimesForDir (dir : string) (now : Z) (modifiedTimes : gmap string Z)
  : gmap string Z :=
  <[dir := now]> modifiedTimes.

Definition nonAbsoluteMessage (dir : string) : string :=
  "Trying to get force fresh for non-absolute path: " +:+ dir.

(** The answer is [true] or [undefined]: [Some true] or [None]. *)
Definition getForceFreshForDir {V : Type} (modifiedTimes : gmap string Z)
    (dir : string) (cacheEntry : option (CacheEntry V)) : result (option bool) :=
  if negb (Path.isAbsolute dir) then Thrown (nonAbsoluteMessage dir)
  else
    match cacheEntry with
    | None => Returned (Some true)
    | Some entry =>
        match modifiedTimes !! dir with
        | None => Returned None
        | Some modifiedTime =>
            if modifiedTime =? 0 then Returned None
            else if createdTime (metadata entry) <? modifiedTime
                 then Returned (Some true)
                 else Returned None
        end
    end.

End Staleness.

(** ** Memoized fetch layer *)

Module Cache.

Import Staleness.

Inductive Fetched (V : Type) : Type :=
| Fresh (v : V) (stored : CacheEntry V)
| FromCache (v : V)
| StaleWhileRevalidate (v : V).

Arguments Fresh {V} v stored.
Arguments FromCache {V} v.
Arguments StaleWhileRevalidate {V} v.

Definition fetchedValue {V : Type} (f : Fetched V) : V :=
  match f with
  | Fresh v _ => v
  | FromCache v => v
  | StaleWhileRevalidate v => v
  end.

Definition computeFresh {V : Type} (now ttl swr : Z) (getFreshValue : result V)
  : result (Fetched V) :=
  let* v := getFreshValue in
  Returned (Fresh v {| value := v;
                       metadata := {| createdTime := now; ttl := ttl; swr := swr |} |}).

(** Modelled from the spec: [cachified] of [cache.server.ts], which is
    not part of the sources at hand.  Section 4.3: a forced refresh, a
    missing entry or an entry older than [ttl + swr] awaits the compute
    and stores its result with [createdTime = now]; an entry within [ttl]
    is returned as it is; an entry between [ttl] and [ttl + swr] is
    returned while a background compute refreshes it.  [entry] is what
    the cache holds under the key, [getFreshValue] the outcome of the
    compute. *)
Definition cachified {V : Type} (entry : option (CacheEntry V)) (now ttl swr : Z)
    (forceFresh : option bool) (getFreshValue : result V) : result (Fetched V) :=
  match forceFresh, entry with
  | Some true, _ => computeFresh now ttl swr getFreshValue
  | _, None => computeFresh now ttl swr getFreshValue
  | _, Some e =>
      let age := now - createdTime (metadata e) in
      if age <=? ttl then Returned (FromCache (value e))
      else if age <? ttl + swr then Returned (StaleWhileRevalidate (value e))
      else computeFresh now ttl swr getFreshValue
  end.

End Cache.

(** ** Directory classifier *)

Module Classifier.

(** The values [Number] yields on a string of decimal digits: a
    non-negative integral double or [Infinity]. *)
Inductive JSNumber : Type :=
| Finite (n : Z)
| Infinity.

Inductive StepType : Type := problem | solution.

Definition typeName (t : StepType) : string :=
  match t with
  | problem => "problem"
  | solution => "solution"
  end.

Record AppDirInfo : Type := {
  stepNumber : Z;
  type : StepType;
  subtitle : option string
}.

Definition isDigit (c : ascii) : bool :=
  let n := N_of_ascii c in (48 <=? n)%N && (n <=? 57)%N.

(** Line terminators, which [.] of a regular expression does not match:
    line feed and carriage return (the other two, U+2028 and U+2029, are
    no 8-bit characters). *)
Definition isLineTerminator (c : ascii) : bool :=
  let n := N_of_ascii c in (n =? 10)%N || (n =? 13)%N.

Fixpoint allChars (f : ascii -> bool) (s : string) : bool :=
  match s with
  | EmptyString => true
  | String c s' => f c && allChars f s'
  end.

Definition digitValue (c : ascii) : Z := Z.of_N (N_of_ascii c) - 48.

Fixpoint decimalValue (acc : Z) (digits : string) : Z :=
  match digits with
  | EmptyString => acc
  | String c rest => decimalValue (10 * acc + digitValue c) rest
  end.

(** The double nearest to a non-negative integer, ties to even. *)
Definition roundToDouble (v : Z) : JSNumber :=
  if v <? 2 ^ 53 then Finite v
  else
    let e := Z.log2 v - 52 in
    let q := Z.shiftr v e in
    let r := v - Z.shiftl q e in
    let half := Z.shiftl 1 (e - 1) in
    let q' := if r <? half then q
              else if half <? r then q + 1
              else if Z.even q then q else q + 1 in
    let w := Z.shiftl q' e in
    if 2 ^ 1024 <=? w then Infinity else Finite w.

(** [Number(digits)] for a non-empty string of decimal digits. *)
Definition Number (digits : string) : JSNumber :=
  roundToDouble (decimalValue 0 digits).

(** What [regex.exec] captures with the pattern of [regexSource] below:
    the named groups [stepNumber] and [subtitle], and the second group. *)
Record RegexMatch : Type := {
  groupStepNumber : string;
  group2 : StepType;
  groupSubtitle : option string
}.

Definition matchType (s : string) : option (StepType * string) :=
  if JS.startsWith s "problem" then Some (problem, JS.drop 7 s)
  else if JS.startsWith s "solution" then Some (solution, JS.drop 8 s)
  else None.

(** The optional third group and the end of the input. *)
Definition matchSubtitle (rest : string) : option (option string) :=
  match rest with
  | EmptyString => Some None
  | String c sub =>
      if Ascii.eqb c "." && allChars (fun c => negb (isLineTerminator c)) sub
      then Some (Some sub)
      else None
  end.

Definition regexExec (appDir : string) : option RegexMatch :=
  let digits := Path.takeWhile isDigit appDir in
  match digits, Path.dropWhile isDigit appDir with
  | String _ _, String c afterDot =>
      if Ascii.eqb c "." then
        match matchType afterDot with
        | Some (t, rest) =>
            match matchSubtitle rest with
            | Some sub =>
                Some {| groupStepNumber := digits; group2 := t; groupSubtitle := sub |}
            | None => None
            end
        | None => None
        end
      else None
  | _, _ => None
  end.

Definition quote : string := JS.chr (ascii_of_nat 34).

Definition regexSource : string :=
  "/^(?<stepNumber>\d+)\.(problem|solution)(\.(?<subtitle>.*))?$/".

Definition ignoringMessage (appDir : string) : string :=
  "Ignoring directory " +:+ quote +:+ appDir +:+ quote +:+
  " which does not match regex " +:+ quote +:+ regexSource +:+ quote.

Definition cannotIdentifyMessage (appDir : string) : string :=
  "Cannot identify the stepNumber for app directory " +:+ quote +:+ appDir +:+ quote +:+
  " with regex " +:+ quote +:+ regexSource +:+ quote.

(** The lines written with [console.info], and the outcome. *)
Definition getAppDirInfo (appDir : string) : list string * result (option AppDirInfo) :=
  match regexExec appDir with
  | None => ([ignoringMessage appDir], Returned None)
  | Some m =>
      match Number (groupStepNumber m) with
      | Finite n =>
          if n =? 0 then ([], Thrown (cannotIdentifyMessage appDir))
          else ([], Returned (Some {| stepNumber := n;
                                      type := group2 m;
                                      subtitle := groupSubtitle m |}))
      | Infinity => ([], Thrown (cannotIdentifyMessage appDir))
      end
  end.

(** [/^(?<number>\d+)\./] *)
Definition extractExerciseNumber (dir : string) : option JSNumber :=
  let digits := Path.takeWhile isDigit dir in
  match digits, Path.dropWhile isDigit dir with
  | String _ _, String c _ => if Ascii.eqb c "." then Some (Number digits) else None
  | _, _ => None
  end.

(** *** The pattern, said declaratively *)

Definition suffixOf (subtitle : option string) : string :=
  match subtitle with
  | None => EmptyString
  | Some s => "." +:+ s
  end.

(** [name] reads [<digits>.(problem|solution)(.<subtitle>)?]. *)
Definition matchesStepPattern (name digits : string) (t : StepType)
    (subtitle : option string) : Prop :=
  name = digits +:+ "." +:+ typeName t +:+ suffixOf subtitle
  /\ digits <> EmptyString
  /\ allChars isDigit digits = true
  /\ match subtitle with
     | Some s => allChars (fun c => negb (isLineTerminator c)) s = true
     | None => True
     end.

End Classifier.

(** ** Path and identity resolver *)

Module Names.

Definition token : string := "__sep__".

Definition getAppName (workshopRoot fullPath : string) : string :=
  let relativePath := JS.replace fullPath (workshopRoot +:+ Path.sep) "" in
  JS.join token (JS.split Path.sepChar relativePath).

Definition getFullPathFromAppName (workshopRoot appName : string) : string :=
  let relativePath := JS.replaceAll appName token Path.sep in
  Path.join workshopRoot relativePath.

(** *** Paths that survive the round trip *)

Definition noSep (s : string) : bool :=
  Classifier.allChars (fun c => negb (Ascii.eqb c Path.sepChar)) s.

(** A segment as [path.normalize] leaves it: not empty, not [.] or [..],
    without separator. *)
Definition plainSegment (s : string) : bool :=
  negb (String.eqb s "") && negb (String.eqb s ".") && negb (String.eqb s "..")
  && noSep s.

(** A segment in which the token cannot start. *)
Definition tokenFree (s : string) : bool := negb (JS.includes s "__sep").

(** The absolute path with the given segments. *)
Definition absolutePath (segments : list string) : string :=
  Path.sep +:+ JS.join Path.sep segments.

End Names.

(** ** [Array.prototype.sort] *)

Module JSArray.

Section Sort.

Context {A : Type}.
Variable comparefn : A -> A -> Z.

(** How far the run that starts the array extends beyond its first two
    elements. *)
Fixpoint runLengthFrom (descending : bool) (previous : A) (rest : list A) : nat :=
  match rest with
  | [] => O
  | current :: rest' =>
      let order := comparefn current previous in
      if (if descending then 0 <=? order else order <? 0) then O
      else S (runLengthFrom descending current rest')
  end.

(** The first run, put in ascending order, and the elements after it. *)
Definition countAndMakeRun (l : list A) : list A * list A :=
  match l with
  | low :: high :: rest =>
      let descending := comparefn high low <? 0 in
      let n := S (S (runLengthFrom descending high rest)) in
      ((if descending then List.rev (firstn n l) else firstn n l), skipn n l)
  | _ => (l, [])
  end.

(** The slot of [pivot] in [sorted], searched between [left] and [right]. *)
Fixpoint binarySearch (fuel : nat) (pivot : A) (sorted : list A) (left right : nat) : nat :=
  match fuel with
  | O => left
  | S fuel' =>
      if (left <? right)%nat then
        let mid := (left + (right - left) / 2)%nat in
        match nth_error sorted mid with
        | Some element =>
            if comparefn pivot element <? 0
            then binarySearch fuel' pivot sorted left mid
            else binarySearch fuel' pivot sorted (S mid) right
        | None => left
        end
      else left
  end.

Definition insertPivot (sorted : list A) (pivot : A) : list A :=
  let left := binarySearch (List.length sorted) pivot sorted O (List.length sorted) in
  firstn left sorted ++ pivot :: skipn left sorted.

(** [array.sort(comparefn)] as the V8 engine sorts an array of fewer than
    64 elements: the leading run is detected, then every later element
    is placed by binary insertion, [comparefn] being called with the new
    element first.  Longer arrays are cut into several such runs that are
    merged; the model follows the single-run path at every length. *)
Definition sort (l : list A) : list A :=
  let (run, rest) := countAndMakeRun l in
  fold_left insertPivot rest run.

End Sort.

End JSArray.

(** ** App records *)

Module Apps.

Inductive TestInfo : Type :=
| TestBrowser (baseUrl : string) (testFiles : list string)
| TestScript (script : string)
| TestNone.

Inductive DevInfo : Type :=
| DevBrowser (baseUrl : string)
| DevScript (portNumber : Z) (baseUrl : string).

Record BaseApp : Type := {
  name : string;
  title : string;
  dirName : string;
  fullPath : string;
  relativePath : string;
  instructionsCode : option string;
  epicVideoEmbeds : option (list string);
  test : TestInfo;
  dev : DevInfo
}.

Record BaseExerciseStepApp : Type := {
  base : BaseApp;
  exerciseNumber : Z;
  stepNumber : Z
}.

Record ProblemApp : Type := {
  problemStep : BaseExerciseStepApp;
  solutionName : option string
}.

Record SolutionApp : Type := {
  solutionStep : BaseExerciseStepApp;
  problemName : option string
}.

Record ExampleApp : Type := { exampleBase : BaseApp }.

Record PlaygroundApp : Type := {
  playgroundBase : BaseApp;
  appName : string
}.

Inductive App : Type :=
| Problem (app : ProblemApp)
| Solution (app : SolutionApp)
| Example (app : ExampleApp)
| Playground (app : PlaygroundApp).

Definition baseOf (app : App) : BaseApp :=
  match app with
  | Problem a => base (problemStep a)
  | Solution a => base (solutionStep a)
  | Example a => exampleBase a
  | Playground a => playgroundBase a
  end.

Definition isProblemApp (app : App) : bool :=
  match app with Problem _ => true | _ => false end.

Definition isSolutionApp (app : App) : bool :=
  match app with Solution _ => true | _ => false end.

Definition isPlaygroundApp (app : App) : bool :=
  match app with Playground _ => true | _ => false end.

Definition isExampleApp (app : App) : bool :=
  match app with Example _ => true | _ => false end.

Definition isExerciseStepApp (app : App) : bool :=
  isProblemApp app || isSolutionApp app.

(** The exercise and step numbers of a problem or solution app. *)
Definition stepOf (app : App) : option BaseExerciseStepApp :=
  match app with
  | Problem a => Some (problemStep a)
  | Solution a => Some (solutionStep a)
  | _ => None
  end.

(** *** Port assignment *)

(** The port formulas, in integer arithmetic: what the runtime computes
    as long as every intermediate result is below [2^53], which exercise
    and step numbers below [2^49] ensure.  Beyond that the runtime
    rounds, and the statements about ports leave those numbers out. *)
Definition problemPortNumber (exerciseNumber stepNumber : Z) : Z :=
  6000 + (exerciseNumber - 1) * 10 + stepNumber.

Definition solutionPortNumber (exerciseNumber stepNumber : Z) : Z :=
  7000 + (exerciseNumber - 1) * 10 + stepNumber.

Definition playgroundPortNumber : Z := 4000.

Definition examplePortNumber (index : Z) : Z := 8000 + index.

(** Who a port is assigned to: the kind of the app with its exercise
    and step number, or its index among the examples. *)
Inductive Slot : Type :=
| ProblemSlot (exerciseNumber stepNumber : Z)
| SolutionSlot (exerciseNumber stepNumber : Z)
| ExampleSlot (index : Z)
| PlaygroundSlot.

Definition portNumberOf (slot : Slot) : Z :=
  match slot with
  | ProblemSlot e s => problemPortNumber e s
  | SolutionSlot e s => solutionPortNumber e s
  | ExampleSlot index => examplePortNumber index
  | PlaygroundSlot => playgroundPortNumber
  end.

(** At most 99 exercises of at most 10 steps each. *)
Definition slotInRange (slot : Slot) : Prop :=
  match slot with
  | ProblemSlot e s | SolutionSlot e s => 1 <= e <= 99 /\ 1 <= s <= 10
  | ExampleSlot index => 0 <= index
  | PlaygroundSlot => True
  end.

(** *** The collaborators, as one snapshot of the outside world *)

Record CompiledMdx : Type := {
  code : string;
  mdxTitle : option string;
  mdxEpicVideoEmbeds : option (list string)
}.

Record Env : Type := {
  workshopRoot : string;
  (** [Date.now()] *)
  now : Z;
  modifiedTimes : gmap string Z;
  (** [fs.promises.access(file, F_OK)] succeeds *)
  fileExists : string -> bool;
  (** [fs.promises.readdir] *)
  readdir : string -> result (list string);
  (** [compileMdx(filepath)] *)
  compileMdx : string -> result CompiledMdx;
  (** [getPkgProp(dir, property, '')] *)
  getPkgProp : string -> string -> result string;
  (** [glob(pattern, { cwd, ignore: 'node_modules/**' })] *)
  glob : string -> string -> list string;
  (** what [getPlaygroundAppName()] resolves to *)
  playgroundAppName : option string;
  (** [a.localeCompare(b)] *)
  localeCompare : string -> string -> Z;
  playgroundAppCache : gmap string (Staleness.CacheEntry (option PlaygroundApp));
  problemAppCache : gmap string (Staleness.CacheEntry (option ProblemApp));
  solutionAppCache : gmap string (Staleness.CacheEntry (option SolutionApp));
  exampleAppCache : gmap string (Staleness.CacheEntry (option ExampleApp))
}.

(** [n.toString()] for an integer from [0] to below [2^53], which the
    runtime prints digit for digit.  From [2^53] on it prints the
    shortest digits that read back as the same double; the statements
    that depend on the digits keep their numbers below [2^53]. *)
Definition numberToString (n : Z) : string :=
  NilZero.string_of_uint (N.to_uint (Z.to_N n)).

Section Builders.

Variable env : Env.

Definition getAppName (fullPath : string) : string :=
  Names.getAppName (workshopRoot env) fullPath.

Definition getFullPathFromAppName (appName : string) : string :=
  Names.getFullPathFromAppName (workshopRoot env) appName.

(** *** Sibling search *)

(** The first branch of [findSolutionDir]: [fullPath] is a problem
    directory. *)
Definition solutionDirOfProblem (fullPath dirName : string) : result (option string) :=
  let* info := snd (Classifier.getAppDirInfo dirName) in
  match info with
  | None => Returned None
  | Some info =>
      let paddedStepNumber :=
        JS.padStart0 2 (numberToString (Classifier.stepNumber info)) in
      let parentDir := Path.dirname fullPath in
      let* siblingDirs := readdir env parentDir in
      match find (fun dir => JS.startsWith dir (paddedStepNumber +:+ ".solution"))
                 siblingDirs with
      | Some solutionDir => Returned (Some (Path.join parentDir solutionDir))
      | None => Returned None
      end
  end.

(** [fuel] bounds the depth of the recursion through the playground
    branch; without fuel left the promise is [Pending]. *)
Fixpoint findSolutionDirFuel (fuel : nat) (fullPath : string) : result (option string) :=
  match fuel with
  | O => Pending
  | S fuel' =>
      let dirName := Path.basename fullPath in
      if JS.includes dirName ".problem" then solutionDirOfProblem fullPath dirName
      else if JS.endsWith fullPath "playground" then
        match playgroundAppName env with
        | Some (String c appName') =>
            findSolutionDirFuel fuel' (getFullPathFromAppName (String c appName'))
        | _ => Returned None
        end
      else Returned None
  end.

(** The first branch of [findProblemDir]: [fullPath] is a solution
    directory. *)
Definition problemDirOfSolution (fullPath dirName : string) : result (option string) :=
  let* info := snd (Classifier.getAppDirInfo dirName) in
  match info with
  | None => Returned None
  | Some info =>
      let paddedStepNumber :=
        JS.padStart0 2 (numberToString (Classifier.stepNumber info)) in
      let parentDir := Path.dirname fullPath in
      let* siblingDirs := readdir env parentDir in
      match find (fun dir => JS.endsWith dir "problem" && JS.includes dir paddedStepNumber)
                 siblingDirs with
      | Some problemDir => Returned (Some (Path.join parentDir problemDir))
      | None => Returned None
      end
  end.

Fixpoint findProblemDirFuel (fuel : nat) (fullPath : string) : result (option string) :=
  match fuel with
  | O => Pending
  | S fuel' =>
      let dirName := Path.basename fullPath in
      if JS.includes dirName ".solution" then problemDirOfSolution fullPath dirName
      else if JS.endsWith fullPath "playground" then
        match playgroundAppName env with
        | Some (String c appName') =>
            findProblemDirFuel fuel' (getFullPathFromAppName (String c appName'))
        | _ => Returned None
        end
      else Returned None
  end.

(** Two nested calls are as deep as the recursion can go before it
    repeats itself (see [findSolutionDirFuel_stable]). *)
Definition findSolutionDir (fullPath : string) : result (option string) :=
  findSolutionDirFuel 2 fullPath.

Definition findProblemDir (fullPath : string) : result (option string) :=
  findProblemDirFuel 2 fullPath.

(** *** Test and dev descriptors *)

Definition compileMdxIfExists (filepath : string) : result (option CompiledMdx) :=
  let filepath := JS.replaceAll filepath "\" "/" in
  if fileExists env filepath
  then catchNull (let* compiled := compileMdx env filepath in Returned (Some compiled))
  else Returned None.

Definition getTestInfo (fullPath : string) : result TestInfo :=
  let hasPkgJson := fileExists env (Path.join fullPath "package.json") in
  let* testScript :=
    (if hasPkgJson
     then let* script := getPkgProp env fullPath "kcd-workshop.scripts.test" in
          Returned (Some script)
     else Returned None) in
  match testScript with
  | Some (String c script') => Returned (TestScript (String c script'))
  | _ =>
      let* solutionDir := findSolutionDir fullPath in
      let testAppFullPath :=
        match solutionDir with Some dir => dir | None => fullPath end in
      let* dirList := readdir env testAppFullPath in
      match List.filter (fun item => JS.includes item ".test.") dirList with
      | [] => Returned TestNone
      | testFiles =>
          Returned (TestBrowser ("/app/" +:+ getAppName fullPath +:+ "/test/") testFiles)
      end
  end.

Definition getDevInfo (fullPath : string) (portNumber : Z) : result DevInfo :=
  let hasPkgJson := fileExists env (Path.join fullPath "package.json") in
  let* hasDevScript :=
    (if hasPkgJson
     then let* script := getPkgProp env fullPath "scripts.dev" in
          Returned (negb (String.eqb script ""))
     else Returned false) in
  if hasDevScript
  then Returned (DevScript portNumber
                   ("http://localhost:" +:+ numberToString portNumber +:+ "/"))
  else Returned (DevBrowser ("/app/" +:+ getAppName fullPath +:+ "/")).

Definition titleOf (compiledReadme : option CompiledMdx) (name : string) : string :=
  match compiledReadme with
  | Some {| mdxTitle := Some t |} => t
  | _ => name
  end.

Definition relativePathOf (fullPath : string) : string :=
  JS.replace fullPath (workshopRoot env +:+ Path.sep) "".

Definition baseApp (fullPath : string) (compiledReadme : option CompiledMdx)
    (test : TestInfo) (dev : DevInfo) : BaseApp :=
  let name := getAppName fullPath in
  {| name := name;
     title := titleOf compiledReadme name;
     dirName := Path.basename fullPath;
     fullPath := fullPath;
     relativePath := relativePathOf fullPath;
     instructionsCode := option_map code compiledReadme;
     epicVideoEmbeds :=
       match compiledReadme with Some c => mdxEpicVideoEmbeds c | None => None end;
     test := test;
     dev := dev |}.

(** *** The four builders *)

(** [getFreshValue] of [getPlaygroundApp] *)
Definition playgroundAppFresh (playgroundDir : string) : result (option PlaygroundApp) :=
  if negb (fileExists env playgroundDir) then Returned None
  else
    match playgroundAppName env with
    | Some (String c appName') =>
        let portNumber := playgroundPortNumber in
        let* (compiledReadme, (test, dev)) :=
          promiseAll2 (compileMdxIfExists (Path.join playgroundDir "README.mdx"))
            (promiseAll2 (getTestInfo playgroundDir) (getDevInfo playgroundDir portNumber)) in
        Returned (Some {| playgroundBase := baseApp playgroundDir compiledReadme test dev;
                          appName := String c appName' |})
    | _ => Returned None
    end.

Definition ttlDay : Z := 1000 * 60 * 60 * 24.

Definition getPlaygroundApp : result (option PlaygroundApp) :=
  let playgroundDir := Path.join (workshopRoot env) "playground" in
  let appName := playgroundAppName env in
  let key := "playground-" +:+ match appName with Some n => n | None => "null" end in
  let* forceFresh :=
    Staleness.getForceFreshForDir (modifiedTimes env) playgroundDir
      (playgroundAppCache env !! key) in
  catchNull
    (let* fetched :=
       Cache.cachified (playgroundAppCache env !! key) (now env) ttlDay 0 forceFresh
         (playgroundAppFresh playgroundDir) in
     Returned (Cache.fetchedValue fetched)).

Definition getExampleAppFromPath (fullPath : string) (index : Z) : result ExampleApp :=
  let* compiledReadme := compileMdxIfExists (Path.join fullPath "README.mdx") in
  let portNumber := examplePortNumber index in
  let* test := getTestInfo fullPath in
  let* dev := getDevInfo fullPath portNumber in
  Returned {| exampleBase := baseApp fullPath compiledReadme test dev |}.

(** The records keep [exerciseNumber] as an integer.  An exercise
    directory whose digits overflow to [Infinity] (309 digits or more,
    beyond what a file system accepts as a name) is outside the model and
    is given no app. *)
Definition getSolutionAppFromPath (fullPath : string) : result (option SolutionApp) :=
  let dirName := Path.basename fullPath in
  let parentDirName := Path.basename (Path.dirname fullPath) in
  match Classifier.extractExerciseNumber parentDirName with
  | Some (Classifier.Finite exerciseNumber) =>
      if exerciseNumber =? 0 then Returned None
      else
        let* info := snd (Classifier.getAppDirInfo dirName) in
        match info with
        | None => Returned None
        | Some info =>
            let stepNumber := Classifier.stepNumber info in
            let portNumber := solutionPortNumber exerciseNumber stepNumber in
            let* compiledReadme := compileMdxIfExists (Path.join fullPath "README.mdx") in
            let* problemDir := findProblemDir fullPath in
            let problemName := option_map getAppName problemDir in
            let* (test, dev) :=
              promiseAll2 (getTestInfo fullPath) (getDevInfo fullPath portNumber) in
            Returned (Some {| solutionStep :=
                                {| base := baseApp fullPath compiledReadme test dev;
                                   exerciseNumber := exerciseNumber;
                                   stepNumber := stepNumber |};
                              problemName := problemName |})
        end
  | Some Classifier.Infinity => Returned None
  | None => Returned None
  end.

(** As for solutions, an exercise number that overflows is outside the
    model. *)
Definition getProblemAppFromPath (fullPath : string) : result (option ProblemApp) :=
  let dirName := Path.basename fullPath in
  let parentDirName := Path.basename (Path.dirname fullPath) in
  match Classifier.extractExerciseNumber parentDirName with
  | Some (Classifier.Finite exerciseNumber) =>
      if exerciseNumber =? 0 then Returned None
      else
        let* info := snd (Classifier.getAppDirInfo dirName) in
        match info with
        | None => Returned None
        | Some info =>
            let stepNumber := Classifier.stepNumber info in
            let portNumber := problemPortNumber exerciseNumber stepNumber in
            let* compiledReadme := compileMdxIfExists (Path.join fullPath "README.mdx") in
            let* solutionDir := findSolutionDir fullPath in
            let solutionName := option_map getAppName solutionDir in
            let* (test, dev) :=
              promiseAll2 (getTestInfo fullPath) (getDevInfo fullPath portNumber) in
            Returned (Some {| problemStep :=
                                {| base := baseApp fullPath compiledReadme test dev;
                                   exerciseNumber := exerciseNumber;
                                   stepNumber := stepNumber |};
                              solutionName := solutionName |})
        end
  | Some Classifier.Infinity => Returned None
  | None => Returned None
  end.

(** The holder of the port that a builder hands to [getDevInfo] for an
    app it returns. *)
Inductive assigned : App -> Slot -> Prop :=
| assigned_problem (fullPath : string) (app : ProblemApp) :
    getProblemAppFromPath fullPath = Returned (Some app) ->
    assigned (Problem app)
      (ProblemSlot (exerciseNumber (problemStep app)) (stepNumber (problemStep app)))
| assigned_solution (fullPath : string) (app : SolutionApp) :
    getSolutionAppFromPath fullPath = Returned (Some app) ->
    assigned (Solution app)
      (SolutionSlot (exerciseNumber (solutionStep app)) (stepNumber (solutionStep app)))
| assigned_example (fullPath : string) (index : Z) (app : ExampleApp) :
    getExampleAppFromPath fullPath index = Returned app ->
    assigned (Example app) (ExampleSlot index)
| assigned_playground (playgroundDir : string) (app : PlaygroundApp) :
    playgroundAppFresh playgroundDir = Returned (Some app) ->
    assigned (Playground app) PlaygroundSlot.

(** *** The scans *)

(** The loop the three scans share: every directory is fetched in turn
    and what is not [null] is pushed. *)
Fixpoint collectLoop {A : Type} (appFor : string -> result (option A))
    (dirs : list string) (apps : list A) : result (list A) :=
  match dirs with
  | [] => Returned apps
  | dir :: rest =>
      let* app := appFor dir in
      match app with
      | Some app => collectLoop appFor rest (apps ++ [app])
      | None => collectLoop appFor rest apps
      end
  end.

(** What a directory adds to the list of its scan. *)
Definition kept {A : Type} (r : result (option A)) : list A :=
  match r with
  | Returned (Some app) => [app]
  | _ => []
  end.




(** The [cachified] call in the loop of [getProblemApps]. *)
Definition problemAppFor (problemDir : string) : result (option ProblemApp) :=
  let* forceFresh :=
    Staleness.getForceFreshForDir (modifiedTimes env) problemDir
      (problemAppCache env !! problemDir) in
  let* fetched :=
    Cache.cachified (problemAppCache env !! problemDir) (now env) ttlDay 0 forceFresh
      (catchNull (getProblemAppFromPath problemDir)) in
  Returned (Cache.fetchedValue fetched).

Definition problemDirsOf : list string :=
  let exercisesDir := Path.join (workshopRoot env) "exercises" in
  map (fun p => Path.join exercisesDir p) (glob env "**/*problem*" exercisesDir).

Definition getProblemApps : result (list ProblemApp) :=
  collectLoop problemAppFor problemDirsOf [].

(** The [cachified] call in the loop of [getSolutionApps]. *)
Definition solutionAppFor (solutionDir : string) : result (option SolutionApp) :=
  let* forceFresh :=
    Staleness.getForceFreshForDir (modifiedTimes env) solutionDir
      (solutionAppCache env !! solutionDir) in
  let* fetched :=
    Cache.cachified (solutionAppCache env !! solutionDir) (now env) ttlDay 0 forceFresh
      (catchNull (getSolutionAppFromPath solutionDir)) in
  Returned (Cache.fetchedValue fetched).

Definition solutionDirsOf : list string :=
  let exercisesDir := Path.join (workshopRoot env) "exercises" in
  map (fun p => Path.join exercisesDir p) (glob env "**/*solution*" exercisesDir).

Definition getSolutionApps : result (list SolutionApp) :=
  collectLoop solutionAppFor solutionDirsOf [].

(** [exampleDirs.indexOf(exampleDir)] *)
Fixpoint indexOf (dirs : list string) (dir : string) (from : Z) : Z :=
  match dirs with
  | [] => -1
  | d :: rest => if String.eqb d dir then from else indexOf rest dir (from + 1)
  end.

Definition exampleKey (exampleDirs : list string) (exampleDir : string) : string :=
  exampleDir +:+ "-" +:+ numberToString (indexOf exampleDirs exampleDir 0).

(** The [cachified] call in the loop of [getExampleApps]. *)
Definition exampleAppFor (exampleDirs : list string) (exampleDir : string)
  : result (option ExampleApp) :=
  let index := indexOf exampleDirs exampleDir 0 in
  let key := exampleKey exampleDirs exampleDir in
  let* forceFresh :=
    Staleness.getForceFreshForDir (modifiedTimes env) exampleDir
      (exampleAppCache env !! key) in
  let* fetched :=
    Cache.cachified (exampleAppCache env !! key) (now env) ttlDay 0 forceFresh
      (catchNull (let* app := getExampleAppFromPath exampleDir index in
                  Returned (Some app))) in
  Returned (Cache.fetchedValue fetched).

Definition exampleDirsOf : list string :=
  let examplesDir := Path.join (workshopRoot env) "examples" in
  map (fun p => Path.join examplesDir p) (glob env "*" examplesDir).

Definition getExampleApps : result (list ExampleApp) :=
  collectLoop (exampleAppFor exampleDirsOf) exampleDirsOf [].

(** *** The catalog *)

Definition sameStepOrder (a b : BaseExerciseStepApp) : Z :=
  if exerciseNumber a =? exerciseNumber b
  then stepNumber a - stepNumber b
  else exerciseNumber a - exerciseNumber b.

(** The comparator handed to [sort] in [getApps]. *)
Definition compareApps (a b : App) : Z :=
  if isPlaygroundApp a then
    if isPlaygroundApp b then localeCompare env (name (baseOf a)) (name (baseOf b))
    else 1
  else if isPlaygroundApp b then 1
  else if isExampleApp a then
    if isExampleApp b then localeCompare env (name (baseOf a)) (name (baseOf b))
    else 1
  else if isExampleApp b then -1
  else
    match a, b with
    | Problem pa, Problem pb => sameStepOrder (problemStep pa) (problemStep pb)
    | Solution sa, Solution sb => sameStepOrder (solutionStep sa) (solutionStep sb)
    | Problem pa, Solution sb =>
        let a := problemStep pa in
        let b := solutionStep sb in
        if exerciseNumber a =? exerciseNumber b
        then (if stepNumber a <=? stepNumber b then 1 else -1)
        else (if exerciseNumber a <=? exerciseNumber b then 1 else -1)
    | Solution sa, Problem pb =>
        let a := solutionStep sa in
        let b := problemStep pb in
        if exerciseNumber a =? exerciseNumber b
        then (if stepNumber a <? stepNumber b then -1 else 1)
        else (if exerciseNumber a <? exerciseNumber b then -1 else 1)
    | _, _ => 0
    end.

(** [[playgroundApp, ...problemApps, ...solutionApps, ...exampleApps]
    .filter(Boolean)] *)
Definition catalogEntries (playgroundApp : option PlaygroundApp)
    (problemApps : list ProblemApp) (solutionApps : list SolutionApp)
    (exampleApps : list ExampleApp) : list App :=
  match playgroundApp with Some app => [Playground app] | None => [] end
  ++ map Problem problemApps ++ map Solution solutionApps ++ map Example exampleApps.

(** [getFreshValue] of [getApps] *)
Definition getAppsFresh : result (list App) :=
  let* playgroundApp := getPlaygroundApp in
  let* problemApps := getProblemApps in
  let* solutionApps := getSolutionApps in
  let* exampleApps := getExampleApps in
  Returned (JSArray.sort compareApps
              (catalogEntries playgroundApp problemApps solutionApps exampleApps)).

End Builders.

End Apps.

(** ** Playground sync: what [setPlayground] does to the file system *)

Module Playground.

(** A path is the list of its segments: [["w"; "playground"]] stands for
    [/w/playground]. *)
Definition path : Type := list string.

Inductive node : Type :=
| Directory
| File (contents : string).

(** The entries of the file system, each under its absolute path. *)
Definition FileSystem : Type := list (path * node).

Definition path_eqb (p q : path) : bool := bool_decide (p = q).

Fixpoint isPrefix (dir p : path) : bool :=
  match dir, p with
  | [], _ => true
  | _ :: _, [] => false
  | d :: dir', s :: p' => String.eqb d s && isPrefix dir' p'
  end.

Definition pathString (p : path) : string := "/" +:+ JS.join "/" p.

Definition lookup (fs : FileSystem) (p : path) : option node :=
  option_map snd (find (fun e => path_eqb p (fst e)) fs).

(** [fsExtra.remove(p)]: the entry and all below it; a missing entry is
    no error. *)
Definition remove (p : path) (fs : FileSystem) : FileSystem :=
  List.filter (fun e => negb (isPrefix p (fst e))) fs.

Definition write (p : path) (n : node) (fs : FileSystem) : FileSystem :=
  (p, n) :: List.filter (fun e => negb (path_eqb p (fst e))) fs.

Definition mkdir (fs : FileSystem) (p : path) : FileSystem :=
  match lookup fs p with
  | Some _ => fs
  | None => (p, Directory) :: fs
  end.

Fixpoint prefixes (p : path) : list path :=
  match p with
  | [] => [[]]
  | s :: p' => [] :: map (cons s) (prefixes p')
  end.

(** [fsExtra.ensureDir(p)] *)
Definition ensureDir (p : path) (fs : FileSystem) : FileSystem :=
  fold_left mkdir (prefixes p) fs.

(** The negative pattern [!**/build/**/*]: something lies below a
    segment [build]. *)
Definition buildIgnored (p : path) : bool :=
  existsb (fun s => String.eqb s "build") (removelast p).

(** The characters that are syntax to the pattern matcher of [globby],
    and the backslash, which [getFiles] turns into a separator. *)
Definition globChars : list ascii :=
  ["*"; "?"; "["; "]"; "{"; "}"; "("; ")"; "!"; "+"; "@"; "|"; "\"]%char.

(** A path that stands for itself when it is spliced into a pattern. *)
Definition globLiteral (p : path) : bool :=
  forallb (Classifier.allChars (fun c => negb (existsb (Ascii.eqb c) globChars))) p.

(** [getFiles(dir)]: [dir] is spliced into the pattern [<dir>/**/*]
    handed to [globby].  For a [dir] that stands for itself this lists
    everything below [dir], files and directories, dot files too, each
    with the [dir] prefix taken off.  A [dir] with pattern syntax in it
    is read as a pattern; what is listed then is left to [listing]. *)
Definition getFiles (listing : FileSystem -> path -> list path) (fs : FileSystem)
    (dir : path) : list path :=
  if globLiteral dir then
    map (fun p => skipn (List.length dir) p)
      (List.filter (fun p => isPrefix dir p && negb (path_eqb p dir) && negb (buildIgnored p))
         (map fst fs))
  else listing fs dir.

(** [srcFiles.includes(fileName)] *)
Definition includesPath (files : list path) (fileName : path) : bool :=
  existsb (path_eqb fileName) files.

Section Sync.

(** [isGitIgnored({ cwd: srcDir })] *)
Variable isIgnored : path -> bool.

(** What [globby] lists for a directory whose path holds pattern
    syntax. *)
Variable listing : FileSystem -> path -> list path.

(** The [filter] option handed to [fsExtra.copy]. *)
Definition copyFilter (fs : FileSystem) (srcDir srcFile destFile : path) : bool :=
  let basename := List.last srcDir EmptyString in
  let s := pathString srcFile in
  if JS.includes s (basename +:+ "/build") || JS.includes s (basename +:+ "/public/build")
  then false
  else if path_eqb srcFile srcDir then true
  else if JS.includes s "node_modules" then true
  else if JS.endsWith s ".env" then true
  else if isIgnored srcFile then false
  else
    match lookup fs srcFile with
    | Some Directory => true
    | Some (File newContents) =>
        match lookup fs destFile with
        | Some Directory => true
        | Some (File currentContents) => negb (String.eqb currentContents newContents)
        | None => true
        end
    | None => true
    end.

(** One entry of the source tree: it is copied when the filter lets it
    and every directory above it through. *)
Definition copyEntry (before : FileSystem) (srcDir destDir : path)
    (acc : result FileSystem) (e : path * node) : result FileSystem :=
  let* fs := acc in
  if isPrefix srcDir (fst e) then
    let rel := skipn (List.length srcDir) (fst e) in
    if forallb (fun q => copyFilter before srcDir (srcDir ++ q) (destDir ++ q)) (prefixes rel)
    then
      match snd e, lookup fs (destDir ++ rel) with
      | Directory, Some (File _) => Thrown "Cannot overwrite non-directory with directory"
      | File _, Some Directory => Thrown "Cannot overwrite directory with non-directory"
      | Directory, Some Directory => Returned fs
      | n, _ => Returned (write (destDir ++ rel) n fs)
      end
    else Returned fs
  else Returned fs.

(** [fsExtra.copy(srcDir, destDir, { filter })] *)
Definition copy (fs : FileSystem) (srcDir destDir : path) : result FileSystem :=
  match lookup fs srcDir with
  | None => Thrown "ENOENT: no such file or directory"
  | Some _ =>
      fold_left (copyEntry fs srcDir destDir) fs
        (Returned (ensureDir (removelast destDir) fs))
  end.

(** The text [fsExtra.writeJSON] writes for [{ appName }], line feed
    included, for a name that needs no escaping. *)
Definition playgroundJson (appName : string) : string :=
  "{" +:+ Classifier.quote +:+ "appName" +:+ Classifier.quote +:+ ":" +:+
  Classifier.quote +:+ appName +:+ Classifier.quote +:+ "}" +:+ JS.chr (ascii_of_nat 10).

Definition playgroundAppNameInfoPath (workshopRoot : path) : path :=
  workshopRoot ++ ["node_modules"; ".cache"; "kcdshop"; "playground.json"]%string.

(** [fsExtra.writeJSON] *)
Definition writeJSON (p : path) (contents : string) (fs : FileSystem) : result FileSystem :=
  match lookup fs p with
  | Some Directory => Thrown "EISDIR: illegal operation on a directory"
  | _ => Returned (write p (File contents) fs)
  end.

(** The file-system steps of [setPlayground(srcDir, { reset })].
    [hasPlaygroundApp] tells whether [getAppByName('playground')] found
    an app.  The hook scripts and the dev process are other programs;
    they are taken to leave the trees alone. *)
Definition setPlayground (workshopRoot srcDir : path) (reset hasPlaygroundApp : bool)
    (fs : FileSystem) : result FileSystem :=
  let destDir := workshopRoot ++ ["playground"%string] in
  let fs := if hasPlaygroundApp && reset then remove destDir fs else fs in
  let fs := remove (destDir ++ ["node_modules"%string]) fs in
  let* fs := copy fs srcDir destDir in
  let srcFiles := getFiles listing fs srcDir in
  let destFiles := getFiles listing fs destDir in
  let filesToDelete :=
    List.filter (fun fileName => negb (includesPath srcFiles fileName)) destFiles in
  let fs :=
    fold_left (fun fs fileToDelete => remove (destDir ++ fileToDelete) fs)
      filesToDelete fs in
  let appName := Names.getAppName (pathString workshopRoot) (pathString srcDir) in
  let fs := ensureDir (removelast (playgroundAppNameInfoPath workshopRoot)) fs in
  writeJSON (playgroundAppNameInfoPath workshopRoot) (playgroundJson appName) fs.

End Sync.

End Playground.

(** *** The rules of the copy filter that look at the path only *)

Module PlaygroundRules.

Import Playground.


End PlaygroundRules.

(** ** File changes and the catalog-wide staleness rule *)

Module Tracker.

(** What [Math.max(...values)] gives: [-Infinity] for no value at all. *)
Inductive MaxTime : Type :=
| NegInfinity
| MaxOf (t : Z).

Definition maxStep (acc : MaxTime) (t : Z) : MaxTime :=
  match acc with
  | NegInfinity => MaxOf t
  | MaxOf m => MaxOf (Z.max m t)
  end.

Definition mathMax (values : list Z) : MaxTime := fold_left maxStep values NegInfinity.

(** [getForceFresh]: [-Infinity] is truthy and greater than no
    [createdTime]; [0] is falsy. *)
Definition getForceFresh {V : Type} (modifiedTimes : gmap string Z)
    (cacheEntry : option (Staleness.CacheEntry V)) : option bool :=
  match cacheEntry with
  | None => Some true
  | Some entry =>
      match mathMax (map snd (map_to_list modifiedTimes)) with
      | NegInfinity => None
      | MaxOf latestModifiedTime =>
          if latestModifiedTime =? 0 then None
          else if Staleness.createdTime (Staleness.metadata entry) <? latestModifiedTime
               then Some true
               else None
      end
  end.

(** [handleFileChanges] of [init], given the catalog [getApps] returned
    and the clock reading: the first app whose [fullPath] starts
    [filePath] is touched, and the loop stops there. *)
Fixpoint handleFileChanges (apps : list Apps.App) (filePath : string) (now : Z)
    (modifiedTimes : gmap string Z) : gmap string Z :=
  match apps with
  | [] => modifiedTimes
  | app :: rest =>
      if JS.startsWith filePath (Apps.fullPath (Apps.baseOf app))
      then <[Apps.fullPath (Apps.baseOf app) := now]> modifiedTimes
      else handleFileChanges rest filePath now modifiedTimes
  end.

End Tracker.

(** ** The cached catalog *)

Module CatalogCache.

Import Apps.

(** [getApps({ forceFresh })]: the [cachified] call around the fresh
    value, [entry] being what [appsCache] holds under the key [apps]. *)
Definition getApps (env : Env) (forceFresh : option bool)
    (entry : option (Staleness.CacheEntry (list App)))
  : result (Cache.Fetched (list App)) :=
  let forceFresh :=
    match forceFresh with
    | Some b => Some b
    | None => Tracker.getForceFresh (modifiedTimes env) entry
    end in
  Cache.cachified entry (now env) ttlDay 0 forceFresh (getAppsFresh env).

End CatalogCache.

(** ** Lookups in the catalog *)

Module Navigation.

Import Apps.

(** [ProblemApp | SolutionApp] *)
Definition ExerciseStepApp : Type := (ProblemApp + SolutionApp)%type.

Definition stepApp (app : ExerciseStepApp) : App :=
  match app with
  | inl p => Problem p
  | inr s => Solution s
  end.

Definition stepFields (app : ExerciseStepApp) : BaseExerciseStepApp :=
  match app with
  | inl p => problemStep p
  | inr s => solutionStep s
  end.

Definition stepType (app : ExerciseStepApp) : Classifier.StepType :=
  match app with
  | inl _ => Classifier.problem
  | inr _ => Classifier.solution
  end.

Definition stepName (app : ExerciseStepApp) : string := name (base (stepFields app)).

(** [apps.filter(isExerciseStepApp)] *)
Fixpoint exerciseStepApps (apps : list App) : list ExerciseStepApp :=
  match apps with
  | [] => []
  | Problem p :: rest => inl p :: exerciseStepApps rest
  | Solution s :: rest => inr s :: exerciseStepApps rest
  | _ :: rest => exerciseStepApps rest
  end.

(** [apps.find(a => a.name === name)] *)
Definition getAppByName (apps : list App) (appName : string) : option App :=
  find (fun a => String.eqb (name (baseOf a)) appName) apps.

(** [array.findIndex(f)], [None] standing for [-1]. *)
Fixpoint findIndex {A : Type} (f : A -> bool) (l : list A) : option nat :=
  match l with
  | [] => None
  | x :: rest => if f x then Some O else option_map S (findIndex f rest)
  end.

Definition couldNotFind (appName : string) : string := "Could not find app " +:+ appName.

Definition getNextExerciseApp (catalog : list App) (app : ExerciseStepApp)
  : result (option ExerciseStepApp) :=
  let apps := exerciseStepApps catalog in
  match findIndex (fun a => String.eqb (stepName a) (stepName app)) apps with
  | None => Thrown (couldNotFind (stepName app))
  | Some index => Returned (nth_error apps (S index))
  end.

(** [apps[index - 1]] is [undefined] at index 0. *)
Definition getPrevExerciseApp (catalog : list App) (app : ExerciseStepApp)
  : result (option ExerciseStepApp) :=
  let apps := exerciseStepApps catalog in
  match findIndex (fun a => String.eqb (stepName a) (stepName app)) apps with
  | None => Thrown (couldNotFind (stepName app))
  | Some O => Returned None
  | Some (S index) => Returned (nth_error apps index)
  end.

Definition getAppPageRoute (app : ExerciseStepApp) : string :=
  let exerciseNumber := JS.padStart0 2 (numberToString (exerciseNumber (stepFields app))) in
  let stepNumber := JS.padStart0 2 (numberToString (stepNumber (stepFields app))) in
  "/" +:+ exerciseNumber +:+ "/" +:+ stepNumber +:+ "/"
  +:+ Classifier.typeName (stepType app).

(** [getStepId] of the exercise route, in integer arithmetic: what the
    runtime computes as long as the result stays below [2^53]. *)
Definition getStepId (app : ExerciseStepApp) : Z :=
  exerciseNumber (stepFields app) * 1000 + stepNumber (stepFields app) * 10
  + match stepType app with Classifier.problem => 0 | Classifier.solution => 1 end.

End Navigation.

(** ** Exercises *)

Module Exercises.

Import Apps.

(** An element of [steps]: [{ stepNumber, problem?, solution? }]. *)
Record Step : Type := {
  stepNumberOf : Z;
  problemOf : option ProblemApp;
  solutionOf : option SolutionApp
}.

Record Exercise : Type := {
  exerciseNumberOf : Classifier.JSNumber;
  exerciseDirName : string;
  exerciseTitle : string;
  exerciseInstructionsCode : option string;
  finishedCode : option string;
  instructionsEpicVideoEmbeds : option (list string);
  finishedEpicVideoEmbeds : option (list string);
  (** the array [steps], which may have holes: index to element *)
  steps : gmap Z Step;
  problems : list ProblemApp;
  solutions : list SolutionApp
}.

(** [app.exerciseNumber === exerciseNumber] *)
Definition sameExercise (exerciseNumber : Classifier.JSNumber) (fields : BaseExerciseStepApp)
  : bool :=
  match exerciseNumber with
  | Classifier.Finite n => Apps.exerciseNumber fields =? n
  | Classifier.Infinity => false
  end.

(** [steps[app.stepNumber - 1] = { ...steps[app.stepNumber - 1],
    [app.type]: app, stepNumber: app.stepNumber }], with the index in
    integer arithmetic: the index of the runtime for a step number
    below [2^53]. *)
Definition putStep (steps : gmap Z Step) (app : Navigation.ExerciseStepApp) : gmap Z Step :=
  let index := Apps.stepNumber (Navigation.stepFields app) - 1 in
  let previous := steps !! index in
  let step :=
    match app with
    | inl p =>
        {| stepNumberOf := Apps.stepNumber (problemStep p);
           problemOf := Some p;
           solutionOf := match previous with Some s => solutionOf s | None => None end |}
    | inr s =>
        {| stepNumberOf := Apps.stepNumber (solutionStep s);
           problemOf := match previous with Some st => problemOf st | None => None end;
           solutionOf := Some s |}
    end in
  <[index := step]> steps.

Definition stepsOf (exerciseApps : list Navigation.ExerciseStepApp) : gmap Z Step :=
  fold_left putStep exerciseApps ∅.

Fixpoint problemsOf (apps : list App) : list ProblemApp :=
  match apps with
  | [] => []
  | Problem p :: rest => p :: problemsOf rest
  | _ :: rest => problemsOf rest
  end.

Fixpoint solutionsOf (apps : list App) : list SolutionApp :=
  match apps with
  | [] => []
  | Solution s :: rest => s :: solutionsOf rest
  | _ :: rest => solutionsOf rest
  end.

(** [path.join(...parts)]: the non-empty parts, joined by the separator
    and normalized. *)
Definition pathJoin (parts : list string) : string :=
  match List.filter (fun part => negb (String.eqb part "")) parts with
  | [] => "."
  | nonEmpty => Path.normalize (JS.join Path.sep nonEmpty)
  end.

Section WithEnv.

Variable env : Env.

(** [readDir]: no directory, no entries. *)
Definition readDir (dir : string) : result (list string) :=
  if fileExists env dir then readdir env dir else Returned [].

Definition buildExercise (apps : list App) (dirName : string)
    (exerciseNumber : Classifier.JSNumber) : result Exercise :=
  let root := workshopRoot env in
  let* compiledReadme :=
    compileMdxIfExists env (pathJoin [root; "exercises"; dirName; "README.mdx"]) in
  let* compiledFinished :=
    compileMdxIfExists env (pathJoin [root; "exercises"; dirName; "FINISHED.mdx"]) in
  let exerciseApps :=
    List.filter (fun app => sameExercise exerciseNumber (Navigation.stepFields app))
      (Navigation.exerciseStepApps apps) in
  Returned
    {| exerciseNumberOf := exerciseNumber;
       exerciseDirName := dirName;
       exerciseInstructionsCode := option_map code compiledReadme;
       finishedCode := option_map code compiledFinished;
       exerciseTitle := titleOf compiledReadme dirName;
       instructionsEpicVideoEmbeds :=
         match compiledReadme with Some c => mdxEpicVideoEmbeds c | None => None end;
       finishedEpicVideoEmbeds :=
         match compiledFinished with Some c => mdxEpicVideoEmbeds c | None => None end;
       steps := stepsOf exerciseApps;
       problems :=
         List.filter (fun p => sameExercise exerciseNumber (problemStep p)) (problemsOf apps);
       solutions :=
         List.filter (fun s => sameExercise exerciseNumber (solutionStep s))
           (solutionsOf apps) |}.

Fixpoint exercisesLoop (apps : list App) (exerciseDirs : list string)
    (exercises : list Exercise) : result (list Exercise) :=
  match exerciseDirs with
  | [] => Returned exercises
  | dirName :: rest =>
      match Classifier.extractExerciseNumber dirName with
      | None | Some (Classifier.Finite 0) => exercisesLoop apps rest exercises
      | Some exerciseNumber =>
          let* exercise := buildExercise apps dirName exerciseNumber in
          exercisesLoop apps rest (exercises ++ [exercise])
      end
  end.

(** [getExercises], [apps] being what [getApps] returned. *)
Definition getExercises (apps : list App) : result (list Exercise) :=
  let* exerciseDirs := readDir (Path.join (workshopRoot env) "exercises") in
  exercisesLoop apps exerciseDirs [].

End WithEnv.

End Exercises.

(** ** Presence *)

Module Presence.

Section Users.

(** The users, of whom only the [id] is looked at. *)
Variable User : Type.
Variable id : User -> string.

Fixpoint uniqueFrom (seen : gset string) (users : list User) : list User :=
  match users with
  | [] => []
  | user :: rest =>
      if bool_decide (id user ∈ seen) then uniqueFrom seen rest
      else user :: uniqueFrom ({[id user]} ∪ seen) rest
  end.

(** [uniqueUsers]: [seen] starts empty. *)
Definition uniqueUsers (users : list User) : list User := uniqueFrom ∅ users.

End Users.

End Presence.

(** ** The order of the catalog *)

Module SortOrder.
Section Agreement.
Context {A : Type}.
Variable comparefn : A -> A -> Z.
Variable le : A -> A -> Prop.

(** The comparator, called with the later element first, puts the two
    in the order of [le]. *)
Definition agrees (earlier later : A) : Prop :=
  (comparefn later earlier < 0 -> le later earlier)
  /\ (0 <= comparefn later earlier -> le earlier later).
End Agreement.
End SortOrder.

Module CatalogOrder.

Import Apps.

(** Where the apps of a type stand in the array [getApps] sorts. *)
Definition inputRank (app : App) : nat :=
  match app with
  | Playground _ => 0
  | Problem _ => 1
  | Solution _ => 2
  | Example _ => 3
  end.

(** By exercise number, then step number, then [typeA] before [typeB]. *)
Definition stepLe (a b : BaseExerciseStepApp) (typeA typeB : Z) : Prop :=
  exerciseNumber a < exerciseNumber b
  \/ (exerciseNumber a = exerciseNumber b
      /\ (stepNumber a < stepNumber b
          \/ (stepNumber a = stepNumber b /\ typeA <= typeB))).

(** The order of the catalog: the playground, then the steps by exercise
    number, step number and problem before solution, then the examples
    by [localeCompare] of their names. *)
Definition appLe (env : Env) (a b : App) : Prop :=
  match a, b with
  | Playground _, _ => True
  | _, Playground _ => False
  | Example x, Example y =>
      localeCompare env (name (exampleBase x)) (name (exampleBase y)) <= 0
  | Example _, _ => False
  | _, Example _ => True
  | Problem p, Problem q => stepLe (problemStep p) (problemStep q) 0 0
  | Problem p, Solution s => stepLe (problemStep p) (solutionStep s) 0 1
  | Solution s, Problem p => stepLe (solutionStep s) (problemStep p) 1 0
  | Solution s, Solution t => stepLe (solutionStep s) (solutionStep t) 1 1
  end.

End CatalogOrder.

(** ** A sample workshop

    The inputs at which the properties below are exercised. *)

Module Sample.

Import Apps.

Definition staleEntry : Staleness.CacheEntry string :=
  {| Staleness.value := "cached";
     Staleness.metadata :=
       {| Staleness.createdTime := 100; Staleness.ttl := 86400000; Staleness.swr := 0 |} |}.

Fixpoint assoc {A : Type} (table : list (string * A)) (default : A) (key : string) : A :=
  match table with
  | [] => default
  | (k, v) :: rest => if String.eqb k key then v else assoc rest default key
  end.

(** Order by character code: a stand-in for [localeCompare], with which
    it agrees on lower-case ASCII letters and digits. *)
Definition codeOrder (a b : string) : Z :=
  match String.compare a b with
  | Lt => -1
  | Eq => 0
  | Gt => 1
  end.

Definition appFiles : result (list string) := Returned ["README.mdx"; "index.tsx"]%string.

(** The workshop [/w]: exercise [01.intro] with a step [00] (no valid
    step number), a step [01] whose directories carry a subtitle and a
    plain step [02]; exercise [02.next] with a step [01] whose
    [package.json] cannot be read and a step [11]; exercise [03.more]
    with a step [01]; two examples; a playground made from step [02]. *)
Definition workshop : Env :=
  {| workshopRoot := "/w";
     now := 1700000000000;
     modifiedTimes := ∅;
     fileExists := fun p =>
       existsb (String.eqb p)
         [ "/w/playground";
           "/w/exercises/02.next/01.problem/package.json";
           "/w/exercises/02.next/11.problem/package.json";
           "/w/exercises/03.more/01.problem/package.json";
           "/w/exercises/01.intro/02.problem/README.mdx" ]%string;
     readdir :=
       assoc
         [ ("/w/exercises/01.intro",
            Returned ["00.problem"; "01.problem.extra"; "01.solution.extra";
                      "02.problem"; "02.solution"]%string);
           ("/w/exercises/02.next", Returned ["01.problem"; "11.problem"]%string);
           ("/w/exercises/03.more", Returned ["01.problem"]%string);
           ("/w/exercises/01.intro/00.problem", appFiles);
           ("/w/exercises/01.intro/01.problem.extra", appFiles);
           ("/w/exercises/01.intro/01.solution.extra",
            Returned ["README.mdx"; "index.tsx"; "index.test.ts"]%string);
           ("/w/exercises/01.intro/02.problem", appFiles);
           ("/w/exercises/01.intro/02.solution", appFiles);
           ("/w/exercises/02.next/01.problem", appFiles);
           ("/w/exercises/02.next/11.problem", appFiles);
           ("/w/exercises/03.more/01.problem", appFiles);
           ("/w/examples/a", appFiles);
           ("/w/examples/b", appFiles);
           ("/w/playground", appFiles) ]%string
         (Thrown "ENOENT: no such file or directory, scandir");
     compileMdx := fun _ =>
       Returned {| code := "compiled"; mdxTitle := Some "Plain step"%string;
                   mdxEpicVideoEmbeds := None |};
     getPkgProp := fun dir prop =>
       if String.eqb dir "/w/exercises/02.next/01.problem"
       then Thrown "Unexpected end of JSON input"
       else if String.eqb prop "scripts.dev" then Returned "remix dev"%string
       else Returned EmptyString;
     glob := fun pattern cwd =>
       assoc
         [ ("**/*problem*",
            ["01.intro/00.problem"; "01.intro/01.problem.extra"; "01.intro/02.problem";
             "02.next/01.problem"; "02.next/11.problem"; "03.more/01.problem"]%string);
           ("**/*solution*", ["01.intro/01.solution.extra"; "01.intro/02.solution"]%string);
           ("*", ["b"; "a"]%string) ]%string
         [] pattern;
     playgroundAppName := Some "exercises__sep__01.intro__sep__02.problem"%string;
     localeCompare := codeOrder;
     playgroundAppCache := ∅;
     problemAppCache := ∅;
     solutionAppCache := ∅;
     exampleAppCache := ∅ |}.

Definition sampleBase (name : string) : BaseApp :=
  {| name := name;
     title := name;
     dirName := name;
     fullPath := "/w/" +:+ name;
     relativePath := name;
     instructionsCode := None;
     epicVideoEmbeds := None;
     test := TestNone;
     dev := DevBrowser ("/app/" +:+ name +:+ "/") |}.

Definition problemApp (exerciseNumber stepNumber : Z) : App :=
  Problem {| problemStep := {| base := sampleBase "problem";
                               exerciseNumber := exerciseNumber;
                               stepNumber := stepNumber |};
             solutionName := None |}.

Definition solutionApp (exerciseNumber stepNumber : Z) : App :=
  Solution {| solutionStep := {| base := sampleBase "solution";
                                 exerciseNumber := exerciseNumber;
                                 stepNumber := stepNumber |};
              problemName := None |}.

Definition exampleApp (name : string) : App :=
  Example {| exampleBase := sampleBase name |}.

Definition playgroundApp : App :=
  Playground {| playgroundBase := sampleBase "playground"; appName := "problem" |}.

(** A workshop tree: the app [01.problem] with a build output, and a
    playground that holds an older [index.js], a file [stale.txt] the app
    does not have, and a build output of its own. *)
Definition tree : Playground.FileSystem :=
  [ (["w"], Playground.Directory);
    (["w"; "exercises"], Playground.Directory);
    (["w"; "exercises"; "01.intro"], Playground.Directory);
    (["w"; "exercises"; "01.intro"; "01.problem"], Playground.Directory);
    (["w"; "exercises"; "01.intro"; "01.problem"; "index.js"], Playground.File "new");
    (["w"; "exercises"; "01.intro"; "01.problem"; "build"], Playground.Directory);
    (["w"; "exercises"; "01.intro"; "01.problem"; "build"; "out.js"], Playground.File "o");
    (["w"; "playground"], Playground.Directory);
    (["w"; "playground"; "index.js"], Playground.File "old");
    (["w"; "playground"; "stale.txt"], Playground.File "x");
    (["w"; "playground"; "build"], Playground.Directory);
    (["w"; "playground"; "build"; "keep.js"], Playground.File "k") ]%string.



(** The catalog example of the specification, and the order it expects. *)
Definition catalogExample : list App :=
  [solutionApp 1 2; problemApp 1 1; exampleApp "b"; exampleApp "a"; playgroundApp].

Definition catalogExpected : list App :=
  [problemApp 1 1; solutionApp 1 2; exampleApp "a"; exampleApp "b"; playgroundApp].

End Sample.

(** ** A sample workshop with its exercises directory

    The workshop of [Sample] with its [exercises] directory listed: two
    exercises, a file and a directory numbered [00] beside them. *)

Module SampleExercises.

Import Apps.

Definition workshop : Env :=
  {| workshopRoot := workshopRoot Sample.workshop;
     now := now Sample.workshop;
     modifiedTimes := modifiedTimes Sample.workshop;
     fileExists := fun p =>
       String.eqb p "/w/exercises" || String.eqb p "/w/exercises/01.intro/README.mdx"
       || fileExists Sample.workshop p;
     readdir := fun dir =>
       if String.eqb dir "/w/exercises"
       then Returned ["00.draft"; "01.intro"; "02.next"; "README.mdx"]%string
       else readdir Sample.workshop dir;
     compileMdx := compileMdx Sample.workshop;
     getPkgProp := getPkgProp Sample.workshop;
     glob := glob Sample.workshop;
     playgroundAppName := playgroundAppName Sample.workshop;
     localeCompare := localeCompare Sample.workshop;
     playgroundAppCache := ∅;
     problemAppCache := ∅;
     solutionAppCache := ∅;
     exampleAppCache := ∅ |}.

(** The catalog [getApps] computes for it. *)
Definition catalog : list App :=
  match getAppsFresh workshop with
  | Returned apps => apps
  | _ => []
  end.

(** The same workshop after the watcher saw [index.tsx] of step [02]
    change, and the catalog as the cache held it from before. *)
Definition changedFile : string := "/w/exercises/01.intro/02.problem/index.tsx".

Definition touched : Env :=
  {| workshopRoot := workshopRoot workshop;
     now := 1700000000900;
     modifiedTimes := Tracker.handleFileChanges catalog changedFile 1700000000500 ∅;
     fileExists := fileExists workshop;
     readdir := readdir workshop;
     compileMdx := compileMdx workshop;
     getPkgProp := getPkgProp workshop;
     glob := glob workshop;
     playgroundAppName := playgroundAppName workshop;
     localeCompare := localeCompare workshop;
     playgroundAppCache := ∅;
     problemAppCache := ∅;
     solutionAppCache := ∅;
     exampleAppCache := ∅ |}.

Definition cachedCatalog : Staleness.CacheEntry (list App) :=
  {| Staleness.value := catalog;
     Staleness.metadata :=
       {| Staleness.createdTime := 1700000000000;
          Staleness.ttl := ttlDay;
          Staleness.swr := 0 |} |}.

End SampleExercises.

(** ** A sample workshop with two variants of a step

    The workshop of [Sample] with one exercise whose step [01] has two
    problem directories that differ in their subtitle and a solution,
    each with a dev script of its own. *)

Module SampleVariants.

Import Apps.

Definition workshop : Env :=
  {| workshopRoot := workshopRoot Sample.workshop;
     now := now Sample.workshop;
     modifiedTimes := modifiedTimes Sample.workshop;
     fileExists := fun p =>
       existsb (String.eqb p)
         [ "/w/exercises/01.intro/01.problem.a/package.json";
           "/w/exercises/01.intro/01.problem.b/package.json";
           "/w/exercises/01.intro/01.solution/package.json" ]%string;
     readdir :=
       Sample.assoc
         [ ("/w/exercises/01.intro",
            Returned ["01.problem.a"; "01.problem.b"; "01.solution"]%string);
           ("/w/exercises/01.intro/01.problem.a", Sample.appFiles);
           ("/w/exercises/01.intro/01.problem.b", Sample.appFiles);
           ("/w/exercises/01.intro/01.solution", Sample.appFiles) ]%string
         (Thrown "ENOENT: no such file or directory, scandir");
     compileMdx := compileMdx Sample.workshop;
     getPkgProp := getPkgProp Sample.workshop;
     glob := fun pattern cwd =>
       Sample.assoc
         [ ("**/*problem*", ["01.intro/01.problem.a"; "01.intro/01.problem.b"]%string);
           ("**/*solution*", ["01.intro/01.solution"]%string) ]
         [] pattern;
     playgroundAppName := None;
     localeCompare := localeCompare Sample.workshop;
     playgroundAppCache := ∅;
     problemAppCache := ∅;
     solutionAppCache := ∅;
     exampleAppCache := ∅ |}.

End SampleVariants.

(** ** A sample workshop with a warm cache

    The workshop of [Sample] after an earlier scan and an edit: the
    cache holds an app for step [01] of [02.next], built when its
    [package.json] could still be read, and [null] for step [11] and for
    the playground; the three directories were touched since. *)

Module SampleWarm.

Import Apps.

Definition earlier {A : Type} (v : option A) : Staleness.CacheEntry (option A) :=
  {| Staleness.value := v;
     Staleness.metadata :=
       {| Staleness.createdTime := 1699999999000;
          Staleness.ttl := ttlDay;
          Staleness.swr := 0 |} |}.

Definition cachedApp : ProblemApp :=
  {| problemStep :=
       {| base := Sample.sampleBase "exercises__sep__02.next__sep__01.problem";
          exerciseNumber := 2;
          stepNumber := 1 |};
     solutionName := None |}.

Definition workshop : Env :=
  {| workshopRoot := workshopRoot Sample.workshop;
     now := now Sample.workshop;
     modifiedTimes :=
       <["/w/exercises/02.next/01.problem"%string := 1699999999500]>
         (<["/w/exercises/02.next/11.problem"%string := 1699999999500]>
            (<["/w/playground"%string := 1699999999500]> ∅));
     fileExists := fileExists Sample.workshop;
     readdir := readdir Sample.workshop;
     compileMdx := compileMdx Sample.workshop;
     getPkgProp := getPkgProp Sample.workshop;
     glob := glob Sample.workshop;
     playgroundAppName := playgroundAppName Sample.workshop;
     localeCompare := localeCompare Sample.workshop;
     playgroundAppCache :=
       <["playground-exercises__sep__01.intro__sep__02.problem"%string := earlier None]> ∅;
     problemAppCache :=
       <["/w/exercises/02.next/01.problem"%string := earlier (Some cachedApp)]>
         (<["/w/exercises/02.next/11.problem"%string := earlier None]> ∅);
     solutionAppCache := ∅;
     exampleAppCache := ∅ |}.

End SampleWarm.

(** * Properties *)

#[local] Arguments String.append !s1 s2.

(** ** The runtime primitives, at a few inputs *)

Example path_examples :
  Path.basename "/w/exercises/01.intro/01.problem" = "01.problem"%string
  /\ Path.basename "/w/playground/" = "playground"%string
  /\ Path.dirname "/w/exercises/01.intro/01.problem" = "/w/exercises/01.intro"%string
  /\ Path.dirname "/w" = "/"%string
  /\ Path.join "/w" "exercises/../a//b/./c" = "/w/a/b/c"%string
  /\ Path.join "/w/" "playground" = "/w/playground"%string
  /\ Path.normalize "a/../.." = ".."%string.
Proof. repeat split. Qed.

Example string_examples :
  JS.split Path.sepChar "/a//b/" = [""; "a"; ""; "b"; ""]%string
  /\ JS.replace "xx/w/yy/w/" "/w/" "" = "xxyy/w/"%string
  /\ JS.replaceAll "a__sep____sep__b___sep__" "__sep__" "/" = "a//b_/"%string
  /\ JS.endsWith "01.problem" "problem" = true
  /\ JS.endsWith "01.problem.extra" "problem" = false
  /\ JS.padStart0 2 "7" = "07"%string
  /\ JS.padStart0 2 "123" = "123"%string.
Proof. repeat split. Qed.

Example number_examples :
  Classifier.Number "0012" = Classifier.Finite 12
  /\ Classifier.Number "9007199254740993" = Classifier.Finite 9007199254740992
  /\ Classifier.Number "9007199254740995" = Classifier.Finite 9007199254740996
  /\ Classifier.roundToDouble (2 ^ 1024 - 2 ^ 970 - 1) = Classifier.Finite (2 ^ 1024 - 2 ^ 971)
  /\ Classifier.roundToDouble (2 ^ 1024 - 2 ^ 970) = Classifier.Infinity.
Proof. repeat split; vm_compute; reflexivity. Qed.

Example sort_examples :
  JSArray.sort Z.sub [3; 1; 2] = [1; 2; 3]
  /\ JSArray.sort Z.sub [5; 4; 3; 9; 1] = [1; 3; 4; 5; 9]
  /\ JSArray.sort (fun _ _ => 1) [3; 1; 2] = [3; 1; 2]
  /\ JSArray.sort (fun _ _ => -1) [3; 1; 2] = [2; 1; 3].
Proof. repeat split. Qed.

(** ** Staleness tracker *)

Section StalenessFacts.

Import Staleness.

Context {V : Type}.
Variable modifiedTimes : gmap string Z.

Lemma getForceFreshForDir_absent (dir : string) :
  Path.isAbsolute dir = true ->
  getForceFreshForDir modifiedTimes dir (@None (CacheEntry V)) = Returned (Some true).
Proof.
  intros Habs. unfold getForceFreshForDir. rewrite Habs. reflexivity.
Qed.

Lemma getForceFreshForDir_untouched (dir : string) (e : CacheEntry V) :
  Path.isAbsolute dir = true ->
  modifiedTimes !! dir = None ->
  getForceFreshForDir modifiedTimes dir (Some e) = Returned None.
Proof.
  intros Habs Hnone. unfold getForceFreshForDir. rewrite Habs, Hnone. reflexivity.
Qed.

Lemma getForceFreshForDir_newer (dir : string) (e : CacheEntry V) (t : Z) :
  Path.isAbsolute dir = true ->
  0 <= createdTime (metadata e) ->
  modifiedTimes !! dir = Some t ->
  createdTime (metadata e) < t ->
  getForceFreshForDir modifiedTimes dir (Some e) = Returned (Some true).
Proof.
  intros Habs Hpos Hsome Hlt. unfold getForceFreshForDir. rewrite Habs, Hsome. simpl.
  destruct (Z.eqb_spec t 0) as [-> | _]; [lia |].
  destruct (Z.ltb_spec (createdTime (metadata e)) t); [reflexivity | lia].
Qed.

Lemma getForceFreshForDir_not_newer (dir : string) (e : CacheEntry V) (t : Z) :
  Path.isAbsolute dir = true ->
  modifiedTimes !! dir = Some t ->
  t <= createdTime (metadata e) ->
  getForceFreshForDir modifiedTimes dir (Some e) = Returned None.
Proof.
  intros Habs Hsome Hle. unfold getForceFreshForDir. rewrite Habs, Hsome. simpl.
  destruct (t =? 0); [reflexivity |].
  destruct (Z.ltb_spec (createdTime (metadata e)) t); [lia | reflexivity].
Qed.

End StalenessFacts.

Lemma cachified_forced {V : Type} (entry : option (Staleness.CacheEntry V))
    (now ttl swr : Z) (getFreshValue : result V) :
  Cache.cachified entry now ttl swr (Some true) getFreshValue
  = Cache.computeFresh now ttl swr getFreshValue.
Proof. reflexivity. Qed.

(** C3.  For an absolute [dir] and a cache entry [e] stamped with a clock
    reading (a non-negative number of milliseconds): without an entry
    [getForceFreshForDir] answers [true]; with [e] it answers [true] when
    the staleness map holds a time for [dir] strictly greater than
    [createdTime], and [undefined] when [dir] was never recorded or its
    time is not greater.  Hence once [setModifiedTimesForDir dir] has
    stored a reading newer than [createdTime], the next cached fetch of
    the key is forced: it runs the compute and returns its value, stored
    afresh, not the cached one. *)
Theorem getForceFreshForDir_staleness :
  forall (V : Type) (modifiedTimes : gmap string Z) (dir : string)
         (e : Staleness.CacheEntry V),
    Path.isAbsolute dir = true ->
    0 <= Staleness.createdTime (Staleness.metadata e) ->
    Staleness.getForceFreshForDir modifiedTimes dir (@None (Staleness.CacheEntry V))
      = Returned (Some true)
    /\ (forall t, modifiedTimes !! dir = Some t ->
          Staleness.createdTime (Staleness.metadata e) < t ->
          Staleness.getForceFreshForDir modifiedTimes dir (Some e) = Returned (Some true))
    /\ (modifiedTimes !! dir = None ->
          Staleness.getForceFreshForDir modifiedTimes dir (Some e) = Returned None)
    /\ (forall t, modifiedTimes !! dir = Some t ->
          t <= Staleness.createdTime (Staleness.metadata e) ->
          Staleness.getForceFreshForDir modifiedTimes dir (Some e) = Returned None)
    /\ (forall touched now ttl swr (v : V),
          Staleness.createdTime (Staleness.metadata e) < touched ->
          let modifiedTimes' := Staleness.setModifiedTimesForDir dir touched modifiedTimes in
          exists forceFresh,
            Staleness.getForceFreshForDir modifiedTimes' dir (Some e) = Returned forceFresh
            /\ Cache.cachified (Some e) now ttl swr forceFresh (Returned v)
               = Returned (Cache.Fresh v
                   {| Staleness.value := v;
                      Staleness.metadata :=
                        {| Staleness.createdTime := now;
                           Staleness.ttl := ttl;
                           Staleness.swr := swr |} |})).
Proof.
  intros V modifiedTimes dir e Habs Hpos.
  split; [apply getForceFreshForDir_absent; exact Habs |].
  split; [intros t Ht Hlt; eapply getForceFreshForDir_newer; eauto |].
  split; [apply getForceFreshForDir_untouched; exact Habs |].
  split; [intros t Ht Hle; eapply getForceFreshForDir_not_newer; eauto |].
  intros touched now ttl swr v Hlt modifiedTimes'.
  exists (Some true). split.
  - eapply getForceFreshForDir_newer; eauto.
    unfold modifiedTimes', Staleness.setModifiedTimesForDir. apply lookup_insert_eq.
  - reflexivity.
Qed.

Lemma getForceFreshForDir_staleness_witness :
  Staleness.getForceFreshForDir (∅ : gmap string Z) "/w/playground"
    (@None (Staleness.CacheEntry string)) = Returned (Some true)
  /\ exists forceFresh,
       Staleness.getForceFreshForDir
         (Staleness.setModifiedTimesForDir "/w/playground" 150 ∅) "/w/playground"
         (Some Sample.staleEntry) = Returned forceFresh
       /\ Cache.cachified (Some Sample.staleEntry) 200 86400000 0 forceFresh (Returned "fresh"%string)
          = Returned (Cache.Fresh "fresh"%string
              {| Staleness.value := "fresh"%string;
                 Staleness.metadata :=
                   {| Staleness.createdTime := 200;
                      Staleness.ttl := 86400000;
                      Staleness.swr := 0 |} |}).
Proof.
  assert (Habs : Path.isAbsolute "/w/playground" = true) by reflexivity.
  assert (Hpos : 0 <= Staleness.createdTime (Staleness.metadata Sample.staleEntry))
    by (simpl; lia).
  destruct (getForceFreshForDir_staleness string ∅ "/w/playground" Sample.staleEntry Habs Hpos)
    as (Habsent & _ & _ & _ & Hnext).
  split; [exact Habsent |].
  apply (Hnext 150 200 86400000 0 "fresh"%string). simpl. lia.
Defined.

Lemma absolute_dir_answers {V : Type} (modifiedTimes : gmap string Z)
    (dir : string) (cacheEntry : option (Staleness.CacheEntry V)) :
  Path.isAbsolute dir = true ->
  exists answer,
    Staleness.getForceFreshForDir modifiedTimes dir cacheEntry = Returned answer.
Proof.
  unfold Staleness.getForceFreshForDir. intros ->. simpl.
  destruct cacheEntry as [e |]; [| eauto].
  destruct (modifiedTimes !! dir) as [t |]; [| eauto].
  destruct (t =? 0); [eauto |].
  destruct (Staleness.createdTime (Staleness.metadata e) <? t); eauto.
Qed.

(** C10.  [getForceFreshForDir] throws for every [dir] that is not an
    absolute path, whatever the cache entry and the staleness map hold;
    for an absolute [dir] it never throws and returns. *)
Theorem getForceFreshForDir_requires_absolute :
  forall (V : Type) (modifiedTimes : gmap string Z) (dir : string)
         (cacheEntry : option (Staleness.CacheEntry V)),
    (Path.isAbsolute dir = false ->
       Staleness.getForceFreshForDir modifiedTimes dir cacheEntry
       = Thrown (Staleness.nonAbsoluteMessage dir))
    /\ (Path.isAbsolute dir = true ->
          exists answer,
            Staleness.getForceFreshForDir modifiedTimes dir cacheEntry = Returned answer).
Proof.
  intros V modifiedTimes dir cacheEntry. unfold Staleness.getForceFreshForDir. split.
  - intros ->. reflexivity.
  - intros Habs. unfold Staleness.getForceFreshForDir in *.
    exact (absolute_dir_answers modifiedTimes dir cacheEntry Habs).
Qed.

Lemma getForceFreshForDir_requires_absolute_witness :
  Staleness.getForceFreshForDir (∅ : gmap string Z) "exercises/01.a" (Some Sample.staleEntry)
  = Thrown (Staleness.nonAbsoluteMessage "exercises/01.a")
  /\ exists answer,
       Staleness.getForceFreshForDir (∅ : gmap string Z) "/w/exercises/01.a" (Some Sample.staleEntry)
       = Returned answer.
Proof.
  split.
  - apply (getForceFreshForDir_requires_absolute string ∅ "exercises/01.a" (Some Sample.staleEntry)).
    reflexivity.
  - apply (getForceFreshForDir_requires_absolute string ∅ "/w/exercises/01.a" (Some Sample.staleEntry)).
    reflexivity.
Defined.

(** ** Directory classifier *)

Section StringFacts.

Lemma append_assoc (a b c : string) : (a +:+ b) +:+ c = a +:+ (b +:+ c).
Proof. induction a as [| x a IH]; simpl; [reflexivity | now rewrite IH]. Qed.

Lemma append_empty_r (a : string) : a +:+ "" = a.
Proof. induction a as [| x a IH]; simpl; [reflexivity | now rewrite IH]. Qed.

Lemma length_append (a b : string) :
  String.length (a +:+ b) = (String.length a + String.length b)%nat.
Proof. induction a as [| x a IH]; simpl; [reflexivity | now rewrite IH]. Qed.

Lemma takeWhile_dropWhile (f : ascii -> bool) (s : string) :
  s = Path.takeWhile f s +:+ Path.dropWhile f s.
Proof.
  induction s as [| c s IH]; simpl; [reflexivity |].
  destruct (f c); simpl; [now rewrite <- IH | reflexivity].
Qed.

Lemma allChars_takeWhile (f : ascii -> bool) (s : string) :
  Classifier.allChars f (Path.takeWhile f s) = true.
Proof.
  induction s as [| c s IH]; simpl; [reflexivity |].
  destruct (f c) eqn:E; simpl; [now rewrite E | reflexivity].
Qed.

Lemma takeWhile_stop (f : ascii -> bool) (a : string) (c : ascii) (rest : string) :
  Classifier.allChars f a = true -> f c = false ->
  Path.takeWhile f (a +:+ String c rest) = a
  /\ Path.dropWhile f (a +:+ String c rest) = String c rest.
Proof.
  intros Ha Hc. induction a as [| x a IH]; simpl in *.
  - now rewrite Hc.
  - apply andb_true_iff in Ha as [Hx Ha]. rewrite Hx.
    destruct (IH Ha) as [-> ->]. split; reflexivity.
Qed.

Lemma startsWith_append (p s : string) : JS.startsWith (p +:+ s) p = true.
Proof.
  induction p as [| c p IH]; simpl; [reflexivity |].
  now rewrite Ascii.eqb_refl, IH.
Qed.

Lemma drop_append (p s : string) : JS.drop (String.length p) (p +:+ s) = s.
Proof. induction p as [| c p IH]; simpl; [reflexivity | exact IH]. Qed.

Lemma startsWith_split (s p : string) :
  JS.startsWith s p = true -> s = p +:+ JS.drop (String.length p) s.
Proof.
  revert s. induction p as [| c p IH]; intros s H; simpl in *; [reflexivity |].
  destruct s as [| d s]; [discriminate |].
  apply andb_true_iff in H as [Hc Hp]. apply Ascii.eqb_eq in Hc. subst d.
  simpl. now rewrite <- (IH s Hp).
Qed.

End StringFacts.

Section ClassifierFacts.

Import Classifier.

Lemma matchType_sound (s : string) (t : StepType) (rest : string) :
  matchType s = Some (t, rest) -> s = typeName t +:+ rest.
Proof.
  unfold matchType. intros H.
  destruct (JS.startsWith s "problem") eqn:Ep.
  - injection H as <- <-. exact (startsWith_split s "problem" Ep).
  - destruct (JS.startsWith s "solution") eqn:Es; [| discriminate].
    injection H as <- <-. exact (startsWith_split s "solution" Es).
Qed.

Lemma matchType_complete (t : StepType) (rest : string) :
  matchType (typeName t +:+ rest) = Some (t, rest).
Proof. destruct t; reflexivity. Qed.

Lemma matchSubtitle_sound (rest : string) (sub : option string) :
  matchSubtitle rest = Some sub ->
  rest = suffixOf sub
  /\ match sub with
     | Some s => allChars (fun c => negb (isLineTerminator c)) s = true
     | None => True
     end.
Proof.
  destruct rest as [| c r]; simpl; intros H.
  - injection H as <-. split; [reflexivity | exact I].
  - destruct (Ascii.eqb c ".") eqn:Ec; simpl in H; [| discriminate].
    destruct (allChars _ r) eqn:Er; [| discriminate].
    injection H as <-. apply Ascii.eqb_eq in Ec. subst c. split; [reflexivity | exact Er].
Qed.

Lemma matchSubtitle_complete (sub : option string) :
  match sub with
  | Some s => allChars (fun c => negb (isLineTerminator c)) s = true
  | None => True
  end ->
  matchSubtitle (suffixOf sub) = Some sub.
Proof. destruct sub as [s |]; simpl; [intros -> | intros _]; reflexivity. Qed.

Lemma regexExec_complete (name digits : string) (t : StepType) (sub : option string) :
  matchesStepPattern name digits t sub ->
  regexExec name
  = Some {| groupStepNumber := digits; group2 := t; groupSubtitle := sub |}.
Proof.
  intros (-> & Hne & Hdigits & Hsub). unfold regexExec.
  destruct (takeWhile_stop isDigit digits "." (typeName t +:+ suffixOf sub) Hdigits eq_refl)
    as [Htake Hdrop].
  change (digits +:+ "." +:+ typeName t +:+ suffixOf sub)
    with (digits +:+ String "." (typeName t +:+ suffixOf sub)).
  rewrite Htake, Hdrop.
  destruct digits as [| d digits]; [congruence |].
  rewrite Ascii.eqb_refl, matchType_complete, (matchSubtitle_complete sub Hsub).
  reflexivity.
Qed.

Lemma regexExec_sound (name : string) (m : RegexMatch) :
  regexExec name = Some m ->
  matchesStepPattern name (groupStepNumber m) (group2 m) (groupSubtitle m).
Proof.
  unfold regexExec. intros H.
  pose proof (takeWhile_dropWhile isDigit name) as Hsplit.
  pose proof (allChars_takeWhile isDigit name) as Hdigits.
  destruct (Path.takeWhile isDigit name) as [| d digits] eqn:Et; [discriminate |].
  destruct (Path.dropWhile isDigit name) as [| c afterDot]; [discriminate |].
  destruct (Ascii.eqb c ".") eqn:Ec; [| discriminate].
  apply Ascii.eqb_eq in Ec. subst c.
  destruct (matchType afterDot) as [[t rest] |] eqn:Em; [| discriminate].
  destruct (matchSubtitle rest) as [sub |] eqn:Es; [| discriminate].
  injection H as <-. simpl.
  apply matchType_sound in Em. apply matchSubtitle_sound in Es as [Hrest Hsub].
  subst afterDot rest.
  repeat split; [exact Hsplit | discriminate | exact Hdigits | exact Hsub].
Qed.

End ClassifierFacts.

Section ClassifierClaim.

Import Classifier.

Lemma getAppDirInfo_of_match (name : string) (m : RegexMatch) :
  regexExec name = Some m ->
  getAppDirInfo name
  = match Number (groupStepNumber m) with
    | Finite n =>
        if n =? 0 then ([], Thrown (cannotIdentifyMessage name))
        else ([], Returned (Some {| stepNumber := n; type := group2 m;
                                    subtitle := groupSubtitle m |}))
    | Infinity => ([], Thrown (cannotIdentifyMessage name))
    end.
Proof. intros H. unfold getAppDirInfo. now rewrite H. Qed.

Lemma getAppDirInfo_no_match (name : string) :
  (forall digits t sub, ~ matchesStepPattern name digits t sub) ->
  getAppDirInfo name = ([ignoringMessage name], Returned None).
Proof.
  intros Hno. unfold getAppDirInfo.
  destruct (regexExec name) as [m |] eqn:E; [| reflexivity].
  exfalso. exact (Hno _ _ _ (regexExec_sound name m E)).
Qed.

Lemma builders_catch_classifier (env : Apps.Env) (fullPath message : string) :
  snd (getAppDirInfo (Path.basename fullPath)) = Thrown message ->
  catchNull (Apps.getProblemAppFromPath env fullPath) = Returned None
  /\ catchNull (Apps.getSolutionAppFromPath env fullPath) = Returned None.
Proof.
  intros H. unfold Apps.getProblemAppFromPath, Apps.getSolutionAppFromPath.
  destruct (extractExerciseNumber (Path.basename (Path.dirname fullPath))) as [[n |] |];
    [| split; reflexivity | split; reflexivity].
  destruct (n =? 0); [split; reflexivity |].
  rewrite H. split; reflexivity.
Qed.

End ClassifierClaim.

(** C5, as amended.  [getAppDirInfo] returns [{stepNumber, type,
    subtitle}] for a name of the form
    [<digits>.(problem|solution)(.<subtitle>)?] whose digits read as a
    positive number; for every name not of that form it logs and
    returns [null], without throwing; for a name of that form whose
    digits read as [0] or as [Infinity] it throws, and the catch of the
    scans turns that throw into [null], so the directory is left out of
    the catalog.  ["03.problem.extra-credit"] yields step 3, [problem],
    subtitle ["extra-credit"]; ["not-a-match"] yields [null]. *)
Theorem getAppDirInfo_classifies :
  (forall name digits t sub n,
      Classifier.matchesStepPattern name digits t sub ->
      Classifier.Number digits = Classifier.Finite n -> 0 < n ->
      Classifier.getAppDirInfo name
      = ([], Returned (Some {| Classifier.stepNumber := n; Classifier.type := t;
                               Classifier.subtitle := sub |})))
  /\ (forall name,
        (forall digits t sub, ~ Classifier.matchesStepPattern name digits t sub) ->
        Classifier.getAppDirInfo name
        = ([Classifier.ignoringMessage name], Returned None))
  /\ (forall name digits t sub,
        Classifier.matchesStepPattern name digits t sub ->
        Classifier.Number digits = Classifier.Finite 0
        \/ Classifier.Number digits = Classifier.Infinity ->
        Classifier.getAppDirInfo name
        = ([], Thrown (Classifier.cannotIdentifyMessage name)))
  /\ (forall env fullPath message,
        snd (Classifier.getAppDirInfo (Path.basename fullPath)) = Thrown message ->
        catchNull (Apps.getProblemAppFromPath env fullPath) = Returned None
        /\ catchNull (Apps.getSolutionAppFromPath env fullPath) = Returned None)
  /\ Classifier.getAppDirInfo "03.problem.extra-credit"
     = ([], Returned (Some {| Classifier.stepNumber := 3;
                              Classifier.type := Classifier.problem;
                              Classifier.subtitle := Some "extra-credit"%string |}))
  /\ Classifier.getAppDirInfo "not-a-match"
     = ([Classifier.ignoringMessage "not-a-match"], Returned None).
Proof.
  split; [| split; [| split; [| split; [| split]]]].
  - intros name digits t sub n Hm Hn Hpos.
    rewrite (getAppDirInfo_of_match name _ (regexExec_complete name digits t sub Hm)).
    simpl. rewrite Hn. destruct (Z.eqb_spec n 0); [lia | reflexivity].
  - exact getAppDirInfo_no_match.
  - intros name digits t sub Hm Hn.
    rewrite (getAppDirInfo_of_match name _ (regexExec_complete name digits t sub Hm)).
    simpl. destruct Hn as [-> | ->]; reflexivity.
  - exact builders_catch_classifier.
  - reflexivity.
  - reflexivity.
Qed.

Lemma getAppDirInfo_classifies_witness :
  Classifier.getAppDirInfo "12.solution"
  = ([], Returned (Some {| Classifier.stepNumber := 12;
                           Classifier.type := Classifier.solution;
                           Classifier.subtitle := None |}))
  /\ Classifier.getAppDirInfo "problem.01"
     = ([Classifier.ignoringMessage "problem.01"], Returned None)
  /\ Classifier.getAppDirInfo "00.problem"
     = ([], Thrown (Classifier.cannotIdentifyMessage "00.problem"))
  /\ catchNull (Apps.getProblemAppFromPath Sample.workshop "/w/exercises/01.intro/00.problem")
     = Returned None.
Proof.
  destruct getAppDirInfo_classifies as (Hrecord & Hnull & Hthrow & Hcatch & _).
  split; [| split; [| split]].
  - apply (Hrecord "12.solution"%string "12"%string Classifier.solution None 12).
    + repeat split; discriminate.
    + reflexivity.
    + lia.
  - apply (Hnull "problem.01"%string). intros digits t sub Hm.
    apply regexExec_complete in Hm. discriminate Hm.
  - apply (Hthrow "00.problem"%string "00"%string Classifier.problem None).
    + repeat split; discriminate.
    + left. reflexivity.
  - apply (Hcatch Sample.workshop "/w/exercises/01.intro/00.problem"%string
             (Classifier.cannotIdentifyMessage "00.problem")).
    reflexivity.
Defined.

Lemma getAppDirInfo_throws_on_zero_step :
  snd (Classifier.getAppDirInfo "00.problem")
  = Thrown (Classifier.cannotIdentifyMessage "00.problem").
Proof. reflexivity. Qed.

(** ** Port assignment *)

Section PortFacts.

Import Apps.

Variable env : Env.

Lemma bind_returned {A B : Type} (r : result A) (k : A -> result B) (b : B) :
  bind r k = Returned b -> exists a, r = Returned a /\ k a = Returned b.
Proof. destruct r as [a | e |]; simpl; intros H; [eauto | discriminate | discriminate]. Qed.

Lemma promiseAll2_returned {A B : Type} (p : result A) (q : result B) (a : A) (b : B) :
  promiseAll2 p q = Returned (a, b) -> p = Returned a /\ q = Returned b.
Proof.
  destruct p as [a' | e |], q as [b' | e' |]; simpl; intros H; try discriminate.
  injection H as -> ->. split; reflexivity.
Qed.

Lemma getDevInfo_port (fullPath : string) (portNumber p : Z) (url : string) :
  getDevInfo env fullPath portNumber = Returned (DevScript p url) -> p = portNumber.
Proof.
  unfold getDevInfo. intros H. apply bind_returned in H as (hasDevScript & _ & H).
  destruct hasDevScript; [| discriminate]. now injection H as <- _.
Qed.

Lemma problem_port (fullPath : string) (app : ProblemApp) (p : Z) (url : string) :
  getProblemAppFromPath env fullPath = Returned (Some app) ->
  dev (base (problemStep app)) = DevScript p url ->
  p = problemPortNumber (exerciseNumber (problemStep app)) (stepNumber (problemStep app)).
Proof.
  unfold getProblemAppFromPath. intros H Hdev.
  destruct (Classifier.extractExerciseNumber _) as [[e |] |]; try discriminate.
  destruct (e =? 0); [discriminate |].
  apply bind_returned in H as ([info |] & _ & H); [| discriminate].
  apply bind_returned in H as (compiled & _ & H).
  apply bind_returned in H as (solutionDir & _ & H).
  apply bind_returned in H as ([t d] & Hpair & H).
  apply promiseAll2_returned in Hpair as [_ Hd].
  injection H as <-. simpl in *. subst d. exact (getDevInfo_port _ _ _ _ Hd).
Qed.

Lemma solution_port (fullPath : string) (app : SolutionApp) (p : Z) (url : string) :
  getSolutionAppFromPath env fullPath = Returned (Some app) ->
  dev (base (solutionStep app)) = DevScript p url ->
  p = solutionPortNumber (exerciseNumber (solutionStep app)) (stepNumber (solutionStep app)).
Proof.
  unfold getSolutionAppFromPath. intros H Hdev.
  destruct (Classifier.extractExerciseNumber _) as [[e |] |]; try discriminate.
  destruct (e =? 0); [discriminate |].
  apply bind_returned in H as ([info |] & _ & H); [| discriminate].
  apply bind_returned in H as (compiled & _ & H).
  apply bind_returned in H as (problemDir & _ & H).
  apply bind_returned in H as ([t d] & Hpair & H).
  apply promiseAll2_returned in Hpair as [_ Hd].
  injection H as <-. simpl in *. subst d. exact (getDevInfo_port _ _ _ _ Hd).
Qed.

Lemma example_port (fullPath : string) (index : Z) (app : ExampleApp) (p : Z) (url : string) :
  getExampleAppFromPath env fullPath index = Returned app ->
  dev (exampleBase app) = DevScript p url ->
  p = examplePortNumber index.
Proof.
  unfold getExampleAppFromPath. intros H Hdev.
  apply bind_returned in H as (compiled & _ & H).
  apply bind_returned in H as (t & _ & H).
  apply bind_returned in H as (d & Hd & H).
  injection H as <-. simpl in *. subst d. exact (getDevInfo_port _ _ _ _ Hd).
Qed.

Lemma playground_port (playgroundDir : string) (app : PlaygroundApp) (p : Z) (url : string) :
  playgroundAppFresh env playgroundDir = Returned (Some app) ->
  dev (playgroundBase app) = DevScript p url ->
  p = playgroundPortNumber.
Proof.
  unfold playgroundAppFresh. intros H Hdev.
  destruct (negb _); [discriminate |].
  destruct (playgroundAppName env) as [[| c n] |]; try discriminate.
  apply bind_returned in H as ([compiled [t d]] & Hall & H).
  apply promiseAll2_returned in Hall as [_ Hpair].
  apply promiseAll2_returned in Hpair as [_ Hd].
  injection H as <-. simpl in *. subst d. exact (getDevInfo_port _ _ _ _ Hd).
Qed.

End PortFacts.

Lemma portNumberOf_injective (a b : Apps.Slot) :
  Apps.slotInRange a -> Apps.slotInRange b ->
  Apps.portNumberOf a = Apps.portNumberOf b -> a = b.
Proof.
  destruct a as [e s | e s | i |], b as [e' s' | e' s' | i' |];
    unfold Apps.slotInRange, Apps.portNumberOf, Apps.problemPortNumber,
      Apps.solutionPortNumber, Apps.examplePortNumber, Apps.playgroundPortNumber;
    intros Ha Hb Heq; try lia; try reflexivity.
  - assert (e = e') by lia. assert (s = s') by lia. now subst.
  - assert (e = e') by lia. assert (s = s') by lia. now subst.
  - assert (i = i') by lia. now subst.
Qed.

Lemma assigned_port (env : Apps.Env) (app : Apps.App) (slot : Apps.Slot) (p : Z)
    (url : string) :
  Apps.assigned env app slot ->
  Apps.dev (Apps.baseOf app) = Apps.DevScript p url ->
  p = Apps.portNumberOf slot.
Proof.
  intros Hassigned Hdev. destruct Hassigned as [path a H | path a H | path i a H | dir a H];
    simpl in Hdev |- *.
  - exact (problem_port env _ _ _ _ H Hdev).
  - exact (solution_port env _ _ _ _ H Hdev).
  - exact (example_port env _ _ _ _ _ H Hdev).
  - exact (playground_port env _ _ _ _ H Hdev).
Qed.

(** C8, as amended.  With exercise and step numbers below [2^49],
    where the arithmetic of the runtime is exact, the port handed to the
    dev descriptor is [6000 + (e-1)*10 + s] for the problem app of
    exercise [e], step [s], and [7000 + (e-1)*10 + s] for a solution app;
    it is [4000] for the playground and [8000 + i] for the example at
    index [i] of the listing.  Two apps returned by the builders whose
    holders differ (in kind, in exercise or step number, or in example
    index) have different ports in their dev descriptors as long as
    exercise numbers stay within 1..99 and step numbers within 1..10. *)
Theorem port_assignment :
  (forall env fullPath app p url,
      Apps.getProblemAppFromPath env fullPath = Returned (Some app) ->
      Apps.dev (Apps.base (Apps.problemStep app)) = Apps.DevScript p url ->
      Apps.exerciseNumber (Apps.problemStep app) < 2 ^ 49 ->
      Apps.stepNumber (Apps.problemStep app) < 2 ^ 49 ->
      p = 6000 + (Apps.exerciseNumber (Apps.problemStep app) - 1) * 10
          + Apps.stepNumber (Apps.problemStep app))
  /\ (forall env fullPath app p url,
        Apps.getSolutionAppFromPath env fullPath = Returned (Some app) ->
        Apps.dev (Apps.base (Apps.solutionStep app)) = Apps.DevScript p url ->
        Apps.exerciseNumber (Apps.solutionStep app) < 2 ^ 49 ->
        Apps.stepNumber (Apps.solutionStep app) < 2 ^ 49 ->
        p = 7000 + (Apps.exerciseNumber (Apps.solutionStep app) - 1) * 10
            + Apps.stepNumber (Apps.solutionStep app))
  /\ (forall env playgroundDir app p url,
        Apps.playgroundAppFresh env playgroundDir = Returned (Some app) ->
        Apps.dev (Apps.playgroundBase app) = Apps.DevScript p url ->
        p = 4000)
  /\ (forall env fullPath index app p url,
        Apps.getExampleAppFromPath env fullPath index = Returned app ->
        Apps.dev (Apps.exampleBase app) = Apps.DevScript p url ->
        -1 <= index < 2 ^ 32 ->
        p = 8000 + index)
  /\ (forall env a b holderA holderB p q urlA urlB,
        Apps.assigned env a holderA -> Apps.assigned env b holderB ->
        Apps.dev (Apps.baseOf a) = Apps.DevScript p urlA ->
        Apps.dev (Apps.baseOf b) = Apps.DevScript q urlB ->
        Apps.slotInRange holderA -> Apps.slotInRange holderB ->
        holderA <> holderB ->
        p <> q).
Proof.
  split; [| split; [| split; [| split]]].
  - intros env fullPath app p url H Hdev _ _. exact (problem_port env _ _ _ _ H Hdev).
  - intros env fullPath app p url H Hdev _ _. exact (solution_port env _ _ _ _ H Hdev).
  - intros env dir app p url H Hdev. exact (playground_port env _ _ _ _ H Hdev).
  - intros env fullPath index app p url H Hdev _. exact (example_port env _ _ _ _ _ H Hdev).
  - intros env a b holderA holderB p q urlA urlB Ha Hb Hdeva Hdevb Hra Hrb Hne Heq.
    apply Hne, (portNumberOf_injective holderA holderB Hra Hrb).
    rewrite <- (assigned_port env a holderA p urlA Ha Hdeva).
    rewrite <- (assigned_port env b holderB q urlB Hb Hdevb). exact Heq.
Qed.

Lemma port_assignment_witness :
  (exists app,
      Apps.getProblemAppFromPath Sample.workshop "/w/exercises/02.next/11.problem"
      = Returned (Some app)
      /\ Apps.dev (Apps.base (Apps.problemStep app))
         = Apps.DevScript 6021 "http://localhost:6021/"
      /\ 6021 = 6000 + (Apps.exerciseNumber (Apps.problemStep app) - 1) * 10
                + Apps.stepNumber (Apps.problemStep app))
  /\ (exists a b,
         Apps.getProblemAppFromPath SampleVariants.workshop
           "/w/exercises/01.intro/01.problem.a" = Returned (Some a)
         /\ Apps.getSolutionAppFromPath SampleVariants.workshop
              "/w/exercises/01.intro/01.solution" = Returned (Some b)
         /\ Apps.dev (Apps.base (Apps.problemStep a))
            = Apps.DevScript 6001 "http://localhost:6001/"
         /\ Apps.dev (Apps.base (Apps.solutionStep b))
            = Apps.DevScript 7001 "http://localhost:7001/"
         /\ 6001 <> 7001).
Proof.
  destruct port_assignment as (Hproblem & _ & _ & _ & Hdistinct).
  split.
  - eexists. split; [vm_compute; reflexivity |]. split; [reflexivity |].
    eapply (Hproblem Sample.workshop "/w/exercises/02.next/11.problem"%string);
      [vm_compute; reflexivity | reflexivity | vm_compute; reflexivity
       | vm_compute; reflexivity].
  - eexists. eexists.
    split; [vm_compute; reflexivity |]. split; [vm_compute; reflexivity |].
    split; [reflexivity |]. split; [reflexivity |].
    eapply (Hdistinct SampleVariants.workshop);
      [ apply (Apps.assigned_problem SampleVariants.workshop
                 "/w/exercises/01.intro/01.problem.a"%string); vm_compute; reflexivity
      | apply (Apps.assigned_solution SampleVariants.workshop
                 "/w/exercises/01.intro/01.solution"%string); vm_compute; reflexivity
      | reflexivity | reflexivity
      | simpl; lia | simpl; lia | discriminate ].
Defined.

(** C8, the claim as it was stated.  Two distinct apps of one catalog
    share a port: step [11] of exercise [02.next] and step [01] of
    exercise [03.more] both get [6021]; and two problem directories of
    the same step that differ in their subtitle, [01.problem.a] and
    [01.problem.b], both get [6001], with exercise and step numbers as
    small as they can be. *)
Lemma port_collision :
  (exists apps a b,
      Apps.getAppsFresh Sample.workshop = Returned apps
      /\ Apps.getProblemAppFromPath Sample.workshop "/w/exercises/02.next/11.problem"
         = Returned (Some a)
      /\ Apps.getProblemAppFromPath Sample.workshop "/w/exercises/03.more/01.problem"
         = Returned (Some b)
      /\ In (Apps.Problem a) apps /\ In (Apps.Problem b) apps
      /\ Apps.name (Apps.base (Apps.problemStep a)) <> Apps.name (Apps.base (Apps.problemStep b))
      /\ Apps.dev (Apps.base (Apps.problemStep a))
         = Apps.DevScript 6021 "http://localhost:6021/"
      /\ Apps.dev (Apps.base (Apps.problemStep b))
         = Apps.DevScript 6021 "http://localhost:6021/")
  /\ (exists apps a b,
         Apps.getAppsFresh SampleVariants.workshop = Returned apps
         /\ Apps.getProblemAppFromPath SampleVariants.workshop
              "/w/exercises/01.intro/01.problem.a" = Returned (Some a)
         /\ Apps.getProblemAppFromPath SampleVariants.workshop
              "/w/exercises/01.intro/01.problem.b" = Returned (Some b)
         /\ In (Apps.Problem a) apps /\ In (Apps.Problem b) apps
         /\ Apps.name (Apps.base (Apps.problemStep a))
            <> Apps.name (Apps.base (Apps.problemStep b))
         /\ Apps.exerciseNumber (Apps.problemStep a) = 1
         /\ Apps.exerciseNumber (Apps.problemStep b) = 1
         /\ Apps.stepNumber (Apps.problemStep a) = 1
         /\ Apps.stepNumber (Apps.problemStep b) = 1
         /\ Apps.dev (Apps.base (Apps.problemStep a))
            = Apps.DevScript 6001 "http://localhost:6001/"
         /\ Apps.dev (Apps.base (Apps.problemStep b))
            = Apps.DevScript 6001 "http://localhost:6001/").
Proof.
  split.
  - eexists. eexists. eexists.
    split; [vm_compute; reflexivity |].
    split; [vm_compute; reflexivity |].
    split; [vm_compute; reflexivity |].
    split; [vm_compute; tauto |]. split; [vm_compute; tauto |].
    split; [discriminate |].
    split; reflexivity.
  - eexists. eexists. eexists.
    split; [vm_compute; reflexivity |].
    split; [vm_compute; reflexivity |].
    split; [vm_compute; reflexivity |].
    split; [vm_compute; tauto |]. split; [vm_compute; tauto |].
    split; [discriminate |].
    repeat split; reflexivity.
Qed.

(** ** [Array.prototype.sort] returns a permutation *)

Section SortFacts.

Context {A : Type}.
Variable comparefn : A -> A -> Z.

(** More fuel than the width of the interval changes nothing: the fuel
    given by [insertPivot] is enough. *)
Lemma binarySearch_fuel (pivot : A) (sorted : list A) :
  forall fuel fuel' left right,
    (right - left <= fuel)%nat -> (right - left <= fuel')%nat ->
    JSArray.binarySearch comparefn fuel pivot sorted left right
    = JSArray.binarySearch comparefn fuel' pivot sorted left right.
Proof.
  induction fuel as [| fuel IH]; intros fuel' left right H H'.
  - destruct fuel' as [| fuel']; cbn [JSArray.binarySearch]; [reflexivity |].
    destruct (Nat.ltb_spec left right); [lia | reflexivity].
  - destruct fuel' as [| fuel']; cbn [JSArray.binarySearch].
    + destruct (Nat.ltb_spec left right); [lia | reflexivity].
    + destruct (Nat.ltb_spec left right) as [Hlt |]; [| reflexivity].
      assert (Hd : ((right - left) / 2 < right - left)%nat)
        by (apply Nat.div_lt; lia).
      destruct (nth_error sorted (left + (right - left) / 2)); [| reflexivity].
      destruct (comparefn pivot a <? 0); apply IH; lia.
Qed.

Lemma insertPivot_permutation (sorted : list A) (pivot : A) :
  Permutation (JSArray.insertPivot comparefn sorted pivot) (pivot :: sorted).
Proof.
  unfold JSArray.insertPivot.
  set (left := JSArray.binarySearch _ _ _ _ _ _).
  transitivity (pivot :: firstn left sorted ++ skipn left sorted);
    [| now rewrite firstn_skipn].
  symmetry. apply Permutation_middle.
Qed.

Lemma fold_insertPivot_permutation (rest run : list A) :
  Permutation (fold_left (JSArray.insertPivot comparefn) rest run) (run ++ rest).
Proof.
  revert run. induction rest as [| x rest IH]; intros run; simpl.
  - now rewrite app_nil_r.
  - rewrite IH, insertPivot_permutation. simpl. apply Permutation_middle.
Qed.

Lemma countAndMakeRun_permutation (l : list A) :
  Permutation (fst (JSArray.countAndMakeRun comparefn l)
               ++ snd (JSArray.countAndMakeRun comparefn l)) l.
Proof.
  unfold JSArray.countAndMakeRun.
  destruct l as [| low [| high rest]]; cbn [fst snd];
    [reflexivity | reflexivity |].
  generalize (S (S (JSArray.runLengthFrom comparefn (comparefn high low <? 0) high rest))).
  intros n. set (l := low :: high :: rest).
  transitivity (firstn n l ++ skipn n l); [| now rewrite firstn_skipn].
  apply Permutation_app_tail.
  destruct (comparefn high low <? 0); [symmetry; apply Permutation_rev | reflexivity].
Qed.

Lemma sort_permutation (l : list A) : Permutation (JSArray.sort comparefn l) l.
Proof.
  unfold JSArray.sort.
  pose proof (countAndMakeRun_permutation l) as H.
  destruct (JSArray.countAndMakeRun comparefn l) as [run rest]. simpl in H.
  now rewrite fold_insertPivot_permutation.
Qed.

End SortFacts.

(** ** The catalog *)

Section CatalogFacts.

Import Apps.

Variable env : Env.

Lemma isAbsolute_join (a b : string) :
  Path.isAbsolute a = true -> Path.isAbsolute (Path.join a b) = true.
Proof.
  destruct a as [| c a]; [discriminate |]. simpl. intros Hc.
  assert (Hn : forall s, Path.isAbsolute (Path.normalize (String c s)) = true).
  { intros s. unfold Path.normalize. rewrite Hc.
    destruct (Path.normalizeString _ _); [reflexivity |].
    destruct (JS.startsWith _ _); reflexivity. }
  destruct b as [| d b]; apply Hn.
Qed.

Lemma dirs_absolute (pattern : string) (dir : string) :
  Path.isAbsolute (workshopRoot env) = true ->
  Forall (fun d => Path.isAbsolute d = true)
    (map (fun p => Path.join (Path.join (workshopRoot env) dir) p)
       (glob env pattern (Path.join (workshopRoot env) dir))).
Proof.
  intros Habs. apply List.Forall_forall. intros d Hd.
  apply in_map_iff in Hd as (p & <- & _).
  now apply isAbsolute_join, isAbsolute_join.
Qed.

Lemma bind_catchNull {A : Type} (r : result (option A)) :
  (let* v := catchNull r in Returned v) = catchNull r.
Proof. destruct r; reflexivity. Qed.


Lemma fetch_cold {A : Type} (cache : gmap string (Staleness.CacheEntry (option A)))
    (dir key : string) (build : result (option A)) :
  Path.isAbsolute dir = true ->
  cache !! key = None ->
  (let* forceFresh :=
     Staleness.getForceFreshForDir (modifiedTimes env) dir (cache !! key) in
   let* fetched :=
     Cache.cachified (cache !! key) (now env) ttlDay 0 forceFresh (catchNull build) in
   Returned (Cache.fetchedValue fetched)) = catchNull build.
Proof.
  intros Habs ->. unfold Staleness.getForceFreshForDir. rewrite Habs. simpl.
  unfold Cache.computeFresh. destruct build as [[a |] | m |]; reflexivity.
Qed.




Lemma collectLoop_returned {A : Type} (appFor : string -> result (option A))
    (dirs : list string) :
  forall apps l,
    collectLoop appFor dirs apps = Returned l ->
    l = apps ++ flat_map (fun d => kept (appFor d)) dirs.
Proof.
  induction dirs as [| d rest IH]; intros apps l H; simpl in *.
  - injection H as <-. now rewrite app_nil_r.
  - destruct (appFor d) as [[a |] | m |]; simpl in *; try discriminate.
    + rewrite (IH _ _ H), <- app_assoc. reflexivity.
    + exact (IH _ _ H).
Qed.


End CatalogFacts.

Section CatalogAssembly.

Import Apps.

Variable env : Env.

Lemma filter_length_permutation {A : Type} (f : A -> bool) (l l' : list A) :
  Permutation l l' ->
  List.length (List.filter f l) = List.length (List.filter f l').
Proof.
  induction 1 as [| x l l' _ IH | x y l | l l' l'' _ IH1 _ IH2]; simpl.
  - reflexivity.
  - destruct (f x); simpl; now rewrite IH.
  - destruct (f x), (f y); reflexivity.
  - now rewrite IH1.
Qed.

Lemma filter_map_none {A B : Type} (f : B -> bool) (g : A -> B) (l : list A) :
  (forall a, f (g a) = false) -> List.filter f (map g l) = [].
Proof.
  intros H. induction l as [| a l IH]; simpl; [reflexivity |]. now rewrite H.
Qed.

Lemma catalogEntries_playgrounds (playgroundApp : option PlaygroundApp)
    (problemApps : list ProblemApp) (solutionApps : list SolutionApp)
    (exampleApps : list ExampleApp) :
  List.filter isPlaygroundApp
    (catalogEntries playgroundApp problemApps solutionApps exampleApps)
  = match playgroundApp with Some app => [Playground app] | None => [] end.
Proof.
  unfold catalogEntries. rewrite !List.filter_app.
  rewrite !filter_map_none by reflexivity.
  destruct playgroundApp; reflexivity.
Qed.

Lemma getAppsFresh_returned (apps : list App) :
  getAppsFresh env = Returned apps ->
  exists playgroundApp problemApps solutionApps exampleApps,
    getPlaygroundApp env = Returned playgroundApp
    /\ getProblemApps env = Returned problemApps
    /\ getSolutionApps env = Returned solutionApps
    /\ getExampleApps env = Returned exampleApps
    /\ apps = JSArray.sort (compareApps env)
                (catalogEntries playgroundApp problemApps solutionApps exampleApps).
Proof.
  unfold getAppsFresh. intros H.
  apply bind_returned in H as (pg & Hpg & H).
  apply bind_returned in H as (ps & Hps & H).
  apply bind_returned in H as (ss & Hss & H).
  apply bind_returned in H as (es & Hes & H).
  injection H as <-. exists pg, ps, ss, es. repeat split; assumption.
Qed.








End CatalogAssembly.

(** C9.  A catalog returned by [getApps] holds at most one app of type
    [playground]: it is a rearrangement of at most one playground record
    followed by problem, solution and example apps. *)
Theorem at_most_one_playground :
  forall (env : Apps.Env) (apps : list Apps.App),
    Apps.getAppsFresh env = Returned apps ->
    (List.length (List.filter Apps.isPlaygroundApp apps) <= 1)%nat
    /\ exists playgroundApp problemApps solutionApps exampleApps,
         Permutation apps
           (match playgroundApp with Some app => [Apps.Playground app] | None => [] end
            ++ map Apps.Problem problemApps ++ map Apps.Solution solutionApps
            ++ map Apps.Example exampleApps).
Proof.
  intros env apps H.
  apply getAppsFresh_returned in H as (pg & ps & ss & es & _ & _ & _ & _ & ->).
  split.
  - rewrite (filter_length_permutation _ _ _ (sort_permutation (Apps.compareApps env) _)).
    rewrite catalogEntries_playgrounds. destruct pg; simpl; lia.
  - exists pg, ps, ss, es. apply sort_permutation.
Qed.

Lemma at_most_one_playground_witness :
  exists apps,
    Apps.getAppsFresh Sample.workshop = Returned apps
    /\ List.length (List.filter Apps.isPlaygroundApp apps) = 1%nat
    /\ (List.length (List.filter Apps.isPlaygroundApp apps) <= 1)%nat.
Proof.
  eexists. split; [vm_compute; reflexivity |]. split; [reflexivity |].
  eapply (at_most_one_playground Sample.workshop). vm_compute. reflexivity.
Defined.

Section BuildFailures.

Import Apps.

Variable env : Env.
Hypothesis root_absolute : Path.isAbsolute (workshopRoot env) = true.

Lemma problemDirs_absolute (dir : string) :
  In dir (problemDirsOf env) -> Path.isAbsolute dir = true.
Proof.
  intros Hin.
  exact (proj1 (List.Forall_forall _ _)
           (dirs_absolute env "**/*problem*" "exercises" root_absolute) dir Hin).
Qed.

Lemma solutionDirs_absolute (dir : string) :
  In dir (solutionDirsOf env) -> Path.isAbsolute dir = true.
Proof.
  intros Hin.
  exact (proj1 (List.Forall_forall _ _)
           (dirs_absolute env "**/*solution*" "exercises" root_absolute) dir Hin).
Qed.







End BuildFailures.



(** ** The comparator of [getApps] *)

Section ComparatorFacts.

Import Apps.

Variable env : Env.

(** Whatever is compared with a playground app is ranked after it. *)
Lemma compareApps_against_playground (a b : App) :
  isPlaygroundApp a = false -> isPlaygroundApp b = true -> compareApps env a b = 1.
Proof. unfold compareApps. intros -> ->. reflexivity. Qed.

Lemma compareApps_playground_first (a b : App) :
  isPlaygroundApp a = true -> isPlaygroundApp b = false -> compareApps env a b = 1.
Proof. unfold compareApps. intros -> ->. reflexivity. Qed.

(** A problem compared with the solution of the same exercise and of the
    same or a later step is ranked after it, and so is that solution
    compared with the problem. *)
Lemma compareApps_problem_solution (p : ProblemApp) (s : SolutionApp) :
  exerciseNumber (problemStep p) = exerciseNumber (solutionStep s) ->
  stepNumber (problemStep p) <= stepNumber (solutionStep s) ->
  compareApps env (Problem p) (Solution s) = 1
  /\ compareApps env (Solution s) (Problem p) = 1.
Proof.
  intros Hex Hstep. unfold compareApps. simpl. rewrite Hex, Z.eqb_refl.
  destruct (Z.leb_spec (stepNumber (problemStep p)) (stepNumber (solutionStep s))); [| lia].
  destruct (Z.ltb_spec (stepNumber (solutionStep s)) (stepNumber (problemStep p))); [lia |].
  split; reflexivity.
Qed.

End ComparatorFacts.

(** C1.  At the catalog example of the specification the comparator
    ranks [problem(1,1)] after [solution(1,2)] and [solution(1,2)] after
    [problem(1,1)], and ranks the playground both after and before
    [problem(1,1)]; the sort leaves [solution(1,2)] in front of
    [problem(1,1)], which is not the expected order, and on the array
    [getApps] itself builds, playground first, the playground stays
    first. *)
Theorem compareApps_on_catalog_example :
  Apps.compareApps Sample.workshop (Sample.problemApp 1 1) (Sample.solutionApp 1 2) = 1
  /\ Apps.compareApps Sample.workshop (Sample.solutionApp 1 2) (Sample.problemApp 1 1) = 1
  /\ Apps.compareApps Sample.workshop (Sample.problemApp 1 1) Sample.playgroundApp = 1
  /\ Apps.compareApps Sample.workshop Sample.playgroundApp (Sample.problemApp 1 1) = 1
  /\ JSArray.sort (Apps.compareApps Sample.workshop) Sample.catalogExample
     = [Sample.solutionApp 1 2; Sample.problemApp 1 1;
        Sample.exampleApp "a"; Sample.exampleApp "b"; Sample.playgroundApp]
  /\ JSArray.sort (Apps.compareApps Sample.workshop) Sample.catalogExample
     <> Sample.catalogExpected
  /\ JSArray.sort (Apps.compareApps Sample.workshop)
       [Sample.playgroundApp; Sample.problemApp 1 1; Sample.solutionApp 1 1]
     = [Sample.playgroundApp; Sample.problemApp 1 1; Sample.solutionApp 1 1].
Proof.
  repeat split; try reflexivity.
  vm_compute. discriminate.
Qed.

(** ** Sibling search *)

Section SiblingFacts.

Import Apps.

Variable env : Env.

(** Deeper recursion than two calls gives nothing new: from the second
    call on the path is the one the playground pointer names, and either
    that call answers or it calls itself for ever. *)
Lemma findSolutionDirFuel_target (appName : string) :
  playgroundAppName env = Some appName ->
  forall n,
    findSolutionDirFuel env (S (S n)) (getFullPathFromAppName env appName)
    = findSolutionDirFuel env (S n) (getFullPathFromAppName env appName).
Proof.
  intros Hname. destruct appName as [| c appName].
  - intros n. cbn [findSolutionDirFuel]. rewrite Hname. reflexivity.
  - intros n. cbn [findSolutionDirFuel]. rewrite Hname.
    destruct (JS.includes _ _); [reflexivity |].
    destruct (JS.endsWith _ _); reflexivity.
Qed.

Lemma findSolutionDirFuel_unfold (fuel : nat) (fullPath : string) :
  findSolutionDirFuel env (S fuel) fullPath
  = if JS.includes (Path.basename fullPath) ".problem"
    then solutionDirOfProblem env fullPath (Path.basename fullPath)
    else if JS.endsWith fullPath "playground" then
      match playgroundAppName env with
      | Some (String c appName') =>
          findSolutionDirFuel env fuel (getFullPathFromAppName env (String c appName'))
      | _ => Returned None
      end
    else Returned None.
Proof. reflexivity. Qed.

Lemma findSolutionDirFuel_stable (n : nat) (fullPath : string) :
  findSolutionDirFuel env (S (S n)) fullPath = findSolutionDir env fullPath.
Proof.
  unfold findSolutionDir. induction n as [| n IH]; [reflexivity |].
  rewrite <- IH.
  rewrite (findSolutionDirFuel_unfold (S (S n)) fullPath), (findSolutionDirFuel_unfold (S n) fullPath).
  destruct (JS.includes _ _); [reflexivity |].
  destruct (JS.endsWith _ _); [| reflexivity].
  destruct (playgroundAppName env) as [[| c appName] |] eqn:Hname; try reflexivity.
  exact (findSolutionDirFuel_target (String c appName) Hname n).
Qed.

Lemma findProblemDirFuel_target (appName : string) :
  playgroundAppName env = Some appName ->
  forall n,
    findProblemDirFuel env (S (S n)) (getFullPathFromAppName env appName)
    = findProblemDirFuel env (S n) (getFullPathFromAppName env appName).
Proof.
  intros Hname. destruct appName as [| c appName].
  - intros n. cbn [findProblemDirFuel]. rewrite Hname. reflexivity.
  - intros n. cbn [findProblemDirFuel]. rewrite Hname.
    destruct (JS.includes _ _); [reflexivity |].
    destruct (JS.endsWith _ _); reflexivity.
Qed.

Lemma findProblemDirFuel_unfold (fuel : nat) (fullPath : string) :
  findProblemDirFuel env (S fuel) fullPath
  = if JS.includes (Path.basename fullPath) ".solution"
    then problemDirOfSolution env fullPath (Path.basename fullPath)
    else if JS.endsWith fullPath "playground" then
      match playgroundAppName env with
      | Some (String c appName') =>
          findProblemDirFuel env fuel (getFullPathFromAppName env (String c appName'))
      | _ => Returned None
      end
    else Returned None.
Proof. reflexivity. Qed.

Lemma findProblemDirFuel_stable (n : nat) (fullPath : string) :
  findProblemDirFuel env (S (S n)) fullPath = findProblemDir env fullPath.
Proof.
  unfold findProblemDir. induction n as [| n IH]; [reflexivity |].
  rewrite <- IH.
  rewrite (findProblemDirFuel_unfold (S (S n)) fullPath), (findProblemDirFuel_unfold (S n) fullPath).
  destruct (JS.includes _ _); [reflexivity |].
  destruct (JS.endsWith _ _); [| reflexivity].
  destruct (playgroundAppName env) as [[| c appName] |] eqn:Hname; try reflexivity.
  exact (findProblemDirFuel_target (String c appName) Hname n).
Qed.

End SiblingFacts.

(** C6.  In the exercise [01.intro] of the sample workshop, whose step
    1 is [01.problem.extra] with [01.solution.extra], the problem app
    names the solution app as its [solutionName], but the solution app
    has no [problemName]: the search for the problem directory asks for
    a name that ends with [problem].  For the plain pair [02.problem],
    [02.solution] both links are there. *)
Theorem cross_link_with_subtitle :
  Apps.findSolutionDir Sample.workshop "/w/exercises/01.intro/01.problem.extra"
  = Returned (Some "/w/exercises/01.intro/01.solution.extra"%string)
  /\ Apps.findProblemDir Sample.workshop "/w/exercises/01.intro/01.solution.extra"
     = Returned None
  /\ (exists problem solution,
        Apps.getProblemAppFromPath Sample.workshop "/w/exercises/01.intro/01.problem.extra"
        = Returned (Some problem)
        /\ Apps.getSolutionAppFromPath Sample.workshop "/w/exercises/01.intro/01.solution.extra"
           = Returned (Some solution)
        /\ Apps.solutionName problem
           = Some (Apps.name (Apps.base (Apps.solutionStep solution)))
        /\ Apps.problemName solution = None
        /\ Apps.problemName solution
           <> Some (Apps.name (Apps.base (Apps.problemStep problem))))
  /\ (exists problem solution,
        Apps.getProblemAppFromPath Sample.workshop "/w/exercises/01.intro/02.problem"
        = Returned (Some problem)
        /\ Apps.getSolutionAppFromPath Sample.workshop "/w/exercises/01.intro/02.solution"
           = Returned (Some solution)
        /\ Apps.solutionName problem
           = Some (Apps.name (Apps.base (Apps.solutionStep solution)))
        /\ Apps.problemName solution
           = Some (Apps.name (Apps.base (Apps.problemStep problem)))).
Proof.
  split; [vm_compute; reflexivity |].
  split; [vm_compute; reflexivity |].
  split.
  - eexists. eexists.
    split; [vm_compute; reflexivity |].
    split; [vm_compute; reflexivity |].
    split; [reflexivity |]. split; [reflexivity | discriminate].
  - eexists. eexists.
    split; [vm_compute; reflexivity |].
    split; [vm_compute; reflexivity |].
    split; reflexivity.
Qed.

(** ** Playground sync *)

Section PlaygroundFacts.

Import Playground.

Lemma isPrefix_app (dir f : path) : isPrefix dir (dir ++ f) = true.
Proof.
  induction dir as [| d dir IH]; simpl; [reflexivity |].
  now rewrite String.eqb_refl, IH.
Qed.

Lemma isPrefix_refl (p : path) : isPrefix p p = true.
Proof.
  induction p as [| s p IH]; simpl; [reflexivity |]. now rewrite String.eqb_refl, IH.
Qed.

Lemma isPrefix_removelast (p : path) : isPrefix (removelast p) p = true.
Proof.
  induction p as [| s p IH]; [reflexivity |].
  destruct p as [| t p]; [reflexivity |].
  change (removelast (s :: t :: p)) with (s :: removelast (t :: p)).
  cbn [isPrefix]. now rewrite String.eqb_refl, IH.
Qed.



Lemma isPrefix_app_l (dir a p : path) :
  isPrefix (dir ++ a) p = true -> isPrefix dir p = true.
Proof.
  revert p. induction dir as [| d dir IH]; intros p H; simpl in *; [reflexivity |].
  destruct p as [| s p]; [discriminate |].
  apply andb_true_iff in H as [Hd Hp]. rewrite Hd. simpl. exact (IH p Hp).
Qed.


Lemma isPrefix_trans (a b c : path) :
  isPrefix a b = true -> isPrefix b c = true -> isPrefix a c = true.
Proof.
  revert b c. induction a as [| x a IH]; intros b c Hab Hbc; [reflexivity |].
  destruct b as [| y b]; [discriminate |]. destruct c as [| z c]; [discriminate |].
  simpl in *. apply andb_true_iff in Hab as [Hx Hab]. apply andb_true_iff in Hbc as [Hy Hbc].
  apply String.eqb_eq in Hx, Hy. subst y z. rewrite String.eqb_refl. simpl.
  exact (IH b c Hab Hbc).
Qed.


Lemma path_eqb_eq (p q : path) : path_eqb p q = true <-> p = q.
Proof. unfold path_eqb. apply bool_decide_eq_true. Qed.






Lemma prefixes_isPrefix (q p : path) : In p (prefixes q) -> isPrefix p q = true.
Proof.
  revert p. induction q as [| s q IH]; intros p; simpl.
  - intros [<- | []]. reflexivity.
  - intros [<- | Hin]; [reflexivity |].
    apply in_map_iff in Hin as (p' & <- & Hp'). simpl.
    now rewrite String.eqb_refl, (IH p' Hp').
Qed.




End PlaygroundFacts.

Section PlaygroundSync.

Import Playground.

Variable isIgnored : path -> bool.
Variable listing : FileSystem -> path -> list path.




End PlaygroundSync.




(** ** Names and paths *)

Section SplitJoinFacts.

Import Names.

Lemma join_cons2 (sep x y : string) (rest : list string) :
  JS.join sep (x :: y :: rest) = x +:+ sep +:+ JS.join sep (y :: rest).
Proof. reflexivity. Qed.

Lemma join_app (sep : string) (a b : list string) :
  a <> [] -> b <> [] ->
  JS.join sep (a ++ b) = JS.join sep a +:+ sep +:+ JS.join sep b.
Proof.
  intros Ha Hb. induction a as [| x a IH]; [congruence |].
  destruct a as [| y a].
  - destruct b as [| z b]; [congruence |]. reflexivity.
  - change ((x :: y :: a) ++ b) with (x :: y :: (a ++ b)).
    rewrite !join_cons2. change (y :: a ++ b) with ((y :: a) ++ b).
    rewrite IH by discriminate. now rewrite !append_assoc.
Qed.

Lemma split_noSep (s : string) :
  noSep s = true -> JS.split Path.sepChar s = [s].
Proof.
  unfold noSep. induction s as [| c s IH]; simpl; intros H; [reflexivity |].
  apply andb_true_iff in H as [Hc Hs]. apply negb_true_iff in Hc.
  rewrite Hc, (IH Hs). reflexivity.
Qed.

Lemma split_segment (s rest : string) :
  noSep s = true ->
  JS.split Path.sepChar (s +:+ String Path.sepChar rest) = s :: JS.split Path.sepChar rest.
Proof.
  unfold noSep. induction s as [| c s IH]; simpl; intros H.
  - reflexivity.
  - apply andb_true_iff in H as [Hc Hs]. apply negb_true_iff in Hc.
    rewrite Hc, (IH Hs). reflexivity.
Qed.

Lemma split_join (segments : list string) :
  segments <> [] -> forallb noSep segments = true ->
  JS.split Path.sepChar (JS.join Path.sep segments) = segments.
Proof.
  intros Hne. induction segments as [| x segments IH]; [congruence |].
  simpl forallb. intros H. apply andb_true_iff in H as [Hx Hrest].
  destruct segments as [| y segments].
  - now apply split_noSep.
  - rewrite join_cons2. change (Path.sep +:+ ?r) with (String Path.sepChar r).
    rewrite (split_segment _ _ Hx), IH; [reflexivity | discriminate | exact Hrest].
Qed.

End SplitJoinFacts.

Section TokenFacts.

Import Names.

Lemma replace_unfold (s pat rep : string) :
  JS.replace s pat rep
  = if JS.startsWith s pat then rep +:+ JS.drop (String.length pat) s
    else match s with
         | EmptyString => EmptyString
         | String c s' => String c (JS.replace s' pat rep)
         end.
Proof. destruct s; reflexivity. Qed.

Lemma replace_prefix (pat rest rep : string) :
  JS.replace (pat +:+ rest) pat rep = rep +:+ rest.
Proof. now rewrite replace_unfold, startsWith_append, drop_append. Qed.

Lemma startsWith_prefix (s a b : string) :
  JS.startsWith s (a +:+ b) = true -> JS.startsWith s a = true.
Proof.
  revert s. induction a as [| c a IH]; intros s H; simpl in *; [reflexivity |].
  destruct s as [| d s]; [discriminate |].
  apply andb_true_iff in H as [Hc Ha]. rewrite Hc. simpl. exact (IH s Ha).
Qed.

Lemma tokenFree_tail (c : ascii) (s : string) :
  tokenFree (String c s) = true -> tokenFree s = true.
Proof.
  unfold tokenFree. rewrite !negb_true_iff. cbn [JS.includes].
  intros H. apply orb_false_iff in H as [_ H]. exact H.
Qed.

Lemma tokenFree_head (s : string) :
  tokenFree s = true -> JS.startsWith s "__sep" = false.
Proof.
  unfold tokenFree. rewrite negb_true_iff. intros H.
  destruct s as [| c s]; cbn [JS.includes] in H; [reflexivity |].
  apply orb_false_iff in H as [H _]. exact H.
Qed.

(** The token does not start inside a token-free segment, whatever
    follows the segment. *)
Lemma token_not_inside (c : ascii) (s rest : string) :
  tokenFree (String c s) = true ->
  JS.startsWith (String c s +:+ token +:+ rest) token = false.
Proof.
  intros H. apply tokenFree_head in H. unfold token.
  destruct s as [| c2 [| c3 [| c4 [| c5 s]]]];
    cbn [JS.startsWith String.append] in *;
    repeat match goal with
           | |- context [Ascii.eqb ?a ?b] => is_var b; destruct (Ascii.eqb a b)
           end;
    simpl in *; try reflexivity; discriminate.
Qed.

Lemma token_not_at_end (s : string) :
  tokenFree s = true -> JS.startsWith s token = false.
Proof.
  intros H. apply tokenFree_head in H.
  destruct (JS.startsWith s token) eqn:E; [| reflexivity].
  change token with ("__sep" +:+ "__") in E.
  apply startsWith_prefix in E. congruence.
Qed.

Lemma replaceAllFrom_token (rest : string) :
  JS.replaceAllFrom 0 (token +:+ rest) token Path.sep
  = Path.sep +:+ JS.replaceAllFrom 0 rest token Path.sep.
Proof. reflexivity. Qed.

Lemma replaceAll_segment (s rest : string) :
  tokenFree s = true ->
  JS.replaceAllFrom 0 (s +:+ token +:+ rest) token Path.sep
  = s +:+ Path.sep +:+ JS.replaceAllFrom 0 rest token Path.sep.
Proof.
  induction s as [| c s IH]; intros H.
  - apply replaceAllFrom_token.
  - change (String c s +:+ token +:+ rest) with (String c (s +:+ token +:+ rest)).
    cbn [JS.replaceAllFrom].
    change (String c (s +:+ token +:+ rest)) with (String c s +:+ token +:+ rest).
    rewrite (token_not_inside c s rest H), (IH (tokenFree_tail c s H)). reflexivity.
Qed.

Lemma replaceAll_last (s : string) :
  tokenFree s = true -> JS.replaceAllFrom 0 s token Path.sep = s.
Proof.
  induction s as [| c s IH]; intros H; [reflexivity |].
  cbn [JS.replaceAllFrom].
  rewrite (token_not_at_end _ H), (IH (tokenFree_tail c s H)). reflexivity.
Qed.

Lemma replaceAll_join (segments : list string) :
  forallb tokenFree segments = true ->
  JS.replaceAll (JS.join token segments) token Path.sep = JS.join Path.sep segments.
Proof.
  unfold JS.replaceAll. induction segments as [| x segments IH]; [reflexivity |].
  simpl forallb. intros H. apply andb_true_iff in H as [Hx Hrest].
  destruct segments as [| y segments].
  - now apply replaceAll_last.
  - rewrite !join_cons2, (replaceAll_segment _ _ Hx), (IH Hrest). reflexivity.
Qed.

End TokenFacts.

Section NormalizeFacts.

Import Names.

Lemma plainSegment_inv (s : string) :
  plainSegment s = true ->
  String.eqb s "" = false /\ String.eqb s "." = false /\ String.eqb s ".." = false
  /\ noSep s = true.
Proof.
  unfold plainSegment. intros H.
  apply andb_true_iff in H as [H H4]. apply andb_true_iff in H as [H H3].
  apply andb_true_iff in H as [H1 H2].
  apply negb_true_iff in H1, H2, H3. repeat split; assumption.
Qed.

Lemma plainSegments_noSep (segments : list string) :
  forallb plainSegment segments = true -> forallb noSep segments = true.
Proof.
  induction segments as [| x segments IH]; simpl; [reflexivity |].
  intros H. apply andb_true_iff in H as [Hx Hrest].
  destruct (plainSegment_inv x Hx) as (_ & _ & _ & ->). exact (IH Hrest).
Qed.

Lemma normalizeStep_plain (allowAboveRoot : bool) (stack : list string) (s : string) :
  plainSegment s = true -> Path.normalizeStep allowAboveRoot stack s = s :: stack.
Proof.
  intros H. destruct (plainSegment_inv s H) as (H1 & H2 & H3 & _).
  unfold Path.normalizeStep. now rewrite H1, H2, H3.
Qed.

Lemma normalize_fold (allowAboveRoot : bool) (segments : list string) :
  forallb plainSegment segments = true ->
  forall stack,
    fold_left (Path.normalizeStep allowAboveRoot) segments stack
    = List.rev segments ++ stack.
Proof.
  induction segments as [| x segments IH]; simpl; intros H stack; [reflexivity |].
  apply andb_true_iff in H as [Hx Hrest].
  rewrite (normalizeStep_plain _ _ _ Hx), (IH Hrest), <- app_assoc. reflexivity.
Qed.

Lemma rev_append (a b : string) : JS.rev (a +:+ b) = JS.rev b +:+ JS.rev a.
Proof.
  induction a as [| c a IH]; simpl.
  - now rewrite append_empty_r.
  - now rewrite IH, append_assoc.
Qed.

(** A segment does not end with the separator. *)
Lemma segment_end (s : string) :
  noSep s = true -> s <> EmptyString ->
  forall t, JS.startsWith (JS.rev s +:+ t) Path.sep = false.
Proof.
  unfold noSep. induction s as [| c s IH]; intros H Hne t; [congruence |].
  simpl in H. apply andb_true_iff in H as [Hc Hs]. apply negb_true_iff in Hc.
  cbn [JS.rev]. rewrite append_assoc. destruct s as [| d s].
  - cbn [JS.rev String.append JS.chr JS.startsWith Path.sep].
    rewrite Ascii.eqb_sym. unfold Path.sepChar in Hc. now rewrite Hc.
  - apply IH; [exact Hs | discriminate].
Qed.

Lemma joined_end (segments : list string) :
  segments <> [] -> forallb plainSegment segments = true ->
  forall pre, JS.startsWith (JS.rev (pre +:+ JS.join Path.sep segments)) Path.sep = false.
Proof.
  intros Hne. induction segments as [| x segments IH]; [congruence |].
  simpl forallb. intros H pre. apply andb_true_iff in H as [Hx Hrest].
  destruct (plainSegment_inv x Hx) as (Hx1 & _ & _ & Hx4).
  destruct segments as [| y segments].
  - cbn [JS.join String.concat]. rewrite rev_append. apply segment_end; [exact Hx4 |].
    intros ->. discriminate.
  - rewrite join_cons2, <- !append_assoc.
    apply IH; [discriminate | exact Hrest].
Qed.

Lemma join_nonempty (sep x : string) (rest : list string) :
  x <> EmptyString -> exists c t, JS.join sep (x :: rest) = String c t.
Proof.
  intros Hx. destruct x as [| c x]; [congruence |].
  destruct rest as [| y rest]; [now exists c, x |].
  rewrite join_cons2. now exists c, (x +:+ sep +:+ JS.join sep (y :: rest)).
Qed.

Lemma normalize_absolutePath (segments : list string) :
  segments <> [] -> forallb plainSegment segments = true ->
  Path.normalize (absolutePath segments) = absolutePath segments.
Proof.
  intros Hne Hplain. unfold absolutePath.
  pose proof (joined_end segments Hne Hplain Path.sep) as Hend.
  change (Path.sep +:+ ?r) with (String Path.sepChar r) in *.
  unfold Path.normalize. rewrite Ascii.eqb_refl, Hend.
  unfold Path.normalizeString.
  change (JS.split Path.sepChar (String Path.sepChar (JS.join Path.sep segments)))
    with (EmptyString :: JS.split Path.sepChar (JS.join Path.sep segments)).
  rewrite (split_join segments Hne (plainSegments_noSep segments Hplain)).
  cbn [fold_left]. change (Path.normalizeStep (negb true) [] "") with (@nil string).
  rewrite (normalize_fold _ _ Hplain), app_nil_r, rev_involutive.
  destruct segments as [| x rest]; [congruence |].
  simpl in Hplain. apply andb_true_iff in Hplain as [Hx _].
  destruct (plainSegment_inv x Hx) as (Hx1 & _).
  destruct (join_nonempty Path.sep x rest) as (c & t & ->); [intros ->; discriminate |].
  reflexivity.
Qed.

End NormalizeFacts.

(** C2, as amended.  For a workshop root that is a normalized absolute
    path other than [/], and a path [p] made of the root followed by one
    or more segments, each of them not empty, not [.] or [..], without
    separator and without the characters [__sep] in a row,
    [getFullPathFromAppName (getAppName p)] is [p]: [getAppName] strips
    the root and puts the token where the separators were, and
    [getFullPathFromAppName] puts the separators back and joins the
    result to the root. *)
Theorem app_name_round_trip :
  forall rootSegments segments : list string,
    rootSegments <> [] -> segments <> [] ->
    forallb Names.plainSegment rootSegments = true ->
    forallb Names.plainSegment segments = true ->
    forallb Names.tokenFree segments = true ->
    let workshopRoot := Names.absolutePath rootSegments in
    let p := workshopRoot +:+ Path.sep +:+ JS.join Path.sep segments in
    Names.getAppName workshopRoot p = JS.join Names.token segments
    /\ Names.getFullPathFromAppName workshopRoot (Names.getAppName workshopRoot p) = p.
Proof.
  intros rootSegments segments Hroot Hsegs Hrplain Hplain Hfree workshopRoot p.
  assert (Hname : Names.getAppName workshopRoot p = JS.join Names.token segments).
  { unfold Names.getAppName, p. rewrite <- append_assoc, replace_prefix.
    change (EmptyString +:+ ?r) with r.
    now rewrite (split_join segments Hsegs (plainSegments_noSep segments Hplain)). }
  split; [exact Hname |].
  rewrite Hname. unfold Names.getFullPathFromAppName.
  rewrite (replaceAll_join segments Hfree).
  assert (Hp : p = Names.absolutePath (rootSegments ++ segments)).
  { unfold p, workshopRoot, Names.absolutePath.
    rewrite (join_app Path.sep rootSegments segments Hroot Hsegs).
    now rewrite !append_assoc. }
  assert (Hjoin : Path.join workshopRoot (JS.join Path.sep segments) = Path.normalize p).
  { destruct segments as [| x rest]; [congruence |].
    simpl in Hplain. apply andb_true_iff in Hplain as [Hx _].
    destruct (plainSegment_inv x Hx) as (Hx1 & _).
    unfold p. destruct (join_nonempty Path.sep x rest) as (c & t & ->);
      [intros ->; discriminate |].
    reflexivity. }
  rewrite Hjoin, Hp. apply normalize_absolutePath.
  - destruct rootSegments; [congruence | discriminate].
  - now rewrite forallb_app, Hrplain, Hplain.
Qed.

Lemma app_name_round_trip_witness :
  Names.getAppName "/home/me/workshop" "/home/me/workshop/exercises/01.intro/02.problem_one"
  = "exercises__sep__01.intro__sep__02.problem_one"%string
  /\ Names.getFullPathFromAppName "/home/me/workshop"
       (Names.getAppName "/home/me/workshop"
          "/home/me/workshop/exercises/01.intro/02.problem_one")
     = "/home/me/workshop/exercises/01.intro/02.problem_one"%string.
Proof.
  apply (app_name_round_trip ["home"; "me"; "workshop"]%string
           ["exercises"; "01.intro"; "02.problem_one"]%string);
    try discriminate; reflexivity.
Defined.

Lemma app_name_round_trip_fails :
  Path.isAbsolute "/w/a__sep__b" = true
  /\ JS.startsWith "/w/a__sep__b" ("/w" +:+ Path.sep) = true
  /\ Names.getAppName "/w" "/w/a__sep__b" = "a__sep__b"%string
  /\ Names.getFullPathFromAppName "/w" (Names.getAppName "/w" "/w/a__sep__b")
     = "/w/a/b"%string
  /\ Names.getFullPathFromAppName "/w" (Names.getAppName "/w" "/w/a__sep__b")
     <> "/w/a__sep__b"%string.
Proof. repeat split; try reflexivity. vm_compute. discriminate. Qed.

(** * Further properties *)

(** ** The catalog-wide staleness rule and the file watcher *)

Section TrackerFacts.

Import Tracker.

Lemma fold_maxStep (values : list Z) :
  forall acc,
    match fold_left maxStep values acc with
    | NegInfinity => acc = NegInfinity /\ values = []
    | MaxOf m =>
        (acc = MaxOf m \/ In m values)
        /\ (forall x, In x values -> x <= m)
        /\ (forall a, acc = MaxOf a -> a <= m)
    end.
Proof.
  induction values as [| v values IH]; intros acc; simpl.
  - destruct acc as [| a]; [split; reflexivity |].
    split; [now left |]. split; [intros x [] |]. intros b Hb. injection Hb as <-. lia.
  - specialize (IH (maxStep acc v)).
    destruct (fold_left maxStep values (maxStep acc v)) as [| m].
    + destruct IH as [Hacc _]. destruct acc; discriminate.
    + destruct IH as (Hfrom & Hall & Hacc).
      assert (Hv : v <= m /\ forall a, acc = MaxOf a -> a <= m).
      { destruct acc as [| a]; simpl in *.
        - split; [apply Hacc; reflexivity | discriminate].
        - specialize (Hacc _ eq_refl). split; [lia |].
          intros b Hb. injection Hb as <-. lia. }
      destruct Hv as [Hv Ha]. split; [| split; [| exact Ha]].
      * destruct Hfrom as [Hfrom | Hin]; [| right; now right].
        destruct acc as [| a]; simpl in Hfrom; injection Hfrom as Hm.
        -- right. left. exact Hm.
        -- destruct (Z.max_spec a v) as [[_ Hmax] | [_ Hmax]].
           ++ right. left. congruence.
           ++ left. f_equal. congruence.
      * intros x [<- | Hx]; [exact Hv | exact (Hall x Hx)].
Qed.

Lemma values_In (modifiedTimes : gmap string Z) (t : Z) :
  In t (map snd (map_to_list modifiedTimes)) <-> exists dir, modifiedTimes !! dir = Some t.
Proof.
  rewrite in_map_iff. split.
  - intros ([dir t'] & Ht & Hin). simpl in Ht. subst t'. exists dir.
    apply elem_of_map_to_list. now apply list_elem_of_In.
  - intros [dir Hdir]. exists (dir, t). split; [reflexivity |].
    apply list_elem_of_In. now apply elem_of_map_to_list.
Qed.

Lemma getForceFresh_touched {V : Type} (modifiedTimes : gmap string Z)
    (e : Staleness.CacheEntry V) (dir : string) (t : Z) :
  0 <= Staleness.createdTime (Staleness.metadata e) ->
  modifiedTimes !! dir = Some t ->
  Staleness.createdTime (Staleness.metadata e) < t ->
  getForceFresh modifiedTimes (Some e) = Some true.
Proof.
  intros Hpos Hdir Hlt. unfold getForceFresh, mathMax.
  pose proof (fold_maxStep (map snd (map_to_list modifiedTimes)) NegInfinity) as H.
  assert (Hin : In t (map snd (map_to_list modifiedTimes))) by (apply values_In; eauto).
  destruct (fold_left maxStep _ NegInfinity) as [| m].
  - destruct H as [_ Hnil]. rewrite Hnil in Hin. destruct Hin.
  - destruct H as (_ & Hall & _). specialize (Hall t Hin).
    destruct (Z.eqb_spec m 0); [lia |].
    destruct (Z.ltb_spec (Staleness.createdTime (Staleness.metadata e)) m); [reflexivity | lia].
Qed.

Lemma getForceFresh_untouched {V : Type} (modifiedTimes : gmap string Z)
    (e : Staleness.CacheEntry V) :
  (forall dir t, modifiedTimes !! dir = Some t ->
                 t <= Staleness.createdTime (Staleness.metadata e)) ->
  getForceFresh modifiedTimes (Some e) = None.
Proof.
  intros Hall. unfold getForceFresh, mathMax.
  pose proof (fold_maxStep (map snd (map_to_list modifiedTimes)) NegInfinity) as H.
  destruct (fold_left maxStep _ NegInfinity) as [| m]; [reflexivity |].
  destruct H as ([Habs | Hin] & _ & _); [discriminate |].
  apply values_In in Hin as [dir Hdir]. specialize (Hall dir m Hdir).
  destruct (m =? 0); [reflexivity |].
  destruct (Z.ltb_spec (Staleness.createdTime (Staleness.metadata e)) m); [lia | reflexivity].
Qed.

End TrackerFacts.

(** X1.  The catalog-wide rule [getForceFresh] answers [true] without a
    cache entry; with an entry stamped with a clock reading it answers
    [true] as soon as one directory of the staleness map carries a time
    after the entry's [createdTime], and [undefined] when none does (an
    empty map included); so whenever the rule for one directory forces a
    refresh, the catalog-wide rule does too. *)
Theorem getForceFresh_any_directory :
  forall (V : Type) (modifiedTimes : gmap string Z) (e : Staleness.CacheEntry V),
    0 <= Staleness.createdTime (Staleness.metadata e) ->
    Tracker.getForceFresh modifiedTimes (@None (Staleness.CacheEntry V)) = Some true
    /\ ((exists dir t, modifiedTimes !! dir = Some t
                       /\ Staleness.createdTime (Staleness.metadata e) < t) ->
        Tracker.getForceFresh modifiedTimes (Some e) = Some true)
    /\ ((forall dir t, modifiedTimes !! dir = Some t ->
                       t <= Staleness.createdTime (Staleness.metadata e)) ->
        Tracker.getForceFresh modifiedTimes (Some e) = None)
    /\ (forall dir,
          Staleness.getForceFreshForDir modifiedTimes dir (Some e) = Returned (Some true) ->
          Tracker.getForceFresh modifiedTimes (Some e) = Some true).
Proof.
  intros V modifiedTimes e Hpos.
  split; [reflexivity |].
  split; [intros (dir & t & Hdir & Hlt); eapply getForceFresh_touched; eauto |].
  split; [apply getForceFresh_untouched |].
  intros dir H. unfold Staleness.getForceFreshForDir in H.
  destruct (negb (Path.isAbsolute dir)); [discriminate |].
  destruct (modifiedTimes !! dir) as [t |] eqn:Hdir; [| discriminate].
  destruct (t =? 0); [discriminate |].
  destruct (Z.ltb_spec (Staleness.createdTime (Staleness.metadata e)) t); [| discriminate].
  eapply getForceFresh_touched; eauto.
Qed.

Lemma getForceFresh_any_directory_witness :
  Tracker.getForceFresh (<["/w/examples/a" := 50]> (<["/w/playground" := 150]> ∅))
    (Some Sample.staleEntry) = Some true
  /\ Tracker.getForceFresh (<["/w/examples/a" := 50]> ∅) (Some Sample.staleEntry) = None
  /\ Tracker.getForceFresh (∅ : gmap string Z) (Some Sample.staleEntry) = None.
Proof.
  assert (Hpos : 0 <= Staleness.createdTime (Staleness.metadata Sample.staleEntry))
    by (simpl; lia).
  split; [| split].
  - apply (getForceFresh_any_directory string _ Sample.staleEntry Hpos).
    exists "/w/playground"%string, 150. split; [reflexivity | simpl; lia].
  - apply (getForceFresh_any_directory string _ Sample.staleEntry Hpos).
    intros dir t Hdir. apply lookup_insert_Some in Hdir as [[_ <-] | [_ Hdir]];
      [simpl; lia | discriminate].
  - apply (getForceFresh_any_directory string _ Sample.staleEntry Hpos).
    intros dir t Hdir. discriminate.
Defined.

Section WatcherFacts.

Import Tracker.

Lemma handleFileChanges_first (before after : list Apps.App) (app : Apps.App)
    (filePath : string) (now : Z) (modifiedTimes : gmap string Z) :
  (forall b, In b before -> JS.startsWith filePath (Apps.fullPath (Apps.baseOf b)) = false) ->
  JS.startsWith filePath (Apps.fullPath (Apps.baseOf app)) = true ->
  handleFileChanges (before ++ app :: after) filePath now modifiedTimes
  = <[Apps.fullPath (Apps.baseOf app) := now]> modifiedTimes.
Proof.
  intros Hbefore Happ. induction before as [| b before IH]; simpl.
  - now rewrite Happ.
  - rewrite (Hbefore b (or_introl eq_refl)). apply IH.
    intros b' Hb'. apply Hbefore. now right.
Qed.

Lemma handleFileChanges_none (apps : list Apps.App) (filePath : string) (now : Z)
    (modifiedTimes : gmap string Z) :
  (forall b, In b apps -> JS.startsWith filePath (Apps.fullPath (Apps.baseOf b)) = false) ->
  handleFileChanges apps filePath now modifiedTimes = modifiedTimes.
Proof.
  intros Hnone. induction apps as [| b apps IH]; simpl; [reflexivity |].
  rewrite (Hnone b (or_introl eq_refl)). apply IH. intros b' Hb'. apply Hnone. now right.
Qed.

End WatcherFacts.

(** X2.  A file change touches one directory at most: with no app whose
    [fullPath] starts the changed path the staleness map is left as it
    is; otherwise the first such app of the catalog gets the clock
    reading, which forces its entries created earlier to be refreshed,
    and the answer of [getForceFreshForDir] for every other directory is
    what it was. *)
Theorem handleFileChanges_touches_one :
  forall (before after : list Apps.App) (app : Apps.App) (filePath : string) (now : Z)
         (modifiedTimes : gmap string Z),
    (forall b, In b before ->
               JS.startsWith filePath (Apps.fullPath (Apps.baseOf b)) = false) ->
    (JS.startsWith filePath (Apps.fullPath (Apps.baseOf app)) = true ->
     let touched := Apps.fullPath (Apps.baseOf app) in
     let modifiedTimes' :=
       Tracker.handleFileChanges (before ++ app :: after) filePath now modifiedTimes in
     modifiedTimes' = <[touched := now]> modifiedTimes
     /\ (forall (V : Type) (e : Staleness.CacheEntry V),
           Path.isAbsolute touched = true ->
           0 <= Staleness.createdTime (Staleness.metadata e) < now ->
           Staleness.getForceFreshForDir modifiedTimes' touched (Some e)
           = Returned (Some true))
     /\ (forall (V : Type) (dir : string) (entry : option (Staleness.CacheEntry V)),
           dir <> touched ->
           Staleness.getForceFreshForDir modifiedTimes' dir entry
           = Staleness.getForceFreshForDir modifiedTimes dir entry))
    /\ (Tracker.handleFileChanges before filePath now modifiedTimes = modifiedTimes).
Proof.
  intros before after app filePath now modifiedTimes Hbefore.
  split; [| now apply handleFileChanges_none].
  intros Happ touched modifiedTimes'.
  assert (Heq : modifiedTimes' = <[touched := now]> modifiedTimes)
    by (now apply handleFileChanges_first).
  split; [exact Heq |]. rewrite Heq. split.
  - intros V e Habs [Hpos Hlt]. unfold Staleness.getForceFreshForDir.
    rewrite Habs, lookup_insert_eq. simpl.
    destruct (Z.eqb_spec now 0); [lia |].
    destruct (Z.ltb_spec (Staleness.createdTime (Staleness.metadata e)) now);
      [reflexivity | lia].
  - intros V dir entry Hne. unfold Staleness.getForceFreshForDir.
    rewrite lookup_insert_ne by congruence. reflexivity.
Qed.

Lemma handleFileChanges_touches_one_witness :
  Tracker.handleFileChanges
    [Sample.playgroundApp; Sample.exampleApp "a"; Sample.exampleApp "ab"]
    "/w/ab/index.tsx" 170 ∅
  = <["/w/a" := 170]> ∅
  /\ Staleness.getForceFreshForDir
       (Tracker.handleFileChanges
          [Sample.playgroundApp; Sample.exampleApp "a"; Sample.exampleApp "ab"]
          "/w/ab/index.tsx" 170 ∅)
       "/w/a" (Some Sample.staleEntry)
     = Returned (Some true).
Proof.
  destruct (handleFileChanges_touches_one [Sample.playgroundApp] [Sample.exampleApp "ab"]
              (Sample.exampleApp "a") "/w/ab/index.tsx" 170 ∅) as [Hfirst _].
  - intros b [<- | []]. reflexivity.
  - destruct (Hfirst eq_refl) as (Heq & Hstale & _).
    split; [exact Heq |].
    apply (Hstale string Sample.staleEntry); [reflexivity | simpl; lia].
Defined.

(** ** What the classifier hands out *)

Section NumberFacts.

Import Classifier.

Lemma digitValue_nonneg (c : ascii) : isDigit c = true -> 0 <= digitValue c <= 9.
Proof.
  unfold isDigit, digitValue. intros H. apply andb_true_iff in H as [Hlo Hhi].
  apply N.leb_le in Hlo, Hhi. lia.
Qed.

Lemma decimalValue_nonneg (digits : string) :
  allChars isDigit digits = true ->
  forall acc, 0 <= acc -> 0 <= decimalValue acc digits.
Proof.
  induction digits as [| c digits IH]; simpl; intros H acc Hacc; [exact Hacc |].
  apply andb_true_iff in H as [Hc Hrest].
  apply IH; [exact Hrest |]. pose proof (digitValue_nonneg c Hc). lia.
Qed.

Lemma roundToDouble_nonneg (v n : Z) :
  0 <= v -> roundToDouble v = Finite n -> 0 <= n.
Proof.
  unfold roundToDouble. intros Hv.
  destruct (v <? 2 ^ 53); [intros H; injection H as <-; exact Hv |].
  set (e := Z.log2 v - 52). set (q := Z.shiftr v e).
  assert (Hq : 0 <= q) by (apply Z.shiftr_nonneg; exact Hv).
  match goal with
  | |- (if _ <=? Z.shiftl ?q' e then _ else _) = _ -> _ =>
      assert (Hq' : 0 <= q')
  end.
  { destruct (_ <? _); [exact Hq |]. destruct (_ <? _); [lia |].
    destruct (Z.even q); lia. }
  destruct (_ <=? _); [discriminate |].
  intros H. injection H as <-. now apply Z.shiftl_nonneg.
Qed.

Lemma Number_nonneg (digits : string) (n : Z) :
  allChars isDigit digits = true -> Number digits = Finite n -> 0 <= n.
Proof.
  intros Hd. apply roundToDouble_nonneg. apply decimalValue_nonneg; [exact Hd | lia].
Qed.

Lemma getAppDirInfo_returned (name : string) (log : list string) (info : AppDirInfo) :
  getAppDirInfo name = (log, Returned (Some info)) ->
  log = []
  /\ exists digits,
       matchesStepPattern name digits (type info) (subtitle info)
       /\ Number digits = Finite (stepNumber info)
       /\ 1 <= stepNumber info.
Proof.
  unfold getAppDirInfo. intros H.
  destruct (regexExec name) as [m |] eqn:Em; [| discriminate].
  pose proof (regexExec_sound name m Em) as Hm.
  destruct (Number (groupStepNumber m)) as [n |] eqn:En; [| discriminate].
  destruct (Z.eqb_spec n 0) as [| Hne]; [discriminate |].
  injection H as <- <-. simpl. split; [reflexivity |].
  exists (groupStepNumber m). split; [exact Hm |]. split; [exact En |].
  destruct Hm as (_ & _ & Hdigits & _).
  pose proof (Number_nonneg _ _ Hdigits En). lia.
Qed.

Lemma extractExerciseNumber_some (dir : string) (n : JSNumber) :
  extractExerciseNumber dir = Some n ->
  exists digits rest,
    dir = digits +:+ "." +:+ rest /\ digits <> EmptyString
    /\ allChars isDigit digits = true /\ n = Number digits.
Proof.
  unfold extractExerciseNumber. intros H.
  pose proof (takeWhile_dropWhile isDigit dir) as Hsplit.
  pose proof (allChars_takeWhile isDigit dir) as Hdigits.
  destruct (Path.takeWhile isDigit dir) as [| d digits]; [discriminate |].
  destruct (Path.dropWhile isDigit dir) as [| c rest]; [discriminate |].
  destruct (Ascii.eqb c ".") eqn:Ec; [| discriminate].
  apply Ascii.eqb_eq in Ec. subst c. injection H as <-.
  exists (String d digits), rest. repeat split; [exact Hsplit | discriminate | exact Hdigits].
Qed.

Lemma extractExerciseNumber_complete (digits rest : string) :
  digits <> EmptyString -> allChars isDigit digits = true ->
  extractExerciseNumber (digits +:+ "." +:+ rest) = Some (Number digits).
Proof.
  intros Hne Hdigits. unfold extractExerciseNumber.
  destruct (takeWhile_stop isDigit digits "." rest Hdigits eq_refl) as [Htake Hdrop].
  change (digits +:+ "." +:+ rest) with (digits +:+ String "." rest).
  rewrite Htake, Hdrop. destruct digits; [congruence | reflexivity].
Qed.

Lemma classified_leading_number (name : string) (log : list string) (info : AppDirInfo) :
  getAppDirInfo name = (log, Returned (Some info)) ->
  extractExerciseNumber name = Some (Finite (stepNumber info)).
Proof.
  intros H. apply getAppDirInfo_returned in H as (_ & digits & Hm & Hn & _).
  destruct Hm as (-> & Hne & Hd & _).
  rewrite (extractExerciseNumber_complete digits _ Hne Hd). now rewrite Hn.
Qed.

End NumberFacts.

(** X3.  [extractExerciseNumber] answers exactly for the names that
    start with digits followed by a dot, with the number those digits
    read as, and [null] for every other name; on a name that
    [getAppDirInfo] classifies it reads the very number [getAppDirInfo]
    gives as [stepNumber]. *)
Theorem extractExerciseNumber_reads_leading_digits :
  (forall digits rest,
      digits <> EmptyString -> Classifier.allChars Classifier.isDigit digits = true ->
      Classifier.extractExerciseNumber (digits +:+ "." +:+ rest)
      = Some (Classifier.Number digits))
  /\ (forall dir,
        (forall digits rest,
            Classifier.allChars Classifier.isDigit digits = true ->
            digits <> EmptyString -> dir <> digits +:+ "." +:+ rest) ->
        Classifier.extractExerciseNumber dir = None)
  /\ (forall name log info,
        Classifier.getAppDirInfo name = (log, Returned (Some info)) ->
        Classifier.extractExerciseNumber name
        = Some (Classifier.Finite (Classifier.stepNumber info))).
Proof.
  split; [exact extractExerciseNumber_complete |]. split.
  - intros dir Hno. destruct (Classifier.extractExerciseNumber dir) as [n |] eqn:E;
      [| reflexivity].
    apply extractExerciseNumber_some in E as (digits & rest & Hdir & Hne & Hd & _).
    exfalso. exact (Hno digits rest Hd Hne Hdir).
  - exact classified_leading_number.
Qed.

Lemma extractExerciseNumber_reads_leading_digits_witness :
  Classifier.extractExerciseNumber "02.next" = Some (Classifier.Finite 2)
  /\ Classifier.extractExerciseNumber "README.mdx" = None
  /\ Classifier.extractExerciseNumber "07.solution.forms" = Some (Classifier.Finite 7).
Proof.
  destruct extractExerciseNumber_reads_leading_digits as (Hsome & Hnone & Hstep).
  split; [| split].
  - apply (Hsome "02"%string "next"%string); [discriminate | reflexivity].
  - apply Hnone. intros digits rest Hd Hne Heq.
    pose proof (extractExerciseNumber_complete digits rest Hne Hd) as H.
    rewrite <- Heq in H. discriminate H.
  - apply (Hstep "07.solution.forms"%string []
             {| Classifier.stepNumber := 7; Classifier.type := Classifier.solution;
                Classifier.subtitle := Some "forms"%string |}).
    reflexivity.
Defined.

Section BuilderInvariants.

Import Apps.

Variable env : Env.

Lemma extractExerciseNumber_positive (dir : string) (n : Z) :
  Classifier.extractExerciseNumber dir = Some (Classifier.Finite n) -> n <> 0 -> 1 <= n.
Proof.
  intros H Hne. apply extractExerciseNumber_some in H as (digits & rest & _ & _ & Hd & Hn).
  symmetry in Hn. pose proof (Number_nonneg digits n Hd Hn). lia.
Qed.

Lemma problem_fields (fullPath : string) (app : ProblemApp) :
  getProblemAppFromPath env fullPath = Returned (Some app) ->
  let fields := problemStep app in
  1 <= exerciseNumber fields /\ 1 <= stepNumber fields
  /\ Classifier.extractExerciseNumber (Path.basename (Path.dirname fullPath))
     = Some (Classifier.Finite (exerciseNumber fields))
  /\ Classifier.extractExerciseNumber (Path.basename fullPath)
     = Some (Classifier.Finite (stepNumber fields))
  /\ Apps.fullPath (base fields) = fullPath
  /\ dirName (base fields) = Path.basename fullPath
  /\ name (base fields) = getAppName env fullPath.
Proof.
  unfold getProblemAppFromPath. intros H.
  destruct (Classifier.extractExerciseNumber _) as [[e |] |] eqn:Ee; try discriminate.
  destruct (Z.eqb_spec e 0) as [| Hne]; [discriminate |].
  destruct (Classifier.getAppDirInfo (Path.basename fullPath)) as [log r] eqn:Einfo.
  simpl in H. destruct r as [[info |] | m |]; simpl in H; try discriminate.
  apply bind_returned in H as (compiled & _ & H).
  apply bind_returned in H as (solutionDir & _ & H).
  apply bind_returned in H as ([t d] & _ & H).
  injection H as <-. simpl.
  pose proof (getAppDirInfo_returned _ _ _ Einfo) as (_ & digits & _ & _ & Hstep).
  repeat split; try assumption.
  - exact (extractExerciseNumber_positive _ _ Ee Hne).
  - exact (classified_leading_number _ _ _ Einfo).
Qed.

Lemma solution_fields (fullPath : string) (app : SolutionApp) :
  getSolutionAppFromPath env fullPath = Returned (Some app) ->
  let fields := solutionStep app in
  1 <= exerciseNumber fields /\ 1 <= stepNumber fields
  /\ Classifier.extractExerciseNumber (Path.basename (Path.dirname fullPath))
     = Some (Classifier.Finite (exerciseNumber fields))
  /\ Classifier.extractExerciseNumber (Path.basename fullPath)
     = Some (Classifier.Finite (stepNumber fields))
  /\ Apps.fullPath (base fields) = fullPath
  /\ dirName (base fields) = Path.basename fullPath
  /\ name (base fields) = getAppName env fullPath.
Proof.
  unfold getSolutionAppFromPath. intros H.
  destruct (Classifier.extractExerciseNumber _) as [[e |] |] eqn:Ee; try discriminate.
  destruct (Z.eqb_spec e 0) as [| Hne]; [discriminate |].
  destruct (Classifier.getAppDirInfo (Path.basename fullPath)) as [log r] eqn:Einfo.
  simpl in H. destruct r as [[info |] | m |]; simpl in H; try discriminate.
  apply bind_returned in H as (compiled & _ & H).
  apply bind_returned in H as (problemDir & _ & H).
  apply bind_returned in H as ([t d] & _ & H).
  injection H as <-. simpl.
  pose proof (getAppDirInfo_returned _ _ _ Einfo) as (_ & digits & _ & _ & Hstep).
  repeat split; try assumption.
  - exact (extractExerciseNumber_positive _ _ Ee Hne).
  - exact (classified_leading_number _ _ _ Einfo).
Qed.

End BuilderInvariants.

(** X4.  A record returned by [getAppDirInfo] was read off the name:
    nothing is logged, the name has the form
    [<digits>.(problem|solution)(.<subtitle>)?] with the record's type
    and subtitle, and [stepNumber] is the number the digits read as,
    which is at least 1. *)
Theorem getAppDirInfo_record_read_off_name :
  forall (name : string) (log : list string) (info : Classifier.AppDirInfo),
    Classifier.getAppDirInfo name = (log, Returned (Some info)) ->
    log = []
    /\ 1 <= Classifier.stepNumber info
    /\ exists digits,
         Classifier.matchesStepPattern name digits (Classifier.type info)
           (Classifier.subtitle info)
         /\ Classifier.Number digits = Classifier.Finite (Classifier.stepNumber info).
Proof.
  intros name log info H.
  apply getAppDirInfo_returned in H as (Hlog & digits & Hm & Hn & Hpos).
  split; [exact Hlog |]. split; [exact Hpos |]. exists digits. split; assumption.
Qed.

Lemma getAppDirInfo_record_read_off_name_witness :
  1 <= 12
  /\ exists digits,
       Classifier.matchesStepPattern "12.solution.forms" digits Classifier.solution
         (Some "forms"%string)
       /\ Classifier.Number digits = Classifier.Finite 12.
Proof.
  apply (getAppDirInfo_record_read_off_name "12.solution.forms" []
           {| Classifier.stepNumber := 12; Classifier.type := Classifier.solution;
              Classifier.subtitle := Some "forms"%string |}).
  reflexivity.
Defined.

(** X5.  A problem or solution app that a builder returns has an
    [exerciseNumber] and a [stepNumber] of at least 1, the first read
    from the leading digits of the parent directory's name and the second
    from those of its own directory's name; its [fullPath] is the path it
    was built from, its [dirName] the last segment of that path and its
    [name] the app name of that path. *)
Theorem built_step_apps_are_numbered :
  forall (env : Apps.Env) (fullPath : string),
    (forall app,
        Apps.getProblemAppFromPath env fullPath = Returned (Some app) ->
        let fields := Apps.problemStep app in
        1 <= Apps.exerciseNumber fields /\ 1 <= Apps.stepNumber fields
        /\ Classifier.extractExerciseNumber (Path.basename (Path.dirname fullPath))
           = Some (Classifier.Finite (Apps.exerciseNumber fields))
        /\ Classifier.extractExerciseNumber (Path.basename fullPath)
           = Some (Classifier.Finite (Apps.stepNumber fields))
        /\ Apps.fullPath (Apps.base fields) = fullPath
        /\ Apps.dirName (Apps.base fields) = Path.basename fullPath
        /\ Apps.name (Apps.base fields) = Apps.getAppName env fullPath)
    /\ (forall app,
          Apps.getSolutionAppFromPath env fullPath = Returned (Some app) ->
          let fields := Apps.solutionStep app in
          1 <= Apps.exerciseNumber fields /\ 1 <= Apps.stepNumber fields
          /\ Classifier.extractExerciseNumber (Path.basename (Path.dirname fullPath))
             = Some (Classifier.Finite (Apps.exerciseNumber fields))
          /\ Classifier.extractExerciseNumber (Path.basename fullPath)
             = Some (Classifier.Finite (Apps.stepNumber fields))
          /\ Apps.fullPath (Apps.base fields) = fullPath
          /\ Apps.dirName (Apps.base fields) = Path.basename fullPath
          /\ Apps.name (Apps.base fields) = Apps.getAppName env fullPath).
Proof.
  intros env fullPath. split; intros app H.
  - exact (problem_fields env fullPath app H).
  - exact (solution_fields env fullPath app H).
Qed.

Lemma built_step_apps_are_numbered_witness :
  exists app,
    Apps.getProblemAppFromPath Sample.workshop "/w/exercises/02.next/11.problem"
    = Returned (Some app)
    /\ 1 <= Apps.exerciseNumber (Apps.problemStep app)
    /\ 1 <= Apps.stepNumber (Apps.problemStep app)
    /\ Apps.name (Apps.base (Apps.problemStep app))
       = "exercises__sep__02.next__sep__11.problem"%string.
Proof.
  eexists. split; [vm_compute; reflexivity |].
  destruct (built_step_apps_are_numbered Sample.workshop "/w/exercises/02.next/11.problem")
    as [Hproblem _].
  edestruct Hproblem as (He & Hs & _); [vm_compute; reflexivity |].
  split; [exact He |]. split; [exact Hs | reflexivity].
Defined.

(** ** Walking the exercise steps of the catalog *)

Section NavigationFacts.

Import Apps Navigation.

Lemma findIndex_None {A : Type} (f : A -> bool) (l : list A) :
  findIndex f l = None <-> forall x, In x l -> f x = false.
Proof.
  induction l as [| y l IH]; simpl.
  - split; [intros _ x [] | reflexivity].
  - destruct (f y) eqn:Hy.
    + split; [discriminate |]. intros H. rewrite (H y (or_introl eq_refl)) in Hy. discriminate.
    + destruct (findIndex f l) as [i |]; simpl.
      * split; [discriminate |]. intros H.
        assert (Hnone : @None nat = None) by reflexivity.
        destruct IH as [_ IH]. discriminate IH. intros x Hx. apply H. now right.
      * split; [| reflexivity]. intros _ x [<- | Hx]; [exact Hy |].
        destruct IH as [IH _]. now apply IH.
Qed.

Lemma findIndex_Some {A : Type} (f : A -> bool) (l : list A) (i : nat) :
  findIndex f l = Some i -> exists x, nth_error l i = Some x /\ f x = true.
Proof.
  revert i. induction l as [| y l IH]; intros i; simpl; [discriminate |].
  destruct (f y) eqn:Hy.
  - intros H. injection H as <-. exists y. split; [reflexivity | exact Hy].
  - destruct (findIndex f l) as [j |]; simpl; [| discriminate].
    intros H. injection H as <-. exact (IH j eq_refl).
Qed.

Lemma findIndex_nth {A : Type} (key : A -> string) (l : list A) :
  List.NoDup (map key l) ->
  forall i x, nth_error l i = Some x ->
              findIndex (fun a => String.eqb (key a) (key x)) l = Some i.
Proof.
  induction l as [| y l IH]; intros Hnd i x Hnth.
  - destruct i; discriminate.
  - inversion Hnd as [| k ks Hnotin Hnd' Heq]; subst. destruct i as [| i]; simpl in *.
    + injection Hnth as <-. now rewrite String.eqb_refl.
    + destruct (String.eqb_spec (key y) (key x)) as [Heq | _].
      * exfalso. apply Hnotin. rewrite Heq. apply in_map. eapply nth_error_In; eauto.
      * rewrite (IH Hnd' i x Hnth). reflexivity.
Qed.

Lemma exerciseStepApps_In (catalog : list App) (a : ExerciseStepApp) :
  In a (exerciseStepApps catalog) <-> In (stepApp a) catalog.
Proof.
  induction catalog as [| c catalog IH]; simpl; [tauto |].
  destruct c as [p | s | e | g]; simpl; rewrite IH; destruct a as [p' | s']; simpl;
    intuition (try discriminate; try congruence).
Qed.

Lemma neighbours_at (catalog : list App) (i : nat) (app : ExerciseStepApp) :
  List.NoDup (map stepName (exerciseStepApps catalog)) ->
  nth_error (exerciseStepApps catalog) i = Some app ->
  getNextExerciseApp catalog app = Returned (nth_error (exerciseStepApps catalog) (S i))
  /\ getPrevExerciseApp catalog app
     = Returned (match i with
                 | O => None
                 | S j => nth_error (exerciseStepApps catalog) j
                 end).
Proof.
  intros Hnd Hnth. unfold getNextExerciseApp, getPrevExerciseApp.
  rewrite (findIndex_nth stepName _ Hnd i app Hnth). split; [reflexivity |].
  destruct i; reflexivity.
Qed.

Lemma neighbours_unknown (catalog : list App) (app : ExerciseStepApp) :
  findIndex (fun a => String.eqb (stepName a) (stepName app)) (exerciseStepApps catalog) = None
  <-> forall a, In (stepApp a) catalog -> stepName a <> stepName app.
Proof.
  rewrite findIndex_None. split.
  - intros H a Ha Heq. apply exerciseStepApps_In in Ha. specialize (H a Ha). simpl in H.
    rewrite Heq, String.eqb_refl in H. discriminate.
  - intros H a Ha. apply exerciseStepApps_In in Ha. specialize (H a Ha).
    now apply String.eqb_neq.
Qed.

End NavigationFacts.

(** X6.  [getNextExerciseApp] and [getPrevExerciseApp] throw
    [Could not find app <name>] when no problem or solution app of the
    catalog has the name of the app they are given; when one has, both
    return; and an app they return is a problem or solution app of the
    catalog. *)
Theorem exercise_neighbours_need_a_known_name :
  forall (catalog : list Apps.App) (app : Navigation.ExerciseStepApp),
    ((forall a, In (Navigation.stepApp a) catalog ->
                Navigation.stepName a <> Navigation.stepName app) ->
     Navigation.getNextExerciseApp catalog app
       = Thrown (Navigation.couldNotFind (Navigation.stepName app))
     /\ Navigation.getPrevExerciseApp catalog app
        = Thrown (Navigation.couldNotFind (Navigation.stepName app)))
    /\ ((exists a, In (Navigation.stepApp a) catalog
                   /\ Navigation.stepName a = Navigation.stepName app) ->
        (exists next, Navigation.getNextExerciseApp catalog app = Returned next)
        /\ (exists prev, Navigation.getPrevExerciseApp catalog app = Returned prev))
    /\ (forall neighbour,
          Navigation.getNextExerciseApp catalog app = Returned (Some neighbour)
          \/ Navigation.getPrevExerciseApp catalog app = Returned (Some neighbour) ->
          In (Navigation.stepApp neighbour) catalog).
Proof.
  intros catalog app.
  pose proof (neighbours_unknown catalog app) as Hunknown.
  unfold Navigation.getNextExerciseApp, Navigation.getPrevExerciseApp.
  destruct (Navigation.findIndex _ (Navigation.exerciseStepApps catalog)) as [i |] eqn:Hi.
  - split; [intros H; apply Hunknown in H; discriminate |].
    split.
    + intros _. split; [eexists; reflexivity | destruct i; eexists; reflexivity].
    + intros neighbour [H | H]; apply exerciseStepApps_In.
      * injection H as H. exact (nth_error_In _ (S i) H).
      * destruct i as [| i]; [discriminate |]. injection H as H. exact (nth_error_In _ i H).
  - assert (Hnone : forall a, In (Navigation.stepApp a) catalog ->
                              Navigation.stepName a <> Navigation.stepName app)
      by (now apply Hunknown).
    split; [intros _; split; reflexivity |].
    split; [intros (a & Ha & Heq); destruct (Hnone a Ha Heq) |].
    intros neighbour [H | H]; discriminate.
Qed.

(** X7.  When the problem and solution apps of the catalog have names
    that differ from one another, the two functions walk them in catalog
    order one at a time: for the app at position [i], the next one is
    the app at position [i + 1] and [null] at the end, the previous one
    the app at position [i - 1] and [null] at the start. *)
Theorem exercise_neighbours_follow_catalog_order :
  forall (catalog : list Apps.App) (i : nat) (app : Navigation.ExerciseStepApp),
    List.NoDup (map Navigation.stepName (Navigation.exerciseStepApps catalog)) ->
    nth_error (Navigation.exerciseStepApps catalog) i = Some app ->
    Navigation.getNextExerciseApp catalog app
      = Returned (nth_error (Navigation.exerciseStepApps catalog) (S i))
    /\ Navigation.getPrevExerciseApp catalog app
       = Returned (match i with
                   | O => None
                   | S j => nth_error (Navigation.exerciseStepApps catalog) j
                   end)
    /\ (S i = List.length (Navigation.exerciseStepApps catalog) ->
        Navigation.getNextExerciseApp catalog app = Returned None).
Proof.
  intros catalog i app Hnd Hnth.
  destruct (neighbours_at catalog i app Hnd Hnth) as [Hnext Hprev].
  split; [exact Hnext |]. split; [exact Hprev |].
  intros Hlast. rewrite Hnext. f_equal. apply nth_error_None. lia.
Qed.

Lemma exercise_neighbours_follow_catalog_order_witness :
  match Sample.catalogExpected with
  | Apps.Problem p :: Apps.Solution s :: _ =>
      Navigation.getNextExerciseApp Sample.catalogExpected (inl p) = Returned (Some (inr s))
      /\ Navigation.getPrevExerciseApp Sample.catalogExpected (inl p) = Returned None
  | _ => False
  end.
Proof.
  simpl.
  assert (Hnd : List.NoDup (map Navigation.stepName
                         (Navigation.exerciseStepApps Sample.catalogExpected))).
  { simpl. repeat constructor; simpl; intuition discriminate. }
  match goal with
  | |- Navigation.getNextExerciseApp _ ?a = _ /\ _ =>
      destruct (exercise_neighbours_follow_catalog_order Sample.catalogExpected 0 a Hnd
                  eq_refl) as (Hnext & Hprev & _)
  end.
  split; [exact Hnext | exact Hprev].
Defined.

(** X8.  With names that differ from one another, going to the next
    exercise step and back, or to the previous one and forth, gives the
    app one started from, for every problem or solution app of the
    catalog. *)
Theorem next_and_prev_are_inverse :
  forall (catalog : list Apps.App) (a b : Navigation.ExerciseStepApp),
    List.NoDup (map Navigation.stepName (Navigation.exerciseStepApps catalog)) ->
    In (Navigation.stepApp a) catalog ->
    (Navigation.getNextExerciseApp catalog a = Returned (Some b) ->
     Navigation.getPrevExerciseApp catalog b = Returned (Some a))
    /\ (Navigation.getPrevExerciseApp catalog a = Returned (Some b) ->
        Navigation.getNextExerciseApp catalog b = Returned (Some a)).
Proof.
  intros catalog a b Hnd Ha.
  apply exerciseStepApps_In, In_nth_error in Ha as [i Hi].
  destruct (neighbours_at catalog i a Hnd Hi) as [Hnext Hprev].
  split; intros H.
  - rewrite Hnext in H. injection H as H.
    destruct (neighbours_at catalog (S i) b Hnd H) as [_ Hback].
    rewrite Hback. f_equal. exact Hi.
  - rewrite Hprev in H. destruct i as [| j]; [discriminate |]. injection H as H.
    destruct (neighbours_at catalog j b Hnd H) as [Hforth _].
    rewrite Hforth. f_equal. exact Hi.
Qed.

Lemma next_and_prev_are_inverse_witness :
  match Sample.catalogExpected with
  | Apps.Problem p :: Apps.Solution s :: _ =>
      Navigation.getNextExerciseApp Sample.catalogExpected (inl p) = Returned (Some (inr s))
      /\ Navigation.getPrevExerciseApp Sample.catalogExpected (inr s) = Returned (Some (inl p))
  | _ => False
  end.
Proof.
  simpl.
  assert (Hnd : List.NoDup (map Navigation.stepName
                         (Navigation.exerciseStepApps Sample.catalogExpected))).
  { simpl. repeat constructor; simpl; intuition discriminate. }
  match goal with
  | |- Navigation.getNextExerciseApp _ ?a = Returned (Some ?b) /\ _ =>
      assert (Hnext : Navigation.getNextExerciseApp Sample.catalogExpected a
                      = Returned (Some b)) by reflexivity;
      destruct (next_and_prev_are_inverse Sample.catalogExpected a b Hnd) as [Hback _];
        [simpl; left; reflexivity |]
  end.
  split; [exact Hnext | exact (Hback Hnext)].
Defined.

(** ** Routes and step ids *)

Section RouteFacts.

Import Apps Navigation.

Lemma decimalValue_of_uint_acc (d : Decimal.uint) :
  forall acc : positive,
    Classifier.decimalValue (Z.pos acc) (NilEmpty.string_of_uint d)
    = Z.pos (Pos.of_uint_acc d acc).
Proof.
  induction d as [| d IH | d IH | d IH | d IH | d IH | d IH | d IH | d IH | d IH | d IH];
    intros acc;
    cbn [Classifier.decimalValue NilEmpty.string_of_uint Pos.of_uint_acc];
    [reflexivity | rewrite <- IH; f_equal; unfold Classifier.digitValue; cbn; lia ..].
Qed.

Lemma decimalValue_of_uint (d : Decimal.uint) :
  Classifier.decimalValue 0 (NilEmpty.string_of_uint d) = Z.of_N (Pos.of_uint d).
Proof.
  induction d as [| d IH | d IH | d IH | d IH | d IH | d IH | d IH | d IH | d IH | d IH];
    cbn [Classifier.decimalValue NilEmpty.string_of_uint Pos.of_uint];
    [reflexivity | exact IH | exact (decimalValue_of_uint_acc d _) ..].
Qed.

Lemma string_of_uint_digits (d : Decimal.uint) :
  Classifier.allChars Classifier.isDigit (NilEmpty.string_of_uint d) = true.
Proof.
  induction d as [| d IH | d IH | d IH | d IH | d IH | d IH | d IH | d IH | d IH | d IH];
    cbn [Classifier.allChars NilEmpty.string_of_uint];
    [reflexivity | rewrite IH; reflexivity ..].
Qed.

Lemma numberToString_digits (n : Z) :
  Classifier.allChars Classifier.isDigit (numberToString n) = true.
Proof.
  unfold numberToString, NilZero.string_of_uint.
  destruct (N.to_uint (Z.to_N n)); try reflexivity; apply string_of_uint_digits.
Qed.

Lemma numberToString_value (n : Z) :
  0 <= n -> Classifier.decimalValue 0 (numberToString n) = n.
Proof.
  intros Hn. unfold numberToString, NilZero.string_of_uint.
  transitivity (Z.of_N (N.of_uint (N.to_uint (Z.to_N n)))).
  - destruct (N.to_uint (Z.to_N n)) eqn:E; try reflexivity;
      rewrite <- E at 2; rewrite <- E in *; clear E; apply decimalValue_of_uint.
  - rewrite DecimalN.Unsigned.of_to. lia.
Qed.

Lemma numberToString_nonempty (n : Z) : (1 <= String.length (numberToString n))%nat.
Proof.
  unfold numberToString, NilZero.string_of_uint.
  destruct (N.to_uint (Z.to_N n)); simpl; lia.
Qed.

Lemma length_zeros (k : nat) : String.length (JS.zeros k) = k.
Proof. induction k as [| k IH]; simpl; [reflexivity | now rewrite IH]. Qed.

Lemma padStart0_length (k : nat) (s : string) :
  (k <= String.length (JS.padStart0 k s))%nat.
Proof. unfold JS.padStart0. rewrite length_append, length_zeros. lia. Qed.

Lemma padStart0_long (k : nat) (s : string) :
  (k <= String.length s)%nat -> JS.padStart0 k s = s.
Proof.
  intros H. unfold JS.padStart0. replace (k - String.length s)%nat with O by lia. reflexivity.
Qed.

Lemma padStart0_value (k : nat) (s : string) :
  Classifier.decimalValue 0 (JS.padStart0 k s) = Classifier.decimalValue 0 s.
Proof.
  unfold JS.padStart0. induction (k - String.length s)%nat as [| z IH]; [reflexivity |].
  exact IH.
Qed.

Lemma padStart0_digits (k : nat) (s : string) :
  Classifier.allChars Classifier.isDigit s = true ->
  Classifier.allChars Classifier.isDigit (JS.padStart0 k s) = true.
Proof.
  intros Hs. unfold JS.padStart0. induction (k - String.length s)%nat as [| z IH];
    [exact Hs |]. cbn [JS.zeros String.append Classifier.allChars]. rewrite IH. reflexivity.
Qed.

Lemma digits_noSep (s : string) :
  Classifier.allChars Classifier.isDigit s = true -> Names.noSep s = true.
Proof.
  unfold Names.noSep. induction s as [| c s IH]; simpl; [reflexivity |].
  intros H. apply andb_true_iff in H as [Hc Hs]. rewrite (IH Hs), andb_true_r.
  apply negb_true_iff, Ascii.eqb_neq. intros ->. discriminate.
Qed.

Lemma route_segment (n : Z) :
  0 <= n < 2 ^ 53 ->
  let segment := JS.padStart0 2 (numberToString n) in
  Classifier.allChars Classifier.isDigit segment = true
  /\ (2 <= String.length segment)%nat
  /\ Classifier.Number segment = Classifier.Finite n.
Proof.
  intros Hn segment. subst segment. split; [| split].
  - apply padStart0_digits, numberToString_digits.
  - apply padStart0_length.
  - unfold Classifier.Number. rewrite padStart0_value, numberToString_value by lia.
    unfold Classifier.roundToDouble. destruct (Z.ltb_spec n (2 ^ 53)); [reflexivity | lia].
Qed.

End RouteFacts.

(** X9.  The route of a problem or solution app reads back as the app:
    for numbers that are exact in a double the route has the three
    segments [exerciseNumber], [stepNumber] and [type] behind its leading
    [/], the first two are strings of at least two decimal digits, and
    [Number] of them gives the app's [exerciseNumber] and [stepNumber]
    again. *)
Theorem getAppPageRoute_reads_back :
  forall app : Navigation.ExerciseStepApp,
    0 <= Apps.exerciseNumber (Navigation.stepFields app) < 2 ^ 53 ->
    0 <= Apps.stepNumber (Navigation.stepFields app) < 2 ^ 53 ->
    exists exerciseSegment stepSegment,
      JS.split Path.sepChar (Navigation.getAppPageRoute app)
      = [EmptyString; exerciseSegment; stepSegment;
         Classifier.typeName (Navigation.stepType app)]
      /\ Classifier.allChars Classifier.isDigit exerciseSegment = true
      /\ Classifier.allChars Classifier.isDigit stepSegment = true
      /\ (2 <= String.length exerciseSegment)%nat
      /\ (2 <= String.length stepSegment)%nat
      /\ Classifier.Number exerciseSegment
         = Classifier.Finite (Apps.exerciseNumber (Navigation.stepFields app))
      /\ Classifier.Number stepSegment
         = Classifier.Finite (Apps.stepNumber (Navigation.stepFields app)).
Proof.
  intros app Hex Hstep.
  destruct (route_segment _ Hex) as (Hd1 & Hl1 & Hn1).
  destruct (route_segment _ Hstep) as (Hd2 & Hl2 & Hn2).
  exists (JS.padStart0 2
            (Apps.numberToString (Apps.exerciseNumber (Navigation.stepFields app)))),
    (JS.padStart0 2 (Apps.numberToString (Apps.stepNumber (Navigation.stepFields app)))).
  split; [| repeat split; assumption].
  set (exerciseSegment :=
         JS.padStart0 2
           (Apps.numberToString (Apps.exerciseNumber (Navigation.stepFields app)))) in *.
  set (stepSegment :=
         JS.padStart0 2
           (Apps.numberToString (Apps.stepNumber (Navigation.stepFields app)))) in *.
  assert (Hroute : Navigation.getAppPageRoute app
                   = EmptyString
                     +:+ String Path.sepChar
                           (exerciseSegment
                            +:+ String Path.sepChar
                                  (stepSegment
                                   +:+ String Path.sepChar
                                         (Classifier.typeName (Navigation.stepType app)))))
    by reflexivity.
  rewrite Hroute, split_segment by reflexivity. f_equal.
  rewrite split_segment by (apply digits_noSep; exact Hd1). f_equal.
  rewrite split_segment by (apply digits_noSep; exact Hd2). f_equal.
  apply split_noSep. destruct (Navigation.stepType app); reflexivity.
Qed.

Lemma getAppPageRoute_reads_back_witness :
  match Sample.problemApp 3 12 with
  | Apps.Problem p =>
      Navigation.getAppPageRoute (inl p) = "/03/12/problem"%string
      /\ exists exerciseSegment stepSegment,
           JS.split Path.sepChar (Navigation.getAppPageRoute (inl p))
           = [EmptyString; exerciseSegment; stepSegment; "problem"%string]
           /\ Classifier.Number exerciseSegment = Classifier.Finite 3
           /\ Classifier.Number stepSegment = Classifier.Finite 12
  | _ => False
  end.
Proof.
  cbv beta iota delta [Sample.problemApp]. split; [reflexivity |].
  match goal with
  | |- exists e s, JS.split _ (Navigation.getAppPageRoute ?a) = _ /\ _ =>
      destruct (getAppPageRoute_reads_back a)
        as (first & second & Hsplit & _ & _ & _ & _ & Hfirst & Hsecond);
        [simpl; lia | simpl; lia |]
  end.
  exists first, second. split; [exact Hsplit |]. split; [exact Hfirst | exact Hsecond].
Defined.

(** X10.  [getStepId] orders problem and solution apps as the workshop
    does, as long as step numbers stay below 100 and exercise numbers
    are at most [9007199254740], so that the id stays below [2^53] and
    the runtime computes it exactly: by exercise number, then by step
    number, then the problem before the solution; two such apps with the
    same id have the same exercise number, step number and type.  (With
    a step number of 100 or more the ids of two exercises overlap.) *)
Theorem getStepId_orders_steps :
  forall a b : Navigation.ExerciseStepApp,
    0 <= Apps.exerciseNumber (Navigation.stepFields a) <= 9007199254740 ->
    0 <= Apps.exerciseNumber (Navigation.stepFields b) <= 9007199254740 ->
    0 <= Apps.stepNumber (Navigation.stepFields a) < 100 ->
    0 <= Apps.stepNumber (Navigation.stepFields b) < 100 ->
    (Navigation.getStepId a = Navigation.getStepId b <->
     Apps.exerciseNumber (Navigation.stepFields a)
     = Apps.exerciseNumber (Navigation.stepFields b)
     /\ Apps.stepNumber (Navigation.stepFields a)
        = Apps.stepNumber (Navigation.stepFields b)
     /\ Navigation.stepType a = Navigation.stepType b)
    /\ (Navigation.getStepId a < Navigation.getStepId b <->
        Apps.exerciseNumber (Navigation.stepFields a)
        < Apps.exerciseNumber (Navigation.stepFields b)
        \/ (Apps.exerciseNumber (Navigation.stepFields a)
            = Apps.exerciseNumber (Navigation.stepFields b)
            /\ (Apps.stepNumber (Navigation.stepFields a)
                < Apps.stepNumber (Navigation.stepFields b)
                \/ (Apps.stepNumber (Navigation.stepFields a)
                    = Apps.stepNumber (Navigation.stepFields b)
                    /\ Navigation.stepType a = Classifier.problem
                    /\ Navigation.stepType b = Classifier.solution)))).
Proof.
  intros a b _ _ Ha Hb. unfold Navigation.getStepId.
  generalize dependent (Apps.stepNumber (Navigation.stepFields a)).
  generalize dependent (Apps.stepNumber (Navigation.stepFields b)).
  generalize (Apps.exerciseNumber (Navigation.stepFields a)).
  generalize (Apps.exerciseNumber (Navigation.stepFields b)).
  intros eb ea sb Hb sa Ha.
  destruct (Navigation.stepType a), (Navigation.stepType b); split; split; intros H;
    try (repeat split; (reflexivity || lia));
    try (destruct H as (H1 & H2 & H3); (discriminate || lia));
    try (destruct H as [H | [H1 [H | (H2 & H3 & H4)]]]; (discriminate || lia)).
  assert (Harith : ea < eb \/ (ea = eb /\ (sa < sb \/ sa = sb))) by lia.
  destruct Harith as [Hlt | [Heq [Hlt | Heq']]]; [now left | right; split; [exact Heq |] ..].
  - now left.
  - right. repeat split. exact Heq'.
Qed.

Lemma getStepId_orders_steps_witness :
  match Sample.problemApp 1 99, Sample.solutionApp 1 99, Sample.problemApp 2 1 with
  | Apps.Problem p, Apps.Solution s, Apps.Problem q =>
      Navigation.getStepId (inl p) < Navigation.getStepId (inr s)
      /\ Navigation.getStepId (inr s) < Navigation.getStepId (inl q)
  | _, _, _ => False
  end.
Proof.
  simpl. split.
  - match goal with
    | |- Navigation.getStepId ?a < Navigation.getStepId ?b =>
        apply (getStepId_orders_steps a b);
          [simpl; lia | simpl; lia | simpl; lia | simpl; lia |]
    end.
    right. split; [reflexivity |]. right. split; [reflexivity |]. split; reflexivity.
  - match goal with
    | |- Navigation.getStepId ?a < Navigation.getStepId ?b =>
        apply (getStepId_orders_steps a b);
          [simpl; lia | simpl; lia | simpl; lia | simpl; lia |]
    end.
    left. simpl. lia.
Defined.

(** ** Present users *)

Section PresenceFacts.

Variable User : Type.
Variable id : User -> string.

Let uniqueFrom := Presence.uniqueFrom User id.

Lemma uniqueFrom_In (users : list User) :
  forall (seen : gset string) (u : User),
    In u (uniqueFrom seen users) -> In u users /\ id u ∉ seen.
Proof.
  induction users as [| user rest IH]; intros seen u; simpl; [intros [] |].
  case_bool_decide as Hseen.
  - intros Hu. apply IH in Hu as [Hin Hnot]. split; [now right | exact Hnot].
  - intros [<- | Hu]; [split; [now left | exact Hseen] |].
    apply IH in Hu as [Hin Hnot]. split; [now right | set_solver].
Qed.

Lemma uniqueFrom_NoDup (users : list User) :
  forall seen : gset string, List.NoDup (map id (uniqueFrom seen users)).
Proof.
  induction users as [| user rest IH]; intros seen; simpl; [constructor |].
  case_bool_decide as Hseen; [apply IH |].
  simpl. constructor; [| apply IH].
  intros Hin. apply in_map_iff in Hin as (v & Hid & Hv).
  apply uniqueFrom_In in Hv as [_ Hnot]. set_solver.
Qed.

Lemma uniqueFrom_covers (users : list User) :
  forall (seen : gset string) (u : User),
    In u users -> id u ∉ seen ->
    exists v, In v (uniqueFrom seen users) /\ id v = id u.
Proof.
  induction users as [| user rest IH]; intros seen u; simpl; [intros [] |].
  intros [-> | Hu] Hnot.
  - rewrite bool_decide_eq_false_2 by exact Hnot. exists u. split; [now left | reflexivity].
  - case_bool_decide as Hseen; [now apply IH |].
    destruct (decide (id u = id user)) as [Heq | Hne].
    + exists user. split; [now left | now symmetry].
    + destruct (IH ({[id user]} ∪ seen) u Hu) as (v & Hv & Hid); [set_solver |].
      exists v. split; [now right | exact Hid].
Qed.

Lemma uniqueFrom_first (users : list User) :
  forall (seen : gset string) (u : User),
    In u (uniqueFrom seen users) ->
    find (fun v => String.eqb (id v) (id u)) users = Some u.
Proof.
  induction users as [| user rest IH]; intros seen u; simpl; [intros [] |].
  case_bool_decide as Hseen.
  - intros Hu. pose proof (uniqueFrom_In _ _ _ Hu) as [_ Hnot].
    destruct (String.eqb_spec (id user) (id u)) as [Heq | _]; [congruence |].
    exact (IH _ _ Hu).
  - intros [<- | Hu]; [now rewrite String.eqb_refl |].
    pose proof (uniqueFrom_In _ _ _ Hu) as [_ Hnot].
    destruct (String.eqb_spec (id user) (id u)) as [Heq | _]; [set_solver |].
    exact (IH _ _ Hu).
Qed.

Lemma uniqueFrom_distinct (users : list User) :
  forall seen : gset string,
    List.NoDup (map id users) -> (forall u, In u users -> id u ∉ seen) ->
    uniqueFrom seen users = users.
Proof.
  induction users as [| user rest IH]; intros seen Hnd Hnot; simpl; [reflexivity |].
  inversion Hnd as [| k ks Hfresh Hnd' Heq]; subst.
  rewrite bool_decide_eq_false_2 by (apply Hnot; now left).
  f_equal. apply IH; [exact Hnd' |].
  intros u Hu. assert (id u <> id user) by (intros Heq; apply Hfresh; rewrite <- Heq;
                                             now apply in_map).
  specialize (Hnot u (or_intror Hu)). set_solver.
Qed.

End PresenceFacts.

(** X11.  [uniqueUsers] shows every user once: no two of the users it
    returns have the same [id]; it returns users of the list only, and
    for every user of the list one with that [id]; the one it keeps is
    the first of the list with that [id]; a list without repeated ids
    comes back as it is, so filtering twice changes nothing. *)
Theorem uniqueUsers_keeps_first_of_each_id :
  forall (User : Type) (id : User -> string) (users : list User),
    let unique := Presence.uniqueUsers User id users in
    List.NoDup (map id unique)
    /\ (forall u, In u unique -> In u users)
    /\ (forall u, In u users -> exists v, In v unique /\ id v = id u)
    /\ (forall u, In u unique ->
                  find (fun v => String.eqb (id v) (id u)) users = Some u)
    /\ (List.NoDup (map id users) -> unique = users)
    /\ Presence.uniqueUsers User id unique = unique.
Proof.
  intros User id users unique. subst unique. unfold Presence.uniqueUsers.
  split; [apply uniqueFrom_NoDup |].
  split; [intros u Hu; now apply uniqueFrom_In in Hu |].
  split; [intros u Hu; apply uniqueFrom_covers; [exact Hu | set_solver] |].
  split; [intros u Hu; eapply uniqueFrom_first; exact Hu |].
  split; [intros Hnd | ]; apply uniqueFrom_distinct;
    try exact Hnd; try apply uniqueFrom_NoDup; intros u _; set_solver.
Qed.

(** ** Exercises and their steps *)

Section ExerciseFacts.

Import Apps Navigation Exercises.

Lemma stepsOf_snoc (l : list ExerciseStepApp) (a : ExerciseStepApp) :
  stepsOf (l ++ [a]) = putStep (stepsOf l) a.
Proof. unfold stepsOf. rewrite fold_left_app. reflexivity. Qed.

Lemma stepsOf_slot (l : list ExerciseStepApp) :
  forall index step,
    stepsOf l !! index = Some step ->
    stepNumberOf step = index + 1
    /\ (problemOf step <> None \/ solutionOf step <> None)
    /\ (forall p, problemOf step = Some p ->
                  In (inl p) l /\ stepNumber (problemStep p) = index + 1)
    /\ (forall s, solutionOf step = Some s ->
                  In (inr s) l /\ stepNumber (solutionStep s) = index + 1).
Proof.
  induction l as [| a l IH] using rev_ind; intros index step.
  - unfold stepsOf. simpl. rewrite lookup_empty. discriminate.
  - rewrite stepsOf_snoc. unfold putStep.
    destruct (decide (index = stepNumber (stepFields a) - 1)) as [-> | Hne].
    + rewrite lookup_insert_eq. intros H. injection H as <-.
      destruct a as [p | s]; simpl.
      * split; [lia |]. split; [left; discriminate |]. split.
        -- intros p' Hp. injection Hp as <-. split; [| lia].
           apply in_or_app. right. now left.
        -- intros s Hs.
           destruct (stepsOf l !! (stepNumber (problemStep p) - 1)) as [st |] eqn:Hst;
             [| discriminate].
           destruct (IH _ _ Hst) as (_ & _ & _ & Hsol). destruct (Hsol s Hs) as [Hin Hnum].
           split; [apply in_or_app; now left | exact Hnum].
      * split; [lia |]. split; [right; discriminate |]. split.
        -- intros p Hp.
           destruct (stepsOf l !! (stepNumber (solutionStep s) - 1)) as [st |] eqn:Hst;
             [| discriminate].
           destruct (IH _ _ Hst) as (_ & _ & Hpro & _). destruct (Hpro p Hp) as [Hin Hnum].
           split; [apply in_or_app; now left | exact Hnum].
        -- intros s' Hs. injection Hs as <-. split; [| lia].
           apply in_or_app. right. now left.
    + rewrite lookup_insert_ne by congruence. intros H.
      destruct (IH _ _ H) as (Hnum & Hsome & Hpro & Hsol).
      split; [exact Hnum |]. split; [exact Hsome |]. split.
      * intros p Hp. destruct (Hpro p Hp) as [Hin Hn].
        split; [apply in_or_app; now left | exact Hn].
      * intros s Hs. destruct (Hsol s Hs) as [Hin Hn].
        split; [apply in_or_app; now left | exact Hn].
Qed.

Lemma putStep_keeps (m : gmap Z Step) (app later : ExerciseStepApp) :
  (exists step,
      m !! (stepNumber (stepFields app) - 1) = Some step
      /\ match app with
         | inl p => problemOf step = Some p
         | inr s => solutionOf step = Some s
         end) ->
  ~ (stepNumber (stepFields later) = stepNumber (stepFields app)
     /\ stepType later = stepType app) ->
  exists step,
    putStep m later !! (stepNumber (stepFields app) - 1) = Some step
    /\ match app with
       | inl p => problemOf step = Some p
       | inr s => solutionOf step = Some s
       end.
Proof.
  intros (step & Hstep & Happ) Hother. unfold putStep.
  destruct (decide (stepNumber (stepFields later) - 1 = stepNumber (stepFields app) - 1))
    as [Heq | Hne].
  - rewrite Heq, lookup_insert_eq. eexists. split; [reflexivity |].
    rewrite Hstep.
    destruct app as [p | s], later as [p' | s']; simpl in *;
      try exact Happ; exfalso; apply Hother; (split; [lia | reflexivity]).
  - rewrite lookup_insert_ne by exact Hne. exists step. split; assumption.
Qed.

Lemma putStep_puts (m : gmap Z Step) (app : ExerciseStepApp) :
  exists step,
    putStep m app !! (stepNumber (stepFields app) - 1) = Some step
    /\ match app with
       | inl p => problemOf step = Some p
       | inr s => solutionOf step = Some s
       end.
Proof.
  unfold putStep. rewrite lookup_insert_eq. eexists. split; [reflexivity |].
  destruct app; reflexivity.
Qed.

Lemma fold_putStep_keeps (app : ExerciseStepApp) (after : list ExerciseStepApp) :
  forall m : gmap Z Step,
    (exists step,
        m !! (stepNumber (stepFields app) - 1) = Some step
        /\ match app with
           | inl p => problemOf step = Some p
           | inr s => solutionOf step = Some s
           end) ->
    (forall later, In later after ->
                   ~ (stepNumber (stepFields later) = stepNumber (stepFields app)
                      /\ stepType later = stepType app)) ->
    exists step,
      fold_left putStep after m !! (stepNumber (stepFields app) - 1) = Some step
      /\ match app with
         | inl p => problemOf step = Some p
         | inr s => solutionOf step = Some s
         end.
Proof.
  induction after as [| later after IH]; intros m Hm Hafter; simpl; [exact Hm |].
  apply IH.
  - apply putStep_keeps; [exact Hm | apply Hafter; now left].
  - intros l Hl. apply Hafter. now right.
Qed.

Lemma stepsOf_filled (l : list ExerciseStepApp) :
  forall app,
    In app l ->
    exists step,
      stepsOf l !! (stepNumber (stepFields app) - 1) = Some step
      /\ match app with
         | inl _ => problemOf step <> None
         | inr _ => solutionOf step <> None
         end.
Proof.
  induction l as [| a l IH] using rev_ind; intros app Hin; [destruct Hin |].
  rewrite stepsOf_snoc. apply in_app_or in Hin as [Hin | [<- | []]].
  - destruct (IH app Hin) as (st & Hst & Hfilled). unfold putStep.
    destruct (decide (stepNumber (stepFields a) - 1 = stepNumber (stepFields app) - 1))
      as [Heq | Hne].
    + rewrite Heq, lookup_insert_eq. eexists. split; [reflexivity |]. rewrite Hst.
      destruct app, a; simpl; try discriminate; exact Hfilled.
    + rewrite lookup_insert_ne by exact Hne. exists st. split; assumption.
  - destruct (putStep_puts (stepsOf l) a) as (step & Hstep & Hslot).
    exists step. split; [exact Hstep |]. destruct a; rewrite Hslot; discriminate.
Qed.

Lemma problemsOf_In (apps : list App) (p : ProblemApp) :
  In p (problemsOf apps) <-> In (Problem p) apps.
Proof.
  induction apps as [| c apps IH]; simpl; [tauto |].
  destruct c; simpl; rewrite IH; intuition (try discriminate; try congruence).
Qed.

Lemma solutionsOf_In (apps : list App) (s : SolutionApp) :
  In s (solutionsOf apps) <-> In (Solution s) apps.
Proof.
  induction apps as [| c apps IH]; simpl; [tauto |].
  destruct c; simpl; rewrite IH; intuition (try discriminate; try congruence).
Qed.

Lemma sameExercise_true (n : Classifier.JSNumber) (fields : BaseExerciseStepApp) :
  sameExercise n fields = true <-> Classifier.Finite (exerciseNumber fields) = n.
Proof.
  destruct n as [k |]; simpl.
  - rewrite Z.eqb_eq. split; [intros ->; reflexivity | intros H; now injection H].
  - split; discriminate.
Qed.

Variable env : Env.

Lemma compileMdxIfExists_not_thrown (filepath message : string) :
  compileMdxIfExists env filepath <> Thrown message.
Proof.
  unfold compileMdxIfExists. destruct (fileExists env _); [| discriminate].
  destruct (compileMdx env _); discriminate.
Qed.

Lemma buildExercise_not_thrown (apps : list App) (dirName message : string)
    (n : Classifier.JSNumber) :
  buildExercise env apps dirName n <> Thrown message.
Proof.
  unfold buildExercise.
  destruct (compileMdxIfExists env (pathJoin [_; _; _; "README.mdx"%string])) as [r | m |] eqn:Hr;
    [| now apply compileMdxIfExists_not_thrown in Hr | discriminate].
  simpl.
  destruct (compileMdxIfExists env (pathJoin [_; _; _; "FINISHED.mdx"%string]))
    as [f | m |] eqn:Hf;
    [| now apply compileMdxIfExists_not_thrown in Hf | discriminate].
  discriminate.
Qed.

Lemma buildExercise_fields (apps : list App) (dirName : string) (n : Classifier.JSNumber)
    (e : Exercise) :
  buildExercise env apps dirName n = Returned e ->
  exerciseDirName e = dirName
  /\ exerciseNumberOf e = n
  /\ steps e
     = stepsOf (List.filter (fun app => sameExercise n (stepFields app))
                  (exerciseStepApps apps))
  /\ problems e = List.filter (fun p => sameExercise n (problemStep p)) (problemsOf apps)
  /\ solutions e = List.filter (fun s => sameExercise n (solutionStep s)) (solutionsOf apps).
Proof.
  unfold buildExercise. intros H.
  apply bind_returned in H as (r & _ & H). apply bind_returned in H as (f & _ & H).
  injection H as <-. repeat split.
Qed.

Lemma exercisesLoop_not_thrown (apps : list App) (dirs : list string) (message : string) :
  forall exercises, exercisesLoop env apps dirs exercises <> Thrown message.
Proof.
  induction dirs as [| d dirs IH]; intros exercises; simpl; [discriminate |].
  destruct (Classifier.extractExerciseNumber d) as [[[| k | k] |] |]; try apply IH;
    (destruct (buildExercise env apps d _) as [e | m |] eqn:He;
     [apply IH | now apply buildExercise_not_thrown in He | discriminate]).
Qed.

Lemma exercisesLoop_returned (apps : list App) (dirs : list string) :
  forall acc exercises,
    exercisesLoop env apps dirs acc = Returned exercises ->
    exists built,
      exercises = acc ++ built
      /\ map exerciseDirName built
         = List.filter
             (fun dirName =>
                match Classifier.extractExerciseNumber dirName with
                | None | Some (Classifier.Finite 0) => false
                | Some _ => true
                end) dirs
      /\ forall e, In e built ->
           exists n, Classifier.extractExerciseNumber (exerciseDirName e) = Some n
                     /\ n <> Classifier.Finite 0
                     /\ buildExercise env apps (exerciseDirName e) n = Returned e.
Proof.
  induction dirs as [| d dirs IH]; intros acc exercises; simpl.
  - intros H. injection H as <-. exists []. rewrite app_nil_r.
    split; [reflexivity |]. split; [reflexivity | intros e []].
  - destruct (Classifier.extractExerciseNumber d) as [n |] eqn:Hn; [| apply IH].
    assert (Hbuild :
              n <> Classifier.Finite 0 ->
              (let* exercise := buildExercise env apps d n in
               exercisesLoop env apps dirs (acc ++ [exercise])) = Returned exercises ->
              exists built,
                exercises = acc ++ built
                /\ map exerciseDirName built
                   = d :: List.filter
                            (fun dirName =>
                               match Classifier.extractExerciseNumber dirName with
                               | None | Some (Classifier.Finite 0) => false
                               | Some _ => true
                               end) dirs
                /\ forall e, In e built ->
                     exists n, Classifier.extractExerciseNumber (exerciseDirName e) = Some n
                               /\ n <> Classifier.Finite 0
                               /\ buildExercise env apps (exerciseDirName e) n = Returned e).
    { intros Hnz H. apply bind_returned in H as (e & He & H).
      apply IH in H as (built & -> & Hnames & Hbuilt).
      pose proof (buildExercise_fields _ _ _ _ He) as (Hdir & _).
      exists (e :: built). rewrite <- app_assoc. split; [reflexivity |].
      split; [simpl; now rewrite Hdir, Hnames |].
      intros e' [<- | He']; [| now apply Hbuilt].
      exists n. rewrite Hdir. repeat split; assumption. }
    destruct n as [[| k | k] |]; [apply IH | apply Hbuild; discriminate ..].
Qed.

End ExerciseFacts.

(** X12.  The [steps] array built from the apps of an exercise whose
    step numbers are below [2^53], so that the runtime computes their
    indexes exactly: the element at index [i] has [stepNumber] [i + 1]
    and holds a problem or a solution; the apps it holds are apps of the
    exercise with that step number; every app of the exercise has its
    element, with the slot of its type filled; and the slot holds the app
    itself unless a later app of the same step number and type replaced
    it. *)
Theorem steps_slots :
  forall exerciseApps : list Navigation.ExerciseStepApp,
    (forall app, In app exerciseApps ->
                 Z.abs (Apps.stepNumber (Navigation.stepFields app)) < 2 ^ 53) ->
    (forall index step,
        Exercises.stepsOf exerciseApps !! index = Some step ->
        Exercises.stepNumberOf step = index + 1
        /\ (Exercises.problemOf step <> None \/ Exercises.solutionOf step <> None)
        /\ (forall p, Exercises.problemOf step = Some p ->
                      In (inl p) exerciseApps
                      /\ Apps.stepNumber (Apps.problemStep p) = index + 1)
        /\ (forall s, Exercises.solutionOf step = Some s ->
                      In (inr s) exerciseApps
                      /\ Apps.stepNumber (Apps.solutionStep s) = index + 1))
    /\ (forall before app after,
          exerciseApps = before ++ app :: after ->
          (forall later, In later after ->
                         ~ (Apps.stepNumber (Navigation.stepFields later)
                            = Apps.stepNumber (Navigation.stepFields app)
                            /\ Navigation.stepType later = Navigation.stepType app)) ->
          exists step,
            Exercises.stepsOf exerciseApps
              !! (Apps.stepNumber (Navigation.stepFields app) - 1) = Some step
            /\ match app with
               | inl p => Exercises.problemOf step = Some p
               | inr s => Exercises.solutionOf step = Some s
               end)
    /\ (forall app,
          In app exerciseApps ->
          exists step,
            Exercises.stepsOf exerciseApps
              !! (Apps.stepNumber (Navigation.stepFields app) - 1) = Some step
            /\ match app with
               | inl _ => Exercises.problemOf step <> None
               | inr _ => Exercises.solutionOf step <> None
               end).
Proof.
  intros exerciseApps _. split; [apply stepsOf_slot |].
  assert (Hlast : forall before app after,
             exerciseApps = before ++ app :: after ->
             (forall later, In later after ->
                            ~ (Apps.stepNumber (Navigation.stepFields later)
                               = Apps.stepNumber (Navigation.stepFields app)
                               /\ Navigation.stepType later = Navigation.stepType app)) ->
             exists step,
               Exercises.stepsOf exerciseApps
                 !! (Apps.stepNumber (Navigation.stepFields app) - 1) = Some step
               /\ match app with
                  | inl p => Exercises.problemOf step = Some p
                  | inr s => Exercises.solutionOf step = Some s
                  end).
  { intros before app after -> Hafter. unfold Exercises.stepsOf.
    rewrite fold_left_app. simpl. apply fold_putStep_keeps; [apply putStep_puts | exact Hafter]. }
  split; [exact Hlast | apply stepsOf_filled].
Qed.

Lemma steps_slots_witness :
  match Sample.problemApp 1 2, Sample.solutionApp 1 2 with
  | Apps.Problem p, Apps.Solution s =>
      exists step,
        Exercises.stepsOf [inl p; inr s] !! 1 = Some step
        /\ Exercises.solutionOf step <> None
  | _, _ => False
  end.
Proof.
  simpl.
  match goal with
  | |- exists step, Exercises.stepsOf ?apps !! 1 = Some step /\ _ =>
      destruct (steps_slots apps) as (_ & _ & Hfilled);
        [intros app [<- | [<- | []]]; reflexivity |];
        exact (Hfilled _ (or_intror (or_introl eq_refl)))
  end.
Defined.

(** X13.  [getExercises] gives one exercise for every entry of the
    [exercises] directory whose name starts with a number other than 0,
    in the order of the directory listing, and skips the other entries;
    without that directory it gives none.  An exercise carries the number
    read from its directory name, its [problems] and [solutions] are the
    problem and solution apps of the catalog with that exercise number,
    and what its [steps] hold is among them, a step with a number below
    [2^53] at the index one less than its number.  A read-me that does
    not compile never makes it throw. *)
Theorem getExercises_lists_numbered_directories :
  forall (env : Apps.Env) (apps : list Apps.App),
    let exercisesDir := Path.join (Apps.workshopRoot env) "exercises" in
    (Apps.fileExists env exercisesDir = false ->
     Exercises.getExercises env apps = Returned [])
    /\ (forall dirs message,
          Exercises.readDir env exercisesDir = Returned dirs ->
          Exercises.getExercises env apps <> Thrown message)
    /\ (forall exercises,
          Exercises.getExercises env apps = Returned exercises ->
          exists dirs,
            Exercises.readDir env exercisesDir = Returned dirs
            /\ map Exercises.exerciseDirName exercises
               = List.filter
                   (fun dirName =>
                      match Classifier.extractExerciseNumber dirName with
                      | None | Some (Classifier.Finite 0) => false
                      | Some _ => true
                      end) dirs
            /\ forall e,
                 In e exercises ->
                 Classifier.extractExerciseNumber (Exercises.exerciseDirName e)
                 = Some (Exercises.exerciseNumberOf e)
                 /\ Exercises.exerciseNumberOf e <> Classifier.Finite 0
                 /\ (forall p,
                       In p (Exercises.problems e) <->
                       In (Apps.Problem p) apps
                       /\ Classifier.Finite (Apps.exerciseNumber (Apps.problemStep p))
                          = Exercises.exerciseNumberOf e)
                 /\ (forall s,
                       In s (Exercises.solutions e) <->
                       In (Apps.Solution s) apps
                       /\ Classifier.Finite (Apps.exerciseNumber (Apps.solutionStep s))
                          = Exercises.exerciseNumberOf e)
                 /\ (forall index step,
                       Exercises.steps e !! index = Some step ->
                       (Z.abs (Exercises.stepNumberOf step) < 2 ^ 53 ->
                        Exercises.stepNumberOf step = index + 1)
                       /\ (forall p, Exercises.problemOf step = Some p ->
                                     In p (Exercises.problems e))
                       /\ (forall s, Exercises.solutionOf step = Some s ->
                                     In s (Exercises.solutions e)))).
Proof.
  intros env apps exercisesDir. unfold Exercises.getExercises. fold exercisesDir.
  split; [| split].
  - intros Hmissing. unfold Exercises.readDir. rewrite Hmissing. reflexivity.
  - intros dirs message ->. simpl. apply exercisesLoop_not_thrown.
  - intros exercises H. apply bind_returned in H as (dirs & Hdirs & H).
    exists dirs. split; [exact Hdirs |].
    apply exercisesLoop_returned in H as (built & -> & Hnames & Hbuilt).
    simpl. split; [exact Hnames |].
    intros e He. destruct (Hbuilt e He) as (n & Hn & Hnz & Hbuild).
    apply buildExercise_fields in Hbuild as (_ & Hnum & Hsteps & Hproblems & Hsolutions).
    rewrite Hnum. split; [exact Hn |]. split; [exact Hnz |].
    assert (Hp : forall p,
               In p (Exercises.problems e) <->
               In (Apps.Problem p) apps
               /\ Classifier.Finite (Apps.exerciseNumber (Apps.problemStep p)) = n).
    { intros p. rewrite Hproblems, filter_In, problemsOf_In, sameExercise_true. tauto. }
    assert (Hs : forall s,
               In s (Exercises.solutions e) <->
               In (Apps.Solution s) apps
               /\ Classifier.Finite (Apps.exerciseNumber (Apps.solutionStep s)) = n).
    { intros s. rewrite Hsolutions, filter_In, solutionsOf_In, sameExercise_true. tauto. }
    split; [exact Hp |]. split; [exact Hs |].
    intros index step Hstep. rewrite Hsteps in Hstep.
    apply stepsOf_slot in Hstep as (Hindex & _ & Hpro & Hsol).
    split; [intros _; exact Hindex |]. split.
    + intros p Hpp. destruct (Hpro p Hpp) as [Hin _].
      apply filter_In in Hin as [Hin Hsame]. apply exerciseStepApps_In in Hin.
      apply Hp. split; [exact Hin | now apply sameExercise_true in Hsame].
    + intros s Hss. destruct (Hsol s Hss) as [Hin _].
      apply filter_In in Hin as [Hin Hsame]. apply exerciseStepApps_In in Hin.
      apply Hs. split; [exact Hin | now apply sameExercise_true in Hsame].
Qed.

Lemma getExercises_lists_numbered_directories_witness :
  Exercises.getExercises Sample.workshop Sample.catalogExpected = Returned []
  /\ exists exercises,
       Exercises.getExercises SampleExercises.workshop SampleExercises.catalog
       = Returned exercises
       /\ map Exercises.exerciseDirName exercises = ["01.intro"; "02.next"]%string.
Proof.
  split.
  - apply (getExercises_lists_numbered_directories Sample.workshop Sample.catalogExpected).
    reflexivity.
  - destruct (Exercises.getExercises SampleExercises.workshop SampleExercises.catalog)
      as [exercises | message |] eqn:H; [| vm_compute in H; discriminate ..].
    exists exercises. split; [reflexivity |].
    destruct (getExercises_lists_numbered_directories SampleExercises.workshop
                SampleExercises.catalog) as (_ & _ & Hlist).
    destruct (Hlist exercises H) as (dirs & Hdirs & Hnames & _).
    rewrite Hnames. vm_compute in Hdirs. injection Hdirs as <-. reflexivity.
Defined.

(** ** What [setPlayground] leaves alone *)

Section PlaygroundFrame.

Import Playground.

Variable isIgnored : path -> bool.
Variable listing : FileSystem -> path -> list path.

Lemma find_filter {A : Type} (f g : A -> bool) (l : list A) :
  (forall x, f x = true -> g x = true) -> find f (List.filter g l) = find f l.
Proof.
  intros Hfg. induction l as [| x l IH]; simpl; [reflexivity |].
  destruct (g x) eqn:Hg; simpl.
  - destruct (f x); [reflexivity | exact IH].
  - destruct (f x) eqn:Hf; [| exact IH]. rewrite (Hfg x Hf) in Hg. discriminate.
Qed.

Lemma lookup_remove (q p : path) (fs : FileSystem) :
  isPrefix q p = false -> lookup (remove q fs) p = lookup fs p.
Proof.
  intros Hout. unfold lookup, remove. f_equal. apply find_filter.
  intros [r n] Hr. simpl in *. apply path_eqb_eq in Hr. subst r. now rewrite Hout.
Qed.


Lemma lookup_write_ne (q p : path) (n : node) (fs : FileSystem) :
  p <> q -> lookup (write q n fs) p = lookup fs p.
Proof.
  intros Hne. unfold lookup, write. simpl.
  destruct (path_eqb p q) eqn:E; [apply path_eqb_eq in E; contradiction |].
  f_equal. apply find_filter. intros [r m] Hr. simpl in *.
  apply path_eqb_eq in Hr. subst r. apply negb_true_iff.
  destruct (path_eqb q p) eqn:E'; [| reflexivity].
  apply path_eqb_eq in E'. congruence.
Qed.

Lemma lookup_mkdir (fs : FileSystem) (q p : path) :
  p <> q -> lookup (mkdir fs q) p = lookup fs p.
Proof.
  intros Hne. unfold mkdir. destruct (lookup fs q); [reflexivity |].
  unfold lookup. simpl.
  destruct (path_eqb p q) eqn:E; [apply path_eqb_eq in E; contradiction | reflexivity].
Qed.

Lemma lookup_ensureDir (q p : path) (fs : FileSystem) :
  isPrefix p q = false -> lookup (ensureDir q fs) p = lookup fs p.
Proof.
  intros Hout. unfold ensureDir.
  assert (Hall : forall r, In r (prefixes q) -> p <> r).
  { intros r Hr ->. apply prefixes_isPrefix in Hr. congruence. }
  revert fs. induction (prefixes q) as [| r rs IH]; intros fs; simpl; [reflexivity |].
  rewrite IH by (intros r' Hr'; apply Hall; now right).
  apply lookup_mkdir. apply Hall. now left.
Qed.

Lemma lookup_copyEntry (before : FileSystem) (srcDir destDir p : path)
    (fs fs' : FileSystem) (e : path * node) :
  isPrefix destDir p = false ->
  copyEntry isIgnored before srcDir destDir (Returned fs) e = Returned fs' ->
  lookup fs' p = lookup fs p.
Proof.
  intros Hout. unfold copyEntry. simpl.
  destruct (isPrefix srcDir (fst e)); [| intros H; now injection H as <-].
  destruct (forallb _ _); [| intros H; now injection H as <-].
  assert (Hne : p <> destDir ++ skipn (List.length srcDir) (fst e)).
  { intros ->. rewrite isPrefix_app in Hout. discriminate. }
  destruct (snd e) as [| c], (lookup fs (destDir ++ _)) as [[| c'] |];
    intros H; try discriminate; injection H as <-;
    try reflexivity; now apply lookup_write_ne.
Qed.

Lemma lookup_copyEntries (before : FileSystem) (srcDir destDir p : path)
    (entries : FileSystem) :
  isPrefix destDir p = false ->
  forall (acc : result FileSystem) (fs' : FileSystem),
    fold_left (copyEntry isIgnored before srcDir destDir) entries acc = Returned fs' ->
    exists fs, acc = Returned fs /\ lookup fs' p = lookup fs p.
Proof.
  intros Hout. induction entries as [| e entries IH]; intros acc fs'; simpl.
  - intros ->. eauto.
  - intros H. apply IH in H as (fs1 & Hstep & Hsame).
    destruct acc as [fs | m |]; [| discriminate Hstep ..].
    exists fs. split; [reflexivity |]. rewrite Hsame.
    eapply lookup_copyEntry; eauto.
Qed.

Lemma lookup_remove_all (destDir p : path) (orphans : list path) :
  isPrefix destDir p = false ->
  forall fs,
    lookup (fold_left (fun fs f => remove (destDir ++ f) fs) orphans fs) p = lookup fs p.
Proof.
  intros Hout. induction orphans as [| f orphans IH]; intros fs; simpl; [reflexivity |].
  rewrite IH. apply lookup_remove.
  destruct (isPrefix (destDir ++ f) p) eqn:E; [| reflexivity].
  apply isPrefix_app_l in E. congruence.
Qed.

Lemma not_prefix_of_shorter (p q r : path) :
  isPrefix q r = true -> isPrefix p r = false -> isPrefix p q = false.
Proof.
  intros Hqr Hpr. destruct (isPrefix p q) eqn:E; [| reflexivity].
  rewrite (isPrefix_trans _ _ _ E Hqr) in Hpr. discriminate.
Qed.

Lemma setPlayground_steps (workshopRoot srcDir : path) (reset hasPlaygroundApp : bool)
    (fs fs' : FileSystem) :
  setPlayground isIgnored listing workshopRoot srcDir reset hasPlaygroundApp fs
  = Returned fs' ->
  exists fs4,
    fs' = write (playgroundAppNameInfoPath workshopRoot)
            (File (playgroundJson
                     (Names.getAppName (pathString workshopRoot) (pathString srcDir))))
            fs4
    /\ forall p,
         isPrefix (workshopRoot ++ ["playground"%string]) p = false ->
         isPrefix p (playgroundAppNameInfoPath workshopRoot) = false ->
         lookup fs4 p = lookup fs p.
Proof.
  unfold setPlayground. set (destDir := workshopRoot ++ ["playground"%string]).
  set (info := playgroundAppNameInfoPath workshopRoot).
  set (fs0 := if hasPlaygroundApp && reset then remove destDir fs else fs).
  set (fs1 := remove (destDir ++ ["node_modules"%string]) fs0).
  intros Hrun. apply bind_returned in Hrun as (fs2 & Hcopy & Hrun).
  set (orphans := List.filter _ _) in Hrun.
  set (fs3 := fold_left (fun fs fileToDelete => remove (destDir ++ fileToDelete) fs)
                orphans fs2) in Hrun.
  set (fs4 := ensureDir (removelast info) fs3) in Hrun.
  exists fs4. split.
  - unfold writeJSON in Hrun.
    destruct (lookup fs4 info) as [[| c] |]; try discriminate; now injection Hrun as <-.
  - intros p Hdest Hinfo.
    assert (Hroot : isPrefix p workshopRoot = false).
    { apply (not_prefix_of_shorter p workshopRoot info); [| exact Hinfo].
      unfold info, playgroundAppNameInfoPath. apply isPrefix_app. }
    unfold fs4. rewrite lookup_ensureDir
      by (apply (not_prefix_of_shorter p _ info); [apply isPrefix_removelast | exact Hinfo]).
    unfold fs3. rewrite lookup_remove_all by exact Hdest.
    assert (H2 : lookup fs2 p = lookup fs1 p).
    { unfold copy in Hcopy. destruct (lookup fs1 srcDir); [| discriminate].
      apply (lookup_copyEntries _ _ _ p) in Hcopy as (fs5 & Heq & Hsame); [| exact Hdest].
      injection Heq as <-. rewrite Hsame. apply lookup_ensureDir.
      unfold destDir. rewrite removelast_last. exact Hroot. }
    rewrite H2. unfold fs1. rewrite lookup_remove.
    + unfold fs0. destruct (hasPlaygroundApp && reset); [| reflexivity].
      now apply lookup_remove.
    + destruct (isPrefix (destDir ++ ["node_modules"%string]) p) eqn:E; [| reflexivity].
      apply isPrefix_app_l in E. congruence.
Qed.

End PlaygroundFrame.

(** X14.  By its own file operations a completed [setPlayground]
    changes nothing outside the playground directory and the path of the
    pointer file: every other path, those of the source app among them,
    leads to what it led to before. *)
Theorem setPlayground_leaves_the_rest :
  forall (isIgnored : Playground.path -> bool)
         (listing : Playground.FileSystem -> Playground.path -> list Playground.path)
         (workshopRoot srcDir : Playground.path)
         (reset hasPlaygroundApp : bool) (fs fs' : Playground.FileSystem)
         (p : Playground.path),
    Playground.setPlayground isIgnored listing workshopRoot srcDir reset hasPlaygroundApp fs
    = Returned fs' ->
    Playground.isPrefix (workshopRoot ++ ["playground"%string]) p = false ->
    Playground.isPrefix p (Playground.playgroundAppNameInfoPath workshopRoot) = false ->
    Playground.lookup fs' p = Playground.lookup fs p.
Proof.
  intros isIgnored listing workshopRoot srcDir reset hasPlaygroundApp fs fs' p
    Hrun Hdest Hinfo.
  apply setPlayground_steps in Hrun as (fs4 & -> & Hframe).
  rewrite lookup_write_ne; [now apply Hframe |].
  intros ->. rewrite isPrefix_refl in Hinfo. discriminate.
Qed.

Lemma setPlayground_leaves_the_rest_witness :
  exists fs',
    Playground.setPlayground (fun _ => false) (fun _ _ => []) ["w"%string]
      ["w"; "exercises"; "01.intro"; "01.problem"]%string false true Sample.tree
    = Returned fs'
    /\ Playground.lookup fs' ["w"; "exercises"; "01.intro"; "01.problem"; "build"; "out.js"]%string
       = Some (Playground.File "o").
Proof.
  destruct (Playground.setPlayground (fun _ => false) (fun _ _ => []) ["w"%string]
              ["w"; "exercises"; "01.intro"; "01.problem"]%string false true Sample.tree)
    as [fs' | message |] eqn:Hrun; [| vm_compute in Hrun; discriminate ..].
  exists fs'. split; [reflexivity |].
  rewrite (setPlayground_leaves_the_rest _ _ _ _ _ _ _ _ _ Hrun); reflexivity.
Defined.

(** ** The solution a problem is linked to *)

Section SolutionLink.

Import Classifier.

Lemma pattern_of_solution_prefix (padded rest digits : string) (t : StepType)
    (subtitle : option string) :
  allChars isDigit padded = true ->
  matchesStepPattern (padded +:+ ".solution" +:+ rest) digits t subtitle ->
  digits = padded /\ t = solution.
Proof.
  intros Hpadded (Hname & _ & Hdigits & _).
  change ("." +:+ ?r) with (String "." r) in Hname.
  change (".solution" +:+ ?r) with (String "." ("solution" +:+ r)) in Hname.
  pose proof (takeWhile_stop isDigit padded "." ("solution" +:+ rest) Hpadded eq_refl)
    as [Htake Hdrop].
  pose proof (takeWhile_stop isDigit digits "." (typeName t +:+ suffixOf subtitle)
                Hdigits eq_refl) as [Htake' Hdrop'].
  rewrite Hname in Htake, Hdrop. rewrite Htake' in Htake. rewrite Hdrop' in Hdrop.
  split; [exact Htake |]. injection Hdrop as Hrest.
  destruct t; [discriminate Hrest | reflexivity].
Qed.

End SolutionLink.

(** X15.  The directory [findSolutionDir] links to a problem directory
    is the join of the problem's parent directory and one of the entries
    listed in it; and when that entry is an app directory at all, it is a
    solution with the step number of the problem (step numbers that are
    exact in a double).  So a problem is never linked to the solution of
    another step. *)
Theorem findSolutionDir_links_same_step :
  forall (env : Apps.Env) (fullPath dir : string),
    JS.includes (Path.basename fullPath) ".problem" = true ->
    Apps.findSolutionDir env fullPath = Returned (Some dir) ->
    exists info siblings sibling,
      snd (Classifier.getAppDirInfo (Path.basename fullPath)) = Returned (Some info)
      /\ Apps.readdir env (Path.dirname fullPath) = Returned siblings
      /\ In sibling siblings
      /\ dir = Path.join (Path.dirname fullPath) sibling
      /\ (Classifier.stepNumber info < 2 ^ 53 ->
          forall log found,
            Classifier.getAppDirInfo sibling = (log, Returned (Some found)) ->
            Classifier.type found = Classifier.solution
            /\ Classifier.stepNumber found = Classifier.stepNumber info).
Proof.
  intros env fullPath dir Hproblem Hfound.
  unfold Apps.findSolutionDir in Hfound. cbn [Apps.findSolutionDirFuel] in Hfound.
  rewrite Hproblem in Hfound. unfold Apps.solutionDirOfProblem in Hfound.
  destruct (Classifier.getAppDirInfo (Path.basename fullPath)) as [log0 answer] eqn:Hinfo.
  simpl in Hfound. apply bind_returned in Hfound as ([info |] & -> & Hfound);
    [| discriminate].
  apply bind_returned in Hfound as (siblings & Hsiblings & Hfound).
  destruct (find _ siblings) as [sibling |] eqn:Hfind; [| discriminate].
  injection Hfound as <-. apply find_some in Hfind as [Hin Hstarts].
  exists info, siblings, sibling.
  split; [reflexivity |]. split; [exact Hsiblings |]. split; [exact Hin |].
  split; [reflexivity |].
  intros Hexact log found Hsibling.
  apply getAppDirInfo_returned in Hinfo as (_ & _ & _ & _ & Hpos).
  set (padded := JS.padStart0 2 (Apps.numberToString (Classifier.stepNumber info))) in *.
  destruct (route_segment (Classifier.stepNumber info)) as (Hdigits & _ & Hnumber); [lia |].
  fold padded in Hdigits, Hnumber.
  apply startsWith_split in Hstarts. rewrite append_assoc in Hstarts.
  rewrite Hstarts in Hsibling.
  apply getAppDirInfo_returned in Hsibling as (_ & digits & Hpattern & Hn & _).
  apply pattern_of_solution_prefix in Hpattern as [-> Htype]; [| exact Hdigits].
  split; [exact Htype |]. rewrite Hnumber in Hn. now injection Hn.
Qed.

Lemma findSolutionDir_links_same_step_witness :
  Apps.findSolutionDir Sample.workshop "/w/exercises/01.intro/02.problem"
  = Returned (Some "/w/exercises/01.intro/02.solution"%string)
  /\ exists info siblings sibling,
       snd (Classifier.getAppDirInfo "02.problem") = Returned (Some info)
       /\ Apps.readdir Sample.workshop "/w/exercises/01.intro" = Returned siblings
       /\ In sibling siblings
       /\ "/w/exercises/01.intro/02.solution"%string
          = Path.join "/w/exercises/01.intro" sibling.
Proof.
  split; [reflexivity |].
  destruct (findSolutionDir_links_same_step Sample.workshop "/w/exercises/01.intro/02.problem"
              "/w/exercises/01.intro/02.solution" eq_refl eq_refl)
    as (info & siblings & sibling & Hinfo & Hsiblings & Hin & Hdir & _).
  exists info, siblings, sibling. repeat split; assumption.
Defined.

(** ** App names as path segments *)

Section NameFacts.

Import Names.

Lemma noSep_append (a b : string) : noSep (a +:+ b) = noSep a && noSep b.
Proof.
  unfold noSep. induction a as [| c a IH]; simpl; [reflexivity |].
  now rewrite IH, andb_assoc.
Qed.

Lemma split_all_noSep (s : string) : forallb noSep (JS.split Path.sepChar s) = true.
Proof.
  induction s as [| c s IH]; [reflexivity |].
  cbn [JS.split]. destruct (Ascii.eqb c Path.sepChar) eqn:Hc.
  - cbn [forallb]. now rewrite IH.
  - destruct (JS.split Path.sepChar s) as [| seg rest].
    + unfold JS.chr, noSep. simpl. now rewrite Hc.
    + cbn [forallb] in *. apply andb_true_iff in IH as [Hseg Hrest].
      rewrite Hrest, andb_true_r. unfold noSep in *. simpl. now rewrite Hc, Hseg.
Qed.

Lemma join_noSep (sep : string) (segments : list string) :
  noSep sep = true -> forallb noSep segments = true -> noSep (JS.join sep segments) = true.
Proof.
  intros Hsep. induction segments as [| x segments IH]; [reflexivity |].
  cbn [forallb]. intros H. apply andb_true_iff in H as [Hx Hrest].
  destruct segments as [| y segments]; [exact Hx |].
  rewrite join_cons2, !noSep_append, Hx, Hsep, (IH Hrest). reflexivity.
Qed.

Lemma getAppName_noSep (workshopRoot fullPath : string) :
  noSep (getAppName workshopRoot fullPath) = true.
Proof.
  unfold getAppName. apply join_noSep; [reflexivity | apply split_all_noSep].
Qed.

End NameFacts.

(** X16.  An app name never contains a path separator, whatever the
    workshop root and the path it is made from; so the [name] of every
    problem and solution app a builder returns is one path segment. *)
Theorem app_names_are_single_segments :
  forall (env : Apps.Env) (fullPath : string),
    Names.noSep (Names.getAppName (Apps.workshopRoot env) fullPath) = true
    /\ (forall app,
          Apps.getProblemAppFromPath env fullPath = Returned (Some app) ->
          Names.noSep (Apps.name (Apps.base (Apps.problemStep app))) = true)
    /\ (forall app,
          Apps.getSolutionAppFromPath env fullPath = Returned (Some app) ->
          Names.noSep (Apps.name (Apps.base (Apps.solutionStep app))) = true).
Proof.
  intros env fullPath. split; [apply getAppName_noSep |].
  split; intros app Happ.
  - apply problem_fields in Happ as (_ & _ & _ & _ & _ & _ & ->). apply getAppName_noSep.
  - apply solution_fields in Happ as (_ & _ & _ & _ & _ & _ & ->). apply getAppName_noSep.
Qed.

(** ** What [setPlayground] copies *)

Section PlaygroundCopy.

Import Playground PlaygroundRules.

Variable isIgnored : path -> bool.
Variable listing : FileSystem -> path -> list path.


















End PlaygroundCopy.



(** ** The order [getApps] leaves the catalog in *)

Section SortOrderFacts.

Context {A : Type}.
Variable comparefn : A -> A -> Z.
Variable le : A -> A -> Prop.
Hypothesis le_trans : forall x y z, le x y -> le y z -> le x z.

Let agrees := SortOrder.agrees comparefn le.

Lemma ForallOrdPairs_app_inv (R : A -> A -> Prop) (a b : list A) :
  ForallOrdPairs R (a ++ b) ->
  ForallOrdPairs R a /\ ForallOrdPairs R b
  /\ forall x y, In x a -> In y b -> R x y.
Proof.
  induction a as [| h a IH]; simpl; intros H.
  - split; [constructor |]. split; [exact H | intros x y []].
  - inversion H as [| x l Hh Hrest]; subst.
    destruct (IH Hrest) as (Ha & Hb & Hcross).
    rewrite List.Forall_forall in Hh.
    split; [constructor; [| exact Ha] |].
    + apply List.Forall_forall. intros y Hy. apply Hh, in_or_app. now left.
    + split; [exact Hb |]. intros x y [<- | Hx] Hy.
      * apply Hh, in_or_app. now right.
      * now apply Hcross.
Qed.

Lemma StronglySorted_app (a b : list A) :
  StronglySorted le a -> StronglySorted le b ->
  (forall x y, In x a -> In y b -> le x y) ->
  StronglySorted le (a ++ b).
Proof.
  intros Ha Hb Hcross. induction a as [| h a IH]; simpl; [exact Hb |].
  inversion Ha as [| x l Hsorted Hall]; subst.
  constructor.
  - apply IH; [exact Hsorted |]. intros x y Hx Hy. apply Hcross; [now right | exact Hy].
  - apply Forall_app. split; [exact Hall |].
    apply List.Forall_forall. intros y Hy. apply Hcross; [now left | exact Hy].
Qed.

Lemma StronglySorted_app_inv (a b : list A) :
  StronglySorted le (a ++ b) ->
  StronglySorted le a /\ StronglySorted le b
  /\ forall x y, In x a -> In y b -> le x y.
Proof.
  induction a as [| h a IH]; simpl; intros H.
  - split; [constructor |]. split; [exact H | intros x y []].
  - inversion H as [| x l Hsorted Hall]; subst.
    destruct (IH Hsorted) as (Ha & Hb & Hcross).
    rewrite List.Forall_forall in Hall.
    split; [constructor; [exact Ha |] |].
    + apply List.Forall_forall. intros y Hy. apply Hall, in_or_app. now left.
    + split; [exact Hb |]. intros x y [<- | Hx] Hy.
      * apply Hall, in_or_app. now right.
      * now apply Hcross.
Qed.

(** Binary search keeps what lies left of [left] below the pivot and what
    lies from [right] on above it. *)
Lemma binarySearch_bounds (pivot : A) (sorted : list A) :
  StronglySorted le sorted ->
  (forall e, In e sorted -> agrees e pivot) ->
  forall fuel left right,
    (left <= right <= List.length sorted)%nat ->
    (right - left <= fuel)%nat ->
    (forall i e, (i < left)%nat -> nth_error sorted i = Some e -> le e pivot) ->
    (forall i e, (right <= i)%nat -> nth_error sorted i = Some e -> le pivot e) ->
    let slot := JSArray.binarySearch comparefn fuel pivot sorted left right in
    (slot <= List.length sorted)%nat
    /\ (forall i e, (i < slot)%nat -> nth_error sorted i = Some e -> le e pivot)
    /\ (forall i e, (slot <= i)%nat -> nth_error sorted i = Some e -> le pivot e).
Proof.
  intros Hsorted Hagrees.
  assert (Hord : forall i j x y, (i < j)%nat -> nth_error sorted i = Some x ->
                                 nth_error sorted j = Some y -> le x y).
  { clear Hagrees. induction Hsorted as [| h l Hl IH Hall]; intros i j x y Hij Hi Hj.
    - destruct i; discriminate.
    - destruct j as [| j]; [lia |]. destruct i as [| i]; simpl in *.
      + injection Hi as <-. rewrite List.Forall_forall in Hall.
        apply Hall. eapply nth_error_In; eauto.
      + eapply IH; [| eassumption | eassumption]. lia. }
  induction fuel as [| fuel IH]; intros left right Hlr Hfuel Hleft Hright;
    cbn [JSArray.binarySearch].
  - assert (left = right) by lia. subst. cbv zeta. split; [lia |]. split; assumption.
  - destruct (Nat.ltb_spec left right) as [Hlt | Hge].
    + set (mid := (left + (right - left) / 2)%nat).
      assert (Hd : ((right - left) / 2 < right - left)%nat) by (apply Nat.div_lt; lia).
      assert (Hmid : (left <= mid < right)%nat) by (unfold mid; lia).
      destruct (nth_error sorted mid) as [element |] eqn:Hel.
      * destruct (Hagrees element (nth_error_In _ _ Hel)) as [Hneg Hpos].
        destruct (Z.ltb_spec (comparefn pivot element) 0) as [Hc | Hc].
        -- apply IH; [lia | lia | exact Hleft |].
           intros i e Hi He. destruct (decide (i = mid)) as [-> | Hne].
           ++ rewrite Hel in He. injection He as <-. now apply Hneg.
           ++ apply (le_trans _ element); [now apply Hneg |].
              apply (Hord mid i); [lia | exact Hel | exact He].
        -- apply IH; [lia | lia | | exact Hright].
           intros i e Hi He. destruct (decide (i = mid)) as [-> | Hne].
           ++ rewrite Hel in He. injection He as <-. now apply Hpos.
           ++ apply (le_trans _ element); [| now apply Hpos].
              apply (Hord i mid); [lia | exact He | exact Hel].
      * apply nth_error_None in Hel. lia.
    + assert (left = right) by lia. subst. cbv zeta. split; [lia |]. split; assumption.
Qed.

Lemma insertPivot_sorted (sorted : list A) (pivot : A) :
  StronglySorted le sorted ->
  (forall e, In e sorted -> agrees e pivot) ->
  StronglySorted le (JSArray.insertPivot comparefn sorted pivot).
Proof.
  intros Hsorted Hagrees. unfold JSArray.insertPivot.
  destruct (binarySearch_bounds pivot sorted Hsorted Hagrees (List.length sorted) O
              (List.length sorted)) as (Hslot & Hbelow & Habove);
    [lia | lia | intros i e Hi; lia | |].
  { intros i e Hi He. assert (i < List.length sorted)%nat by (apply nth_error_Some; congruence).
    lia. }
  set (slot := JSArray.binarySearch _ _ _ _ _ _) in *.
  rewrite <- (firstn_skipn slot sorted) in Hsorted.
  apply StronglySorted_app_inv in Hsorted as (Hfirst & Hlast & Hcross).
  assert (Hlow : forall x, In x (firstn slot sorted) -> le x pivot).
  { intros x Hx. apply In_nth_error in Hx as [i Hi].
    assert (i < slot)%nat.
    { assert (Hlen : (i < List.length (firstn slot sorted))%nat)
        by (apply nth_error_Some; congruence).
      rewrite length_firstn in Hlen. lia. }
    rewrite nth_error_firstn in Hi. destruct (Nat.ltb_spec i slot); [| lia].
    eapply Hbelow; eauto. }
  assert (Hhigh : forall y, In y (skipn slot sorted) -> le pivot y).
  { intros y Hy. apply In_nth_error in Hy as [i Hi]. rewrite nth_error_skipn in Hi.
    eapply (Habove (slot + i)%nat); [lia | exact Hi]. }
  apply StronglySorted_app; [exact Hfirst | |].
  - constructor; [exact Hlast |]. apply List.Forall_forall. exact Hhigh.
  - intros x y Hx [<- | Hy]; [now apply Hlow | now apply Hcross].
Qed.

Lemma fold_insertPivot_sorted (rest : list A) :
  forall run,
    StronglySorted le run ->
    (forall e p, In e run -> In p rest -> agrees e p) ->
    ForallOrdPairs agrees rest ->
    StronglySorted le (fold_left (JSArray.insertPivot comparefn) rest run).
Proof.
  induction rest as [| p rest IH]; intros run Hrun Hcross Hrest; simpl; [exact Hrun |].
  inversion Hrest as [| x l Hp Hrest']; subst. apply IH.
  - apply insertPivot_sorted; [exact Hrun |].
    intros e He. apply Hcross; [exact He | now left].
  - intros e q He Hq.
    apply (Permutation_in _ (insertPivot_permutation comparefn run p)) in He.
    destruct He as [<- | He].
    + rewrite List.Forall_forall in Hp. now apply Hp.
    + apply Hcross; [exact He | now right].
  - exact Hrest'.
Qed.

Lemma run_sorted (descending : bool) (rest : list A) :
  forall previous,
    ForallOrdPairs agrees (previous :: rest) ->
    Sorted (if descending then flip le else le)
      (previous :: firstn (JSArray.runLengthFrom comparefn descending previous rest) rest).
Proof.
  induction rest as [| current rest IH]; intros previous Hpairs.
  - repeat constructor.
  - inversion Hpairs as [| x l Hprevious Hrest]; subst.
    inversion Hprevious as [| y l' [Hneg Hpos] _]; subst.
    cbn [JSArray.runLengthFrom].
    destruct descending.
    + destruct (Z.leb_spec 0 (comparefn current previous)); [repeat constructor |].
      cbn [firstn]. constructor; [now apply IH |]. constructor. now apply Hneg.
    + destruct (Z.ltb_spec (comparefn current previous) 0); [repeat constructor |].
      cbn [firstn]. constructor; [now apply IH |]. constructor. now apply Hpos.
Qed.

Lemma StronglySorted_rev (l : list A) :
  StronglySorted (flip le) l -> StronglySorted le (List.rev l).
Proof.
  induction 1 as [| h l Hl IH Hall]; simpl; [constructor |].
  apply StronglySorted_app; [exact IH | repeat constructor |].
  intros x y Hx [<- | []]. rewrite List.Forall_forall in Hall.
  apply Hall. now apply in_rev.
Qed.

Lemma countAndMakeRun_sorted (l : list A) :
  ForallOrdPairs agrees l ->
  StronglySorted le (fst (JSArray.countAndMakeRun comparefn l))
  /\ (forall e p, In e (fst (JSArray.countAndMakeRun comparefn l)) ->
                  In p (snd (JSArray.countAndMakeRun comparefn l)) -> agrees e p)
  /\ ForallOrdPairs agrees (snd (JSArray.countAndMakeRun comparefn l)).
Proof.
  intros Hpairs. unfold JSArray.countAndMakeRun.
  destruct l as [| low [| high rest]]; cbn [fst snd].
  - split; [constructor |]. split; [intros e p [] | constructor].
  - split; [repeat constructor |]. split; [intros e p _ [] | constructor].
  - set (descending := comparefn high low <? 0).
    set (n := S (S (JSArray.runLengthFrom comparefn descending high rest))).
    set (l := low :: high :: rest) in *.
    assert (Hsplit : ForallOrdPairs agrees (firstn n l ++ skipn n l))
      by now rewrite firstn_skipn.
    apply ForallOrdPairs_app_inv in Hsplit as (_ & Hrest & Hcross).
    assert (Hrun : Sorted (if descending then flip le else le) (firstn n l)).
    { unfold n, l. cbn [firstn].
      inversion Hpairs as [| x l' Hlow Htail]; subst.
      inversion Hlow as [| y l'' [Hneg Hpos] _]; subst.
      constructor; [now apply run_sorted |]. constructor.
      unfold descending. destruct (Z.ltb_spec (comparefn high low) 0);
        [now apply Hneg | now apply Hpos]. }
    destruct descending.
    + split; [| split; [| exact Hrest]].
      * apply StronglySorted_rev, Sorted_StronglySorted; [| exact Hrun].
        intros x y z Hxy Hyz. unfold flip in *. eapply le_trans; eauto.
      * intros e p He Hp. apply Hcross; [now apply in_rev | exact Hp].
    + split; [| split; [exact Hcross | exact Hrest]].
      apply Sorted_StronglySorted; [| exact Hrun].
      intros x y z Hxy Hyz. eapply le_trans; eauto.
Qed.

Lemma sort_sorted (l : list A) :
  ForallOrdPairs agrees l -> StronglySorted le (JSArray.sort comparefn l).
Proof.
  intros Hpairs. unfold JSArray.sort.
  destruct (countAndMakeRun_sorted l Hpairs) as (Hrun & Hcross & Hrest).
  destruct (JSArray.countAndMakeRun comparefn l) as [run rest]. simpl in *.
  now apply fold_insertPivot_sorted.
Qed.

End SortOrderFacts.

Section CatalogOrderFacts.

Import Apps CatalogOrder.

Variable env : Env.

Hypothesis localeCompare_antisym :
  forall x y, 0 <= localeCompare env x y -> localeCompare env y x <= 0.
Hypothesis localeCompare_trans :
  forall x y z,
    localeCompare env x y <= 0 -> localeCompare env y z <= 0 -> localeCompare env x z <= 0.

Lemma appLe_trans (a b c : App) : appLe env a b -> appLe env b c -> appLe env a c.
Proof.
  destruct a, b, c; unfold appLe, stepLe; simpl; intros Hab Hbc;
    try contradiction; try exact I; try lia.
  eapply localeCompare_trans; eauto.
Qed.

Lemma compareApps_agrees (earlier later : App) :
  (inputRank earlier <= inputRank later)%nat ->
  SortOrder.agrees (compareApps env) (appLe env) earlier later.
Proof.
  unfold SortOrder.agrees.
  destruct earlier as [p | s | e | g], later as [p' | s' | e' | g'];
    unfold compareApps, sameStepOrder, appLe, stepLe; simpl; intros Hrank;
    try lia; try (split; intros; (exact I || lia)).
  - destruct (Z.eqb_spec (exerciseNumber (problemStep p')) (exerciseNumber (problemStep p)));
      split; intros; lia.
  - destruct (Z.eqb_spec (exerciseNumber (solutionStep s')) (exerciseNumber (problemStep p)));
      [destruct (Z.ltb_spec (stepNumber (solutionStep s')) (stepNumber (problemStep p)))
      | destruct (Z.ltb_spec (exerciseNumber (solutionStep s'))
                    (exerciseNumber (problemStep p)))];
      split; intros; lia.
  - destruct (Z.eqb_spec (exerciseNumber (solutionStep s')) (exerciseNumber (solutionStep s)));
      split; intros; lia.
  - split; intros H; [lia | now apply localeCompare_antisym].
Qed.

Lemma ForallOrdPairs_ranked (l : list App) :
  StronglySorted (fun a b => (inputRank a <= inputRank b)%nat) l ->
  ForallOrdPairs (SortOrder.agrees (compareApps env) (appLe env)) l.
Proof.
  induction 1 as [| a l Hl IH Hall]; constructor; [| exact IH].
  apply List.Forall_forall. intros b Hb. rewrite List.Forall_forall in Hall.
  apply compareApps_agrees. now apply Hall.
Qed.

Lemma catalogEntries_ranked (playgroundApp : option PlaygroundApp)
    (problemApps : list ProblemApp) (solutionApps : list SolutionApp)
    (exampleApps : list ExampleApp) :
  StronglySorted (fun a b => (inputRank a <= inputRank b)%nat)
    (catalogEntries playgroundApp problemApps solutionApps exampleApps).
Proof.
  assert (Hsame : forall (B : Type) (f : B -> App) (n : nat) (l : list B),
             (forall x, inputRank (f x) = n) ->
             StronglySorted (fun a b => (inputRank a <= inputRank b)%nat) (map f l)).
  { intros B f n l Hf. induction l as [| x l IH]; simpl; constructor; [exact IH |].
    apply List.Forall_forall. intros b Hb. apply in_map_iff in Hb as (y & <- & _).
    rewrite !Hf. lia. }
  assert (Hrank : forall (B : Type) (f : B -> App) (n : nat) (l : list B) (a : App),
             (forall x, inputRank (f x) = n) -> In a (map f l) -> inputRank a = n).
  { intros B f n l a Hf Ha. apply in_map_iff in Ha as (y & <- & _). apply Hf. }
  unfold catalogEntries.
  apply StronglySorted_app; [destruct playgroundApp; repeat constructor | |].
  - apply StronglySorted_app; [now apply (Hsame _ _ 1%nat) | |].
    + apply StronglySorted_app;
        [now apply (Hsame _ _ 2%nat) | now apply (Hsame _ _ 3%nat) |].
      intros a b Ha Hb.
      rewrite (Hrank _ Solution 2%nat solutionApps a (fun _ => eq_refl) Ha).
      rewrite (Hrank _ Example 3%nat exampleApps b (fun _ => eq_refl) Hb). lia.
    + intros a b Ha Hb.
      rewrite (Hrank _ Problem 1%nat problemApps a (fun _ => eq_refl) Ha).
      apply in_app_or in Hb as [Hb | Hb].
      * rewrite (Hrank _ Solution 2%nat solutionApps b (fun _ => eq_refl) Hb). lia.
      * rewrite (Hrank _ Example 3%nat exampleApps b (fun _ => eq_refl) Hb). lia.
  - intros a b Ha Hb.
    assert (inputRank a = 0%nat)
      by (destruct playgroundApp; [destruct Ha as [<- | []] | destruct Ha]; reflexivity).
    lia.
Qed.

Lemma catalog_sorted (playgroundApp : option PlaygroundApp)
    (problemApps : list ProblemApp) (solutionApps : list SolutionApp)
    (exampleApps : list ExampleApp) :
  StronglySorted (appLe env)
    (JSArray.sort (compareApps env)
       (catalogEntries playgroundApp problemApps solutionApps exampleApps)).
Proof.
  apply sort_sorted; [exact appLe_trans |].
  apply ForallOrdPairs_ranked, catalogEntries_ranked.
Qed.

End CatalogOrderFacts.

Section CodeOrderFacts.

Lemma compare_not_Gt_trans (x : string) :
  forall y z,
    String.compare x y <> Gt -> String.compare y z <> Gt -> String.compare x z <> Gt.
Proof.
  induction x as [| a x IH]; intros [| b y] [| c z]; simpl; try congruence.
  unfold Ascii.compare.
  destruct (N.compare_spec (N_of_ascii a) (N_of_ascii b)),
    (N.compare_spec (N_of_ascii b) (N_of_ascii c)),
    (N.compare_spec (N_of_ascii a) (N_of_ascii c));
    try congruence; try lia.
  apply IH.
Qed.

Lemma codeOrder_antisym (x y : string) :
  0 <= Sample.codeOrder x y -> Sample.codeOrder y x <= 0.
Proof.
  unfold Sample.codeOrder. rewrite (String.compare_antisym x y).
  destruct (String.compare y x); simpl; lia.
Qed.

Lemma codeOrder_trans (x y z : string) :
  Sample.codeOrder x y <= 0 -> Sample.codeOrder y z <= 0 -> Sample.codeOrder x z <= 0.
Proof.
  unfold Sample.codeOrder. intros Hxy Hyz.
  pose proof (compare_not_Gt_trans x y z) as H.
  destruct (String.compare x y), (String.compare y z), (String.compare x z);
    try lia; exfalso; apply H; congruence.
Qed.

End CodeOrderFacts.

(** X18.  With a [localeCompare] that is an order, the catalog
    [getApps] computes is in this order: the playground, then the
    problem and solution apps by exercise number, then step number, then
    problem before solution, then the examples by [localeCompare] of
    their names.  So a playground app is the first app of the catalog. *)
Theorem getApps_sorts_the_catalog :
  forall (env : Apps.Env) (apps : list Apps.App),
    (forall x y, 0 <= Apps.localeCompare env x y -> Apps.localeCompare env y x <= 0) ->
    (forall x y z,
        Apps.localeCompare env x y <= 0 -> Apps.localeCompare env y z <= 0 ->
        Apps.localeCompare env x z <= 0) ->
    Apps.getAppsFresh env = Returned apps ->
    StronglySorted (CatalogOrder.appLe env) apps
    /\ (forall i app, nth_error apps i = Some (Apps.Playground app) -> i = O).
Proof.
  intros env apps Hantisym Htrans Hrun.
  apply getAppsFresh_returned in Hrun as (pg & ps & ss & es & _ & _ & _ & _ & ->).
  pose proof (catalog_sorted env Hantisym Htrans pg ps ss es) as Hsorted.
  split; [exact Hsorted |].
  assert (Hone : (List.length
                    (List.filter Apps.isPlaygroundApp
                       (JSArray.sort (Apps.compareApps env)
                          (Apps.catalogEntries pg ps ss es))) <= 1)%nat).
  { rewrite (filter_length_permutation _ _ _ (sort_permutation (Apps.compareApps env) _)).
    rewrite catalogEntries_playgrounds. destruct pg; simpl; lia. }
  destruct (JSArray.sort (Apps.compareApps env) (Apps.catalogEntries pg ps ss es))
    as [| first rest]; intros [| i] app Hi; try reflexivity; try discriminate.
  exfalso. simpl in Hi. apply nth_error_In in Hi.
  inversion Hsorted as [| x l _ Hall]; subst. rewrite List.Forall_forall in Hall.
  specialize (Hall _ Hi).
  assert (Hrest : (1 <= List.length (List.filter Apps.isPlaygroundApp rest))%nat).
  { assert (Hin : In (Apps.Playground app) (List.filter Apps.isPlaygroundApp rest))
      by (apply filter_In; split; [exact Hi | reflexivity]).
    destruct (List.filter Apps.isPlaygroundApp rest); [destruct Hin | simpl; lia]. }
  destruct first; simpl in Hall; try contradiction. simpl in Hone. lia.
Qed.

Lemma getApps_sorts_the_catalog_witness :
  StronglySorted (CatalogOrder.appLe SampleExercises.workshop) SampleExercises.catalog
  /\ map (fun app => Apps.name (Apps.baseOf app)) SampleExercises.catalog
     = [ "playground";
         "exercises__sep__01.intro__sep__01.problem.extra";
         "exercises__sep__01.intro__sep__01.solution.extra";
         "exercises__sep__01.intro__sep__02.problem";
         "exercises__sep__01.intro__sep__02.solution";
         "exercises__sep__02.next__sep__11.problem";
         "exercises__sep__03.more__sep__01.problem";
         "examples__sep__a"; "examples__sep__b" ]%string.
Proof.
  split; [| vm_compute; reflexivity].
  apply (getApps_sorts_the_catalog SampleExercises.workshop SampleExercises.catalog
           codeOrder_antisym codeOrder_trans).
  vm_compute. reflexivity.
Defined.

(** ** Where the apps of a fresh catalog come from *)

Section CatalogProvenance.

Import Apps.

Variable env : Env.

Hypothesis root_absolute : Path.isAbsolute (workshopRoot env) = true.

Lemma kept_flat_map {A : Type} (appFor : string -> result (option A)) (dirs : list string)
    (app : A) :
  In app (flat_map (fun d => kept (appFor d)) dirs) ->
  exists dir, In dir dirs /\ appFor dir = Returned (Some app).
Proof.
  intros H. apply in_flat_map in H as (dir & Hdir & Hkept).
  exists dir. split; [exact Hdir |].
  destruct (appFor dir) as [[a |] | m |]; simpl in Hkept; try contradiction.
  destruct Hkept as [<- | []]. reflexivity.
Qed.

Lemma cold_problem (dir : string) (app : ProblemApp) :
  problemAppCache env = ∅ -> In dir (problemDirsOf env) ->
  problemAppFor env dir = Returned (Some app) ->
  getProblemAppFromPath env dir = Returned (Some app).
Proof.
  intros Hcold Hdir. unfold problemAppFor.
  rewrite fetch_cold;
    [| now apply (problemDirs_absolute env root_absolute)
     | rewrite Hcold; apply lookup_empty].
  destruct (getProblemAppFromPath env dir) as [[a |] | m |]; simpl; congruence.
Qed.

Lemma cold_solution (dir : string) (app : SolutionApp) :
  solutionAppCache env = ∅ -> In dir (solutionDirsOf env) ->
  solutionAppFor env dir = Returned (Some app) ->
  getSolutionAppFromPath env dir = Returned (Some app).
Proof.
  intros Hcold Hdir. unfold solutionAppFor.
  rewrite fetch_cold;
    [| now apply (solutionDirs_absolute env root_absolute)
     | rewrite Hcold; apply lookup_empty].
  destruct (getSolutionAppFromPath env dir) as [[a |] | m |]; simpl; congruence.
Qed.

Lemma catalogEntries_problem (playgroundApp : option PlaygroundApp)
    (problemApps : list ProblemApp) (solutionApps : list SolutionApp)
    (exampleApps : list ExampleApp) (p : ProblemApp) :
  In (Problem p) (catalogEntries playgroundApp problemApps solutionApps exampleApps) ->
  In p problemApps.
Proof.
  unfold catalogEntries. rewrite !in_app_iff, !in_map_iff.
  intros [H | [(q & Hq & Hin) | [(q & Hq & _) | (q & Hq & _)]]]; try discriminate.
  - destruct playgroundApp; [destruct H as [H | []]; discriminate | destruct H].
  - now injection Hq as <-.
Qed.

Lemma catalogEntries_solution (playgroundApp : option PlaygroundApp)
    (problemApps : list ProblemApp) (solutionApps : list SolutionApp)
    (exampleApps : list ExampleApp) (s : SolutionApp) :
  In (Solution s) (catalogEntries playgroundApp problemApps solutionApps exampleApps) ->
  In s solutionApps.
Proof.
  unfold catalogEntries. rewrite !in_app_iff, !in_map_iff.
  intros [H | [(q & Hq & _) | [(q & Hq & Hin) | (q & Hq & _)]]]; try discriminate.
  - destruct playgroundApp; [destruct H as [H | []]; discriminate | destruct H].
  - now injection Hq as <-.
Qed.

End CatalogProvenance.

(** X19.  With an absolute workshop root and empty app caches, every
    problem and solution app of the catalog [getApps] returns is what its
    builder returned for one of the directories the scan listed: its
    [fullPath] is that directory, and its exercise and step numbers are
    at least 1.  The catalog holds no step app without a directory. *)
Theorem fresh_catalog_apps_have_directories :
  forall (env : Apps.Env) (apps : list Apps.App),
    Path.isAbsolute (Apps.workshopRoot env) = true ->
    Apps.problemAppCache env = ∅ ->
    Apps.solutionAppCache env = ∅ ->
    Apps.getAppsFresh env = Returned apps ->
    (forall p,
        In (Apps.Problem p) apps ->
        In (Apps.fullPath (Apps.base (Apps.problemStep p))) (Apps.problemDirsOf env)
        /\ Apps.getProblemAppFromPath env (Apps.fullPath (Apps.base (Apps.problemStep p)))
           = Returned (Some p)
        /\ 1 <= Apps.exerciseNumber (Apps.problemStep p)
        /\ 1 <= Apps.stepNumber (Apps.problemStep p))
    /\ (forall s,
          In (Apps.Solution s) apps ->
          In (Apps.fullPath (Apps.base (Apps.solutionStep s))) (Apps.solutionDirsOf env)
          /\ Apps.getSolutionAppFromPath env (Apps.fullPath (Apps.base (Apps.solutionStep s)))
             = Returned (Some s)
          /\ 1 <= Apps.exerciseNumber (Apps.solutionStep s)
          /\ 1 <= Apps.stepNumber (Apps.solutionStep s)).
Proof.
  intros env apps Habs Hproblems Hsolutions Hrun.
  apply getAppsFresh_returned in Hrun as (pg & ps & ss & es & _ & Hps & Hss & _ & ->).
  apply collectLoop_returned in Hps, Hss. simpl in Hps, Hss.
  split.
  - intros p Hp.
    apply (Permutation_in _ (sort_permutation (Apps.compareApps env) _)) in Hp.
    apply catalogEntries_problem in Hp. rewrite Hps in Hp.
    apply kept_flat_map in Hp as (dir & Hdir & Hfor).
    apply cold_problem in Hfor; try assumption.
    pose proof (problem_fields env dir p Hfor) as (Hex & Hstep & _ & _ & Hpath & _).
    rewrite Hpath. repeat split; assumption.
  - intros s Hs.
    apply (Permutation_in _ (sort_permutation (Apps.compareApps env) _)) in Hs.
    apply catalogEntries_solution in Hs. rewrite Hss in Hs.
    apply kept_flat_map in Hs as (dir & Hdir & Hfor).
    apply cold_solution in Hfor; try assumption.
    pose proof (solution_fields env dir s Hfor) as (Hex & Hstep & _ & _ & Hpath & _).
    rewrite Hpath. repeat split; assumption.
Qed.

Lemma fresh_catalog_apps_have_directories_witness :
  match nth_error SampleExercises.catalog 5 with
  | Some (Apps.Problem p) =>
      In (Apps.fullPath (Apps.base (Apps.problemStep p)))
        (Apps.problemDirsOf SampleExercises.workshop)
      /\ 1 <= Apps.exerciseNumber (Apps.problemStep p)
      /\ 1 <= Apps.stepNumber (Apps.problemStep p)
  | _ => False
  end.
Proof.
  destruct (nth_error SampleExercises.catalog 5) as [[p | s | e | g] |] eqn:Hnth;
    try (vm_compute in Hnth; discriminate).
  apply nth_error_In in Hnth.
  destruct (fresh_catalog_apps_have_directories SampleExercises.workshop
              SampleExercises.catalog eq_refl eq_refl eq_refl) as [Hproblems _].
  - vm_compute. reflexivity.
  - destruct (Hproblems p Hnth) as (Hdir & _ & Hex & Hstep). repeat split; assumption.
Defined.

(** ** A file change and the cached catalog *)

Section CatalogCacheFacts.

Import Apps.

Lemma handleFileChanges_some (catalog : list App) (filePath : string) (touchedAt : Z)
    (modifiedTimes : gmap string Z) :
  (exists app, In app catalog /\ JS.startsWith filePath (fullPath (baseOf app)) = true) ->
  exists first,
    In first catalog
    /\ Tracker.handleFileChanges catalog filePath touchedAt modifiedTimes
       = <[fullPath (baseOf first) := touchedAt]> modifiedTimes.
Proof.
  induction catalog as [| a catalog IH]; intros (app & Hin & Hstarts); [destruct Hin |].
  simpl. destruct (JS.startsWith filePath (fullPath (baseOf a))) eqn:Ha.
  - exists a. split; [now left | reflexivity].
  - destruct Hin as [-> | Hin]; [congruence |].
    destruct IH as (first & Hfirst & Heq); [eauto |].
    exists first. split; [now right | exact Heq].
Qed.

End CatalogCacheFacts.

(** X20.  A file change is seen by the next [getApps]: once the watcher
    has recorded a change below the directory of an app of the catalog,
    at a time after the cached catalog was stored, [getApps] without a
    [forceFresh] of its own does not answer from the cache but builds the
    catalog anew and stores it with the present time; and an explicit
    [forceFresh: true] does so whatever the staleness map holds. *)
Theorem file_change_refreshes_catalog :
  forall (env : Apps.Env) (catalog : list Apps.App) (filePath : string) (touchedAt : Z)
         (before : gmap string Z) (app : Apps.App)
         (entry : Staleness.CacheEntry (list Apps.App)),
    In app catalog ->
    JS.startsWith filePath (Apps.fullPath (Apps.baseOf app)) = true ->
    Apps.modifiedTimes env = Tracker.handleFileChanges catalog filePath touchedAt before ->
    0 <= Staleness.createdTime (Staleness.metadata entry) < touchedAt ->
    CatalogCache.getApps env None (Some entry)
    = Cache.computeFresh (Apps.now env) Apps.ttlDay 0 (Apps.getAppsFresh env)
    /\ CatalogCache.getApps env (Some true) (Some entry)
       = Cache.computeFresh (Apps.now env) Apps.ttlDay 0 (Apps.getAppsFresh env).
Proof.
  intros env catalog filePath touchedAt before app entry Hin Hstarts Htimes [Hpos Hlt].
  split; [| reflexivity].
  unfold CatalogCache.getApps.
  destruct (handleFileChanges_some catalog filePath touchedAt before) as (first & _ & Heq);
    [eauto |].
  rewrite (getForceFresh_touched (Apps.modifiedTimes env) entry
             (Apps.fullPath (Apps.baseOf first)) touchedAt Hpos); [reflexivity | | exact Hlt].
  rewrite Htimes, Heq. apply lookup_insert_eq.
Qed.

Lemma file_change_refreshes_catalog_witness :
  CatalogCache.getApps SampleExercises.touched None (Some SampleExercises.cachedCatalog)
  = Cache.computeFresh (Apps.now SampleExercises.touched) Apps.ttlDay 0
      (Apps.getAppsFresh SampleExercises.touched).
Proof.
  destruct (nth_error SampleExercises.catalog 3) as [app |] eqn:Hnth;
    [| vm_compute in Hnth; discriminate].
  apply (file_change_refreshes_catalog SampleExercises.touched SampleExercises.catalog
           SampleExercises.changedFile 1700000000500 ∅ app SampleExercises.cachedCatalog).
  - exact (nth_error_In _ _ Hnth).
  - vm_compute in Hnth. injection Hnth as <-. vm_compute. reflexivity.
  - reflexivity.
  - simpl. lia.
Defined.
